(** * steampy: verification of the login executor (steampy/login.py)

    A shallow embedding of [LoginExecutor] and of the parts of its
    collaborators (the HTTP session and its cookie jar, the JSON
    responses, the RSA and base64 encoders) that the executor drives,
    followed by the properties of the login protocol.

    Python values are embedded as the inductive type [value]; Python
    dictionaries, which keep insertion order, as association lists with
    unique keys; exceptions as the type [exn]; the methods of the executor
    as functions in a state-and-exception monad over the executor object,
    the cookie jar, the outside world and a log of the calls made to
    collaborators. *)

From Stdlib Require Import List String Ascii ZArith NArith Zpow_facts Zcong Lia Bool.
From Stdlib Require Import Strings.Byte.
From Stdlib Require Import DecimalString.
Import ListNotations.
Local Open Scope string_scope.

Set Implicit Arguments.
Set Warnings "-register-all".

(** ** Python values and dictionaries *)

Module Py.

(** An insertion-ordered dictionary with string keys. *)
Definition dict (V : Type) := list (string * V).

Fixpoint dict_get {V} (d : dict V) (k : string) : option V :=
  match d with
  | [] => None
  | (k', v) :: d' => if String.eqb k' k then Some v else dict_get d' k
  end.

(** [d[k] = v]: an existing key keeps its position, a new one goes last. *)
Fixpoint dict_set {V} (d : dict V) (k : string) (v : V) : dict V :=
  match d with
  | [] => [(k, v)]
  | (k', v') :: d' =>
      if String.eqb k' k then (k, v) :: d' else (k', v') :: dict_set d' k v
  end.

(** [del d[k]], for a key that is there. *)
Definition dict_del {V} (d : dict V) (k : string) : dict V :=
  filter (fun kv => negb (String.eqb (fst kv) k)) d.

(** A dictionary display [{k1: v1, k2: v2, ...}]: entries are stored left
    to right, so a repeated key keeps its last value. *)
Definition dict_literal {V} (entries : list (string * V)) : dict V :=
  fold_left (fun d kv => dict_set d (fst kv) (snd kv)) entries [].

(** The values the executor handles: what [json()] can return, plus byte
    strings.  JSON numbers are kept as integers. *)
Inductive value : Type :=
| VNone
| VBool (b : bool)
| VInt (z : Z)
| VStr (s : string)
| VBytes (b : list byte)
| VList (l : list value)
| VDict (d : list (string * value)).

Inductive exn : Type :=
| KeyError (key : string)
| TypeError
| AttributeError
| ValueError (msg : string)
| OverflowError
| UnicodeEncodeError
| CaptchaRequired (msg : string)
| InvalidCredentials (msg : value)
| Exception (msg : string)
| ExternalError (tag : string).

Inductive result (A : Type) : Type :=
| Ok (a : A)
| Raise (e : exn).
Arguments Ok {A} a.
Arguments Raise {A} e.

Definition bind_result {A B} (r : result A) (k : A -> result B) : result B :=
  match r with
  | Ok a => k a
  | Raise e => Raise e
  end.

(** Truth value testing ([if x:]). *)
Definition truthy (v : value) : bool :=
  match v with
  | VNone => false
  | VBool b => b
  | VInt z => negb (Z.eqb z 0)
  | VStr s => negb (String.eqb s "")
  | VBytes b => match b with [] => false | _ => true end
  | VList l => match l with [] => false | _ => true end
  | VDict d => match d with [] => false | _ => true end
  end.

(** [v[k]] for a string key [k]. *)
Definition subscript (v : value) (k : string) : result value :=
  match v with
  | VDict d => match dict_get d k with
               | Some x => Ok x
               | None => Raise (KeyError k)
               end
  | _ => Raise TypeError
  end.

(** [v.get(k, default)]. *)
Definition get_default (v : value) (k : string) (default : value) : result value :=
  match v with
  | VDict d => match dict_get d k with
               | Some x => Ok x
               | None => Ok default
               end
  | _ => Raise AttributeError
  end.

(** The sequence [for x in v] runs over. *)
Definition iterate (v : value) : result (list value) :=
  match v with
  | VList l => Ok l
  | VDict d => Ok (map (fun kv => VStr (fst kv)) d)
  | VStr s => Ok (map (fun c => VStr (String c EmptyString)) (list_ascii_of_string s))
  | VBytes b => Ok (map (fun x => VInt (Z.of_N (Byte.to_N x))) b)
  | _ => Raise TypeError
  end.

(** [s[i:]] on strings. *)
Definition slice_from (i : nat) (s : string) : string :=
  substring i (String.length s - i) s.

(** [str(z)] for an integer. *)
Definition str_of_int (z : Z) : string :=
  NilZero.string_of_int (Z.to_int z).

End Py.
Import Py.

(** ** The cookie jar of the HTTP session

    [requests.cookies.RequestsCookieJar] on top of
    [http.cookiejar.CookieJar]: the cookies are kept in nested
    dictionaries, domain -> path -> name, each keeping insertion order.
    The value of a cookie is a string, or [None] for a cookie that came
    without a value. *)

Module CookieJar.

Definition t := dict (dict (dict (option string))).

Definition lookup (j : t) (domain path name : string) : option (option string) :=
  match dict_get j domain with
  | Some by_path =>
      match dict_get by_path path with
      | Some by_name => dict_get by_name name
      | None => None
      end
  | None => None
  end.

(** The double quote and the backslash. *)
Definition quote : ascii := "034"%char.
Definition backslash : ascii := "092"%char.

(** [s.startswith(q)] and [s.endswith(q)], for the double quote [q]. *)
Definition startswith_quote (s : string) : bool :=
  match s with
  | String c _ => Ascii.eqb c quote
  | EmptyString => false
  end.

Fixpoint endswith_quote (s : string) : bool :=
  match s with
  | EmptyString => false
  | String c EmptyString => Ascii.eqb c quote
  | String _ s' => endswith_quote s'
  end.

(** [s.replace(bq, '')], for [bq] a backslash and a double quote: every
    backslash that is followed by a double quote goes with that quote,
    scanning from the left. *)
Fixpoint drop_escaped_quotes (s : string) : string :=
  match s with
  | EmptyString => EmptyString
  | String a rest =>
      match rest with
      | String b s' =>
          if Ascii.eqb a backslash && Ascii.eqb b quote
          then drop_escaped_quotes s'
          else String a (drop_escaped_quotes rest)
      | EmptyString => String a EmptyString
      end
  end.

(** The value [RequestsCookieJar.set_cookie] keeps of a string: a value
    that starts and ends with a double quote loses its escaped quotes. *)
Definition stored_value (value : string) : string :=
  if startswith_quote value && endswith_quote value
  then drop_escaped_quotes value
  else value.

(** [http.cookiejar.CookieJar.set_cookie(cookie)]: the cookie goes into
    the dictionaries, which are created where they are missing. *)
Definition store (j : t) (name : string) (value : option string)
    (domain path : string) : t :=
  let by_path := match dict_get j domain with Some c => c | None => [] end in
  let by_name := match dict_get by_path path with Some c => c | None => [] end in
  dict_set j domain (dict_set by_path path (dict_set by_name name value)).

(** [RequestsCookieJar.set_cookie(cookie)] *)
Definition set_cookie (j : t) (name : string) (value : option string)
    (domain path : string) : t :=
  store j name (option_map stored_value value) domain path.

(** All cookies, in iteration order, as (domain, path, name, value). *)
Definition entries (j : t) : list (string * string * string * option string) :=
  flat_map (fun dom =>
    flat_map (fun pth =>
      map (fun c => (fst dom, fst pth, fst c, snd c)) (snd pth)) (snd dom)) j.

(** [jar.clear(domain, path, name)], that is
    [del self._cookies[domain][path][name]], for a cookie that is in the
    jar (it raises KeyError otherwise; [remove_cookie_by_name] clears
    cookies it has just found). *)
Definition clear (j : t) (domain path name : string) : t :=
  match dict_get j domain with
  | Some by_path =>
      match dict_get by_path path with
      | Some by_name =>
          dict_set j domain (dict_set by_path path (dict_del by_name name))
      | None => j
      end
  | None => j
  end.

(** [wanted is None or wanted == s] *)
Definition matches (wanted : option string) (s : string) : bool :=
  match wanted with
  | None => true
  | Some x => String.eqb x s
  end.

(** The cookies [remove_cookie_by_name] collects before it clears them. *)
Definition clearables (j : t) (name : string) (domain path : option string)
    : list (string * string * string) :=
  map (fun c => let '(d, p, k, _) := c in (d, p, k))
    (filter (fun c => let '(d, p, k, _) := c in
               String.eqb k name && matches domain d && matches path p)
            (entries j)).

(** [remove_cookie_by_name(jar, name, domain, path)] *)
Definition remove_cookie_by_name (j : t) (name : string)
    (domain path : option string) : t :=
  fold_left (fun jar c => let '(d, p, k) := c in clear jar d p k)
    (clearables j name domain path) j.

(** [jar.set(name, value, domain=domain)]: a [None] value unsets the
    cookies of that name (on that domain, on every path); otherwise the
    cookie is created with the empty domain unless one is given, and the
    path [/]. *)
Definition set (j : t) (name : string) (value : option string)
    (domain : option string) : t :=
  match value with
  | None => remove_cookie_by_name j name domain None
  | Some _ =>
      set_cookie j name value (match domain with Some d => d | None => "" end) "/"
  end.

(** All cookies, in iteration order, as (name, value). *)
Definition items (j : t) : list (string * option string) :=
  flat_map (fun dom => flat_map (fun pth => snd pth) (snd dom)) j.

(** [jar.get_dict()]: a later cookie of the same name overrides. *)
Definition get_dict (j : t) : dict (option string) :=
  fold_left (fun d c => dict_set d (fst c) (snd c)) (items j) [].

End CookieJar.

(** ** Data exchanged with the server *)

(** A response of the HTTP session; [json] is what [response.json()]
    gives (it raises when the body is not JSON). *)
Record Response : Type := { json : result value }.

(** [rsa.PublicKey(n, e)] *)
Record PublicKey : Type := { n : Z; e : Z }.

(** The dictionary [_fetch_rsa_params] returns, with its two fixed keys. *)
Record RsaParams : Type := { rsa_key : PublicKey; rsa_timestamp : value }.

(** ** Encoders used by the encryption step *)

Module Codec.

Local Open Scope Z_scope.
Local Open Scope list_scope.

Definition Z_of_byte (b : byte) : Z := Z.of_N (Byte.to_N b).

Definition byte_of_Z (z : Z) : byte :=
  match Byte.of_N (Z.to_N (z mod 256)) with
  | Some b => b
  | None => x00
  end.

(** [s.encode('utf-8')] of one code point. *)
Definition utf8_encode_char (c : N) : result (list byte) :=
  let z := Z.of_N c in
  if z <? 128 then Ok [byte_of_Z z]
  else if z <? 2048 then
    Ok [byte_of_Z (192 + z / 64); byte_of_Z (128 + z mod 64)]
  else if z <? 65536 then
    if (55296 <=? z) && (z <=? 57343) then Raise UnicodeEncodeError
    else Ok [byte_of_Z (224 + z / 4096); byte_of_Z (128 + (z / 64) mod 64);
             byte_of_Z (128 + z mod 64)]
  else if z <? 1114112 then
    Ok [byte_of_Z (240 + z / 262144); byte_of_Z (128 + (z / 4096) mod 64);
        byte_of_Z (128 + (z / 64) mod 64); byte_of_Z (128 + z mod 64)]
  else Raise UnicodeEncodeError.

Fixpoint utf8_encode (s : list N) : result (list byte) :=
  match s with
  | [] => Ok []
  | c :: s' =>
      bind_result (utf8_encode_char c) (fun bs =>
      bind_result (utf8_encode s') (fun rest => Ok (bs ++ rest)))
  end.

(** The base64 alphabet, by index. *)
Definition b64_alphabet : list byte :=
  list_byte_of_string
    "ABCDEFGHIJKLMNOPQRSTUVWXYZabcdefghijklmnopqrstuvwxyz0123456789+/".

Definition b64_char (i : Z) : byte := nth (Z.to_nat i) b64_alphabet x00.

Definition b64_pad : byte := "="%byte.

(** [base64.b64encode] *)
Fixpoint b64encode (bs : list byte) : list byte :=
  match bs with
  | [] => []
  | [a] =>
      let x := Z_of_byte a in
      [b64_char (x / 4); b64_char ((x mod 4) * 16); b64_pad; b64_pad]
  | [a; b] =>
      let x := Z_of_byte a in
      let y := Z_of_byte b in
      [b64_char (x / 4); b64_char ((x mod 4) * 16 + y / 16);
       b64_char ((y mod 16) * 4); b64_pad]
  | a :: b :: c :: rest =>
      let x := Z_of_byte a in
      let y := Z_of_byte b in
      let z := Z_of_byte c in
      b64_char (x / 4) :: b64_char ((x mod 4) * 16 + y / 16)
        :: b64_char ((y mod 16) * 4 + z / 64) :: b64_char (z mod 64)
        :: b64encode rest
  end.

(** Big-endian conversions ([rsa.transform]). *)
Definition bytes2int (bs : list byte) : Z :=
  fold_left (fun acc b => acc * 256 + Z_of_byte b) bs 0.

Fixpoint int2bytes_aux (len : nat) (z : Z) (acc : list byte) : list byte :=
  match len with
  | O => acc
  | S len' => int2bytes_aux len' (z / 256) (byte_of_Z z :: acc)
  end.

(** [int2bytes(number, fill_size)] = [number.to_bytes(fill_size, 'big')] *)
Definition int2bytes (z : Z) (fill_size : nat) : result (list byte) :=
  if (0 <=? z) && (z <? 256 ^ Z.of_nat fill_size)
  then Ok (int2bytes_aux fill_size z [])
  else Raise OverflowError.

(** [rsa.common.byte_size]: bytes needed to hold the number. *)
Definition byte_size (z : Z) : nat :=
  if z =? 0 then 1%nat
  else Z.to_nat ((Z.log2 (Z.abs z) + 1 + 7) / 8).

(** [rsa.pkcs1._pad_for_encryption]: the block [00 02 PS 00 message],
    where the padding [PS] is drawn from the random source [draw] once the
    length check has passed. *)
Definition pad_for_encryption {W} (draw : nat -> W -> list byte * W)
    (message : list byte) (target_length : nat) (w : W)
    : result (list byte) * W :=
  let msglength := List.length message in
  if (Z.of_nat target_length - 11 <? Z.of_nat msglength)
  then (Raise OverflowError, w)
  else
    let padding_length := (target_length - msglength - 3)%nat in
    let '(padding, w') := draw padding_length w in
    (Ok ([x00; x02] ++ padding ++ [x00] ++ message), w').

(** [pow(base, exp, mod)] on integers: with a negative exponent it is
    the power of the inverse of the base modulo [mod], when there is one. *)
Definition pow_mod (base exp modulus : Z) : result Z :=
  if modulus =? 0 then Raise (ValueError "pow() 3rd argument cannot be 0")
  else if exp <? 0 then
    if Z.gcd base modulus =? 1
    then Ok ((Z.invmod base modulus ^ (- exp)) mod modulus)
    else Raise (ValueError "base is not invertible for the given modulus")
  else Ok ((base ^ exp) mod modulus).

(** [rsa.core.encrypt_int] *)
Definition encrypt_int (message ekey modulus : Z) : result Z :=
  if message <? 0 then Raise (ValueError "Only non-negative numbers are supported")
  else if modulus <? message then Raise OverflowError
  else pow_mod message ekey modulus.

(** [rsa.encrypt(message, pub_key)] *)
Definition rsa_encrypt {W} (draw : nat -> W -> list byte * W)
    (message : list byte) (pub_key : PublicKey) (w : W)
    : result (list byte) * W :=
  let keylength := byte_size (n pub_key) in
  match pad_for_encryption draw message keylength w with
  | (Raise ex, w') => (Raise ex, w')
  | (Ok padded, w') =>
      let payload := bytes2int padded in
      (bind_result (encrypt_int payload (e pub_key) (n pub_key)) (fun encrypted =>
       int2bytes encrypted keylength), w')
  end.

(** *** Reference definitions for the encryption step

    The decoders, and the encryption scheme as RFC 8017 (7.2.1) states
    it.  The executor does not run them; the properties of the encryption
    step are stated against them. *)

(** The six low bits of a continuation byte [10xxxxxx]. *)
Definition continuation (b : byte) : option Z :=
  let x := Z_of_byte b in
  if (128 <=? x) && (x <? 192) then Some (x - 128) else None.

(** Strict UTF-8 decoding (RFC 3629): one to four bytes per code point,
    shortest form only, no surrogates, nothing above U+10FFFF. *)
Fixpoint utf8_decode (bs : list byte) : option (list N) :=
  match bs with
  | [] => Some []
  | b0 :: rest =>
      let x := Z_of_byte b0 in
      if x <? 128 then option_map (cons (Z.to_N x)) (utf8_decode rest)
      else if x <? 194 then None
      else if x <? 224 then
        match rest with
        | b1 :: rest1 =>
            match continuation b1 with
            | Some y =>
                option_map (cons (Z.to_N ((x - 192) * 64 + y))) (utf8_decode rest1)
            | None => None
            end
        | _ => None
        end
      else if x <? 240 then
        match rest with
        | b1 :: b2 :: rest2 =>
            match continuation b1, continuation b2 with
            | Some y, Some z =>
                let c := (x - 224) * 4096 + y * 64 + z in
                if (c <? 2048) || ((55296 <=? c) && (c <=? 57343)) then None
                else option_map (cons (Z.to_N c)) (utf8_decode rest2)
            | _, _ => None
            end
        | _ => None
        end
      else if x <? 245 then
        match rest with
        | b1 :: b2 :: b3 :: rest3 =>
            match continuation b1, continuation b2, continuation b3 with
            | Some y, Some z, Some u =>
                let c := (x - 240) * 262144 + y * 4096 + z * 64 + u in
                if (c <? 65536) || (1114111 <? c) then None
                else option_map (cons (Z.to_N c)) (utf8_decode rest3)
            | _, _, _ => None
            end
        | _ => None
        end
      else None
  end.

(** The position of a character in the base64 alphabet. *)
Fixpoint index_of (c : byte) (alphabet : list byte) (i : Z) : option Z :=
  match alphabet with
  | [] => None
  | a :: alphabet' =>
      if Byte.eqb a c then Some i else index_of c alphabet' (i + 1)
  end.

Definition b64_index (c : byte) : option Z := index_of c b64_alphabet 0.

(** Strict base64 decoding: groups of four characters, padding only in
    the last group. *)
Fixpoint b64decode (cs : list byte) : option (list byte) :=
  match cs with
  | [] => Some []
  | c0 :: c1 :: c2 :: c3 :: rest =>
      match b64_index c0, b64_index c1 with
      | Some i0, Some i1 =>
          if Byte.eqb c3 b64_pad then
            match rest with
            | [] =>
                if Byte.eqb c2 b64_pad then Some [byte_of_Z (i0 * 4 + i1 / 16)]
                else
                  match b64_index c2 with
                  | Some i2 =>
                      Some [byte_of_Z (i0 * 4 + i1 / 16);
                            byte_of_Z ((i1 mod 16) * 16 + i2 / 4)]
                  | None => None
                  end
            | _ :: _ => None
            end
          else
            match b64_index c2, b64_index c3, b64decode rest with
            | Some i2, Some i3, Some tail =>
                Some (byte_of_Z (i0 * 4 + i1 / 16)
                        :: byte_of_Z ((i1 mod 16) * 16 + i2 / 4)
                        :: byte_of_Z ((i2 mod 4) * 64 + i3) :: tail)
            | _, _, _ => None
            end
      | _, _ => None
      end
  | _ => None
  end.

(** The message of an encryption block [00 02 PS 00 M]: [PS] has no zero
    byte and at least eight bytes. *)
Fixpoint split_at_zero (bs : list byte) (padding : nat)
    : option (nat * list byte) :=
  match bs with
  | [] => None
  | b :: bs' =>
      if Byte.eqb b x00 then Some (padding, bs')
      else split_at_zero bs' (S padding)
  end.

Definition unpad_block (block : list byte) : option (list byte) :=
  match block with
  | b0 :: b1 :: rest =>
      if Byte.eqb b0 x00 && Byte.eqb b1 x02 then
        match split_at_zero rest 0 with
        | Some (padding, message) =>
            if (8 <=? padding)%nat then Some message else None
        | None => None
        end
      else None
  | _ => None
  end.

(** RSAES-PKCS1-v1_5 decryption with a private exponent [d]. *)
Definition rsa_decrypt (ciphertext : list byte) (pub_key : PublicKey) (d : Z)
    : option (list byte) :=
  let k := byte_size (n pub_key) in
  let m := (bytes2int ciphertext ^ d) mod n pub_key in
  match int2bytes m k with
  | Ok block => unpad_block block
  | Raise _ => None
  end.

(** The encryption block [EM = 00 02 PS 00 M]. *)
Definition encryption_block (PS message : list byte) : list byte :=
  [x00; x02] ++ PS ++ [x00] ++ message.

(** [c] is [m] to the power [e] modulo [n], the RSA encryption
    primitive; for a negative exponent, which no RSA key has, it is the
    number below [n] that undoes the power [- e]. *)
Definition power_modulo (m e n c : Z) : Prop :=
  0 <= c < n /\
  if 0 <=? e then c = (m ^ e) mod n
  else (c * m ^ (- e)) mod n = 1 mod n.

(** [ciphertext] is the RSAES-PKCS1-v1_5 encryption of [message] under
    the public key with the padding string [PS]: with [k] the length of
    the modulus in bytes, [PS] has [k - |M| - 3 >= 8] bytes, none zero, and
    the [k] bytes of [ciphertext] are the big-endian number
    [EM ^ e mod n]. *)
Definition pkcs1_v15_encryption (pub_key : PublicKey)
    (message PS ciphertext : list byte) : Prop :=
  let k := byte_size (n pub_key) in
  List.length PS = (k - List.length message - 3)%nat /\
  (8 <= List.length PS)%nat /\
  Forall (fun b => b <> x00) PS /\
  List.length ciphertext = k /\
  power_modulo (bytes2int (encryption_block PS message)) (e pub_key)
    (n pub_key) (bytes2int ciphertext).

(** The encryption block [rsa.encrypt] builds for [message], with the
    padding it draws in the world [w]. *)
Definition drawn_block {W} (draw : nat -> W -> list byte * W)
    (message : list byte) (pub_key : PublicKey) (w : W) : list byte :=
  encryption_block
    (fst (draw (byte_size (n pub_key) - List.length message - 3)%nat w)) message.

(** The bytes a padding source hands out: as many as asked, none zero. *)
Definition padding_source_ok {W} (draw : nat -> W -> list byte * W) : Prop :=
  forall len w,
    List.length (fst (draw len w)) = len /\
    Forall (fun b => b <> x00) (fst (draw len w)).

End Codec.

(** ** The executor and its environment *)

(** Calls to collaborators, in the order they are made. *)
Inductive event : Type :=
| EvPost (url data : value)
| EvGenerateCode (shared_secret : string)
| EvEmailCallback
| EvSaveCallback (parameters : value).

(** Everything outside the executor: the network and the server behind
    it, the clock, the random source of the RSA padding, the code
    generator of [steampy.guard] and the user's callbacks.  Each consumes
    and returns the state of the world. *)
Record Environment (World : Type) : Type := {
  (* session.post(url, data): the answer, and the cookies the exchange
     leaves in the jar *)
  http_post : value -> value -> CookieJar.t -> World ->
              result Response * CookieJar.t * World;
  (* int(time.time() * 1000) *)
  time_ms : World -> Z * World;
  (* the padding bytes drawn by rsa.encrypt *)
  rsa_padding : nat -> World -> list byte * World;
  (* guard.generate_one_time_code(shared_secret) *)
  generate_one_time_code : string -> World -> result string * World;
  (* the user's authCallback() *)
  auth_callback : World -> result value * World;
  (* the user's saveCallback(parameters), when there is a callable one *)
  save_callback : value -> World -> result unit * World;
  (* int(s, 16) on a string *)
  int_of_hex : string -> option Z
}.

Record LoginExecutor (World : Type) : Type := {
  username : string;
  password : list N;             (* the code points of the string *)
  one_time_code : string;
  email_auth : value;
  saveCallback_callable : bool;  (* callable(self.saveCallback) *)
  steamAuth : dict (option string);  (* cookie name -> value *)
  shared_secret : string;
  cookies : CookieJar.t;         (* self.session.cookies *)
  world : World;
  trace : list event
}.

Section Executor.

Context {World : Type} (env : Environment World).

Definition Self : Type := LoginExecutor World.

(** *** Field updates of the executor object *)

Definition set_one_time_code (c : string) (self : Self) : Self :=
  {| username := username self; password := password self;
     one_time_code := c; email_auth := email_auth self;
     saveCallback_callable := saveCallback_callable self;
     steamAuth := steamAuth self; shared_secret := shared_secret self;
     cookies := cookies self; world := world self; trace := trace self |}.

Definition set_email_auth (c : value) (self : Self) : Self :=
  {| username := username self; password := password self;
     one_time_code := one_time_code self; email_auth := c;
     saveCallback_callable := saveCallback_callable self;
     steamAuth := steamAuth self; shared_secret := shared_secret self;
     cookies := cookies self; world := world self; trace := trace self |}.

Definition set_cookies (j : CookieJar.t) (self : Self) : Self :=
  {| username := username self; password := password self;
     one_time_code := one_time_code self; email_auth := email_auth self;
     saveCallback_callable := saveCallback_callable self;
     steamAuth := steamAuth self; shared_secret := shared_secret self;
     cookies := j; world := world self; trace := trace self |}.

(** The world after a call to a collaborator, with the call logged. *)
Definition after_call (w : World) (evs : list event) (self : Self) : Self :=
  {| username := username self; password := password self;
     one_time_code := one_time_code self; email_auth := email_auth self;
     saveCallback_callable := saveCallback_callable self;
     steamAuth := steamAuth self; shared_secret := shared_secret self;
     cookies := cookies self; world := w; trace := (trace self ++ evs)%list |}.

(** *** The monad of the methods: state of the executor, and exceptions *)

Definition M (A : Type) : Type := Self -> result A * Self.

Definition ret {A} (a : A) : M A := fun self => (Ok a, self).

Definition raise {A} (ex : exn) : M A := fun self => (Raise ex, self).

Definition lift {A} (r : result A) : M A := fun self => (r, self).

Definition bind {A B} (m : M A) (k : A -> M B) : M B :=
  fun self =>
    match m self with
    | (Ok a, self') => k a self'
    | (Raise ex, self') => (Raise ex, self')
    end.

Notation "x <- m ;; k" := (bind m (fun x => k))
  (at level 61, m at next level, right associativity).
Notation "m ;;; k" := (bind m (fun _ => k))
  (at level 61, right associativity).

(** *** Calls to collaborators *)

(** [self.session.post(url, data)] *)
Definition session_post (url data : value) : M Response :=
  fun self =>
    let '(r, jar, w) := http_post env url data (cookies self) (world self) in
    (r, after_call w [EvPost url data] (set_cookies jar self)).

(** [guard.generate_one_time_code(self.shared_secret)] *)
Definition call_generate_one_time_code : M string :=
  fun self =>
    let '(r, w) := generate_one_time_code env (shared_secret self) (world self) in
    (r, after_call w [EvGenerateCode (shared_secret self)] self).

(** [self.email_callback()] *)
Definition call_email_callback : M value :=
  fun self =>
    let '(r, w) := auth_callback env (world self) in
    (r, after_call w [EvEmailCallback] self).

(** [self.saveCallback(parameters)] *)
Definition call_saveCallback (parameters : value) : M unit :=
  fun self =>
    let '(r, w) := save_callback env parameters (world self) in
    (r, after_call w [EvSaveCallback parameters] self).

(** *** class LoginExecutor *)

Definition COMMUNITY_URL : string := "https://steamcommunity.com".
Definition STORE_URL : string := "https://store.steampowered.com".

Definition _set_steamauth_cookies : M unit :=
  fun self =>
    (Ok tt,
     set_cookies
       (fold_left (fun jar kv => CookieJar.set jar (fst kv) (snd kv) None)
                  (steamAuth self) (cookies self))
       self).

(** The [try] block of [_fetch_rsa_params]. *)
Definition parse_key_response (key_response : value) : result RsaParams :=
  bind_result (subscript key_response "publickey_mod") (fun m =>
  bind_result (match m with
               | VStr s => match int_of_hex env s with
                           | Some z => Ok z
                           | None => Raise (ValueError "invalid literal for int() with base 16")
                           end
               | _ => Raise TypeError
               end) (fun rsa_mod =>
  bind_result (subscript key_response "publickey_exp") (fun x =>
  bind_result (match x with
               | VStr s => match int_of_hex env s with
                           | Some z => Ok z
                           | None => Raise (ValueError "invalid literal for int() with base 16")
                           end
               | _ => Raise TypeError
               end) (fun rsa_exp =>
  bind_result (subscript key_response "timestamp") (fun rsa_timestamp =>
  Ok {| rsa_key := {| n := rsa_mod; e := rsa_exp |};
        rsa_timestamp := rsa_timestamp |}))))).

Definition maximal_number_of_repetitions : nat := 5.

(** [self.session.post(STORE_URL + '/login/getrsakey/',
                          data={'username': self.username}).json()] *)
Definition request_rsa_key : M value :=
  fun self =>
    (response <- session_post (VStr (STORE_URL ++ "/login/getrsakey/"))
                   (VDict (dict_literal [("username", VStr (username self))])) ;;
     lift (json response)) self.

(** The body of [_fetch_rsa_params]; [recurse] stands for the method
    itself in the recursive call. *)
Definition fetch_rsa_params_body (recurse : nat -> M RsaParams)
    (current_number_of_repetitions : nat) : M RsaParams :=
  key_response <- request_rsa_key ;;
  match parse_key_response key_response with
  | Ok rsa_params => ret rsa_params
  | Raise (KeyError _) =>
      if (current_number_of_repetitions <? maximal_number_of_repetitions)%nat
      then recurse (current_number_of_repetitions + 1)
      else raise (ValueError "Could not obtain rsa-key")
  | Raise ex => raise ex
  end.

(** The recursion, unrolled along [fuel]. *)
Fixpoint fetch_rsa_params_rec (fuel : nat) (current_number_of_repetitions : nat)
    : M RsaParams :=
  match fuel with
  | O => raise (Exception "maximum recursion depth exceeded")
  | S fuel' =>
      fetch_rsa_params_body (fetch_rsa_params_rec fuel')
                            current_number_of_repetitions
  end.

(** A call at repetition [k] recurses at most [5 - k] deep, so this fuel
    is never used up (lemma [_fetch_rsa_params_eq]). *)
Definition _fetch_rsa_params (current_number_of_repetitions : nat) : M RsaParams :=
  fetch_rsa_params_rec
    (S (maximal_number_of_repetitions - current_number_of_repetitions))
    current_number_of_repetitions.

Definition _encrypt_password (rsa_params : RsaParams) : M (list byte) :=
  fun self =>
    match Codec.utf8_encode (password self) with
    | Raise ex => (Raise ex, self)
    | Ok message =>
        let '(r, w) := Codec.rsa_encrypt (rsa_padding env) message
                         (rsa_key rsa_params) (world self) in
        (bind_result r (fun encrypted => Ok (Codec.b64encode encrypted)),
         after_call w [] self)
    end.

Definition _prepare_login_request_data (encrypted_password : list byte)
    (rsa_timestamp : value) : M value :=
  fun self =>
    let '(now, w) := time_ms env (world self) in
    (Ok (VDict (dict_literal
           [("password", VBytes encrypted_password);
            ("username", VStr (username self));
            ("twofactorcode", VStr (one_time_code self));
            ("emailauth", email_auth self);
            ("loginfriendlyname", VStr "krystal");
            ("loginfriendlyname", VStr "");
            ("captchagid", VStr "-1");
            ("captcha_text", VStr "");
            ("emailsteamid", VStr "");
            ("rsatimestamp", rsa_timestamp);
            ("remember_login", VStr "false");
            ("donotcache", VStr (str_of_int now))])),
     after_call w [] self).

Definition _send_login_request : M Response :=
  rsa_params <- _fetch_rsa_params 0 ;;
  encrypted_password <- _encrypt_password rsa_params ;;
  request_data <- _prepare_login_request_data encrypted_password
                    (rsa_timestamp rsa_params) ;;
  session_post (VStr (STORE_URL ++ "/login/dologin")) request_data.

Record CookieArgs : Type :=
  { name : string; value_ : option string; domain : string }.

Definition _create_session_id_cookie (sessionid : option string)
    (domain : string) : CookieArgs :=
  {| name := "sessionid"; value_ := sessionid; domain := domain |}.

Definition set_sessionid_cookies : M unit :=
  fun self =>
    match dict_get (CookieJar.get_dict (cookies self)) "sessionid" with
    | None => (Raise (KeyError "sessionid"), self)
    | Some sessionid =>
        let community_domain := slice_from 8 COMMUNITY_URL in
        let store_domain := slice_from 8 STORE_URL in
        let community_cookie := _create_session_id_cookie sessionid community_domain in
        let store_cookie := _create_session_id_cookie sessionid store_domain in
        let jar1 := CookieJar.set (cookies self) (name community_cookie)
                      (value_ community_cookie) (Some (domain community_cookie)) in
        let jar2 := CookieJar.set jar1 (name store_cookie)
                      (value_ store_cookie) (Some (domain store_cookie)) in
        (Ok tt, set_cookies jar2 self)
    end.

Definition _check_for_captcha (login_response : Response) : M unit :=
  body <- lift (json login_response) ;;
  captcha_needed <- lift (get_default body "captcha_needed" (VBool false)) ;;
  if truthy captcha_needed
  then raise (CaptchaRequired "Captcha required")
  else ret tt.

Definition _enter_steam_guard_if_necessary (login_response : Response)
    : M Response :=
  response <- lift (json login_response) ;;
  success <- lift (subscript response "success") ;;
  if truthy success then ret login_response
  else
    requires_twofactor <- lift (subscript response "requires_twofactor") ;;
    if truthy requires_twofactor then
      code <- call_generate_one_time_code ;;
      (fun self => (Ok tt, set_one_time_code code self)) ;;;
      _send_login_request
    else
      emailauth_needed <- lift (subscript response "emailauth_needed") ;;
      if truthy emailauth_needed then
        code <- call_email_callback ;;
        (fun self => (Ok tt, set_email_auth code self)) ;;;
        _send_login_request
      else ret login_response.

Definition _assert_valid_credentials (login_response : Response) : M unit :=
  body <- lift (json login_response) ;;
  success <- lift (subscript body "success") ;;
  if negb (truthy success) then
    body' <- lift (json login_response) ;;
    message <- lift (subscript body' "message") ;;
    raise (InvalidCredentials message)
  else ret tt.

Definition _save_steam_auth (login_response : Response) : M unit :=
  fun self =>
    (if saveCallback_callable self then
       body <- lift (json login_response) ;;
       transfer_parameters <- lift (subscript body "transfer_parameters") ;;
       call_saveCallback transfer_parameters
     else ret tt) self.

(** The loop [for url in ...: self.session.post(url, parameters)]. *)
Fixpoint post_each (urls : list value) (parameters : value) : M unit :=
  match urls with
  | [] => ret tt
  | url :: urls' =>
      session_post url parameters ;;;
      post_each urls' parameters
  end.

Definition _perform_redirects (response_dict : value) : M unit :=
  parameters <- lift (get_default response_dict "transfer_parameters" VNone) ;;
  match parameters with
  | VNone =>
      raise (Exception "Cannot perform redirects after login, no parameters fetched")
  | _ =>
      transfer_urls <- lift (subscript response_dict "transfer_urls") ;;
      urls <- lift (iterate transfer_urls) ;;
      post_each urls parameters
  end.

Definition login : M CookieJar.t :=
  _set_steamauth_cookies ;;;
  login_response <- _send_login_request ;;
  _check_for_captcha login_response ;;;
  login_response <- _enter_steam_guard_if_necessary login_response ;;
  _assert_valid_credentials login_response ;;;
  _save_steam_auth login_response ;;;
  response_dict <- lift (json login_response) ;;
  _perform_redirects response_dict ;;;
  set_sessionid_cookies ;;;
  (fun self => (Ok (cookies self), self)).

End Executor.

(** ** Observations on a run *)

(** The request sent to the key endpoint. *)
Definition key_post (user : string) : event :=
  EvPost (VStr (STORE_URL ++ "/login/getrsakey/"))
         (VDict [("username", VStr user)]).

(** A login request: a POST of a form [data] to the login endpoint. *)
Definition login_post (data : list (string * value)) : event :=
  EvPost (VStr (STORE_URL ++ "/login/dologin")) (VDict data).

(** The fields of the executor that only [__init__] writes. *)
Definition same_config {World} (a b : LoginExecutor World) : Prop :=
  username a = username b /\ password a = password b /\
  saveCallback_callable a = saveCallback_callable b /\
  steamAuth a = steamAuth b /\ shared_secret a = shared_secret b.

(** The two code fields sent with a login request. *)
Definition same_codes {World} (a b : LoginExecutor World) : Prop :=
  one_time_code a = one_time_code b /\ email_auth a = email_auth b.

(** The form of a login request: the two code fields are the current
    ones of the executor. *)
Definition login_form_of {World} (self : LoginExecutor World)
    (data : list (string * value)) : Prop :=
  dict_get data "username" = Some (VStr (username self)) /\
  dict_get data "twofactorcode" = Some (VStr (one_time_code self)) /\
  dict_get data "emailauth" = Some (email_auth self).

(** The first four steps of [login]: up to the response that
    [_enter_steam_guard_if_necessary] returns, the final one. *)
Definition final_login_response {World} (env : Environment World)
    : M (World:=World) Response :=
  bind (_set_steamauth_cookies (World:=World)) (fun _ =>
  bind (_send_login_request env) (fun login_response =>
  bind (_check_for_captcha login_response) (fun _ =>
  _enter_steam_guard_if_necessary env login_response))).

(** The remaining steps of [login], on the final response. *)
Definition finish_login {World} (env : Environment World)
    (login_response : Response) : M (World:=World) CookieJar.t :=
  bind (_assert_valid_credentials login_response) (fun _ =>
  bind (_save_steam_auth env login_response) (fun _ =>
  bind (lift (json login_response)) (fun response_dict =>
  bind (_perform_redirects env response_dict) (fun _ =>
  bind (set_sessionid_cookies (World:=World)) (fun _ =>
  fun self => (Ok (cookies self), self)))))).

(** The JSON object [body] has the field [k], with truth value [b]. *)
Definition field_is (body : value) (k : string) (b : bool) : Prop :=
  exists v, subscript body k = Ok v /\ truthy v = b.

Definition is_email_callback (ev : event) : bool :=
  match ev with EvEmailCallback => true | _ => false end.

(** How many times the email callback was invoked. *)
Definition email_callbacks (t : list event) : nat :=
  List.length (filter is_email_callback t).

Definition is_login_post (ev : event) : bool :=
  match ev with
  | EvPost (VStr url) _ => String.eqb url (STORE_URL ++ "/login/dologin")
  | _ => false
  end.

(** How many POSTs went to the login endpoint. *)
Definition login_posts (t : list event) : nat :=
  List.length (filter is_login_post t).

(** The JSON object [body] has no field [k]. *)
Definition field_absent (body : value) (k : string) : Prop :=
  exists d, body = VDict d /\ dict_get d k = None.

(** The response asks for a captcha, as [_check_for_captcha] reads it. *)
Definition captcha_signaled (body : value) : Prop :=
  exists c, get_default body "captcha_needed" (VBool false) = Ok c /\
            truthy c = true.

(** The response reports success: it has a true [success] field. *)
Definition reports_success (r : Response) : bool :=
  match json r with
  | Ok body => match subscript body "success" with
               | Ok v => truthy v
               | Raise _ => false
               end
  | Raise _ => false
  end.

Definition redirect_error : exn :=
  Exception "Cannot perform redirects after login, no parameters fetched".

(** A key response lacks a required field. *)
Definition lacks_required_field (d : list (string * value)) : Prop :=
  dict_get d "publickey_mod" = None \/ dict_get d "publickey_exp" = None \/
  dict_get d "timestamp" = None.

(** The modulus and the exponent, where present, are hexadecimal
    numerals, as the key endpoint sends them. *)
Definition hex_fields_parse {World} (env : Environment World)
    (d : list (string * value)) : Prop :=
  forall k v, k = "publickey_mod" \/ k = "publickey_exp" ->
    dict_get d k = Some v ->
    exists s z, v = VStr s /\ int_of_hex env s = Some z.

(** The next [j] answers of the key endpoint are JSON objects that lack
    a required field. *)
Fixpoint keys_lacking {World} (env : Environment World) (j : nat)
    (self : LoginExecutor World) : Prop :=
  match j with
  | O => True
  | S j' =>
      exists d self1,
        request_rsa_key env self = (Ok (VDict d), self1) /\
        hex_fields_parse env d /\ lacks_required_field d /\
        keys_lacking env j' self1
  end.

(** ** The constructor, and further observations *)

(** [LoginExecutor.__init__]: the two code fields start empty.  The
    callbacks live in the environment; the session is its jar and the
    world behind it, and the log of calls starts empty. *)
Definition __init__ {World} (username : string) (password : list N)
    (shared_secret : string) (saveCallback_callable : bool)
    (steamAuth : dict (option string)) (jar : CookieJar.t) (w : World)
    : LoginExecutor World :=
  {| username := username; password := password;
     one_time_code := ""; email_auth := VStr "";
     saveCallback_callable := saveCallback_callable;
     steamAuth := steamAuth; shared_secret := shared_secret;
     cookies := jar; world := w; trace := [] |}.

(** The executor once the next [j] answers of the key endpoint are in. *)
Fixpoint after_key_answers {World} (env : Environment World) (j : nat)
    (self : LoginExecutor World) : LoginExecutor World :=
  match j with
  | O => self
  | S j' => after_key_answers env j' (snd (request_rsa_key env self))
  end.

Definition is_post (ev : event) : bool :=
  match ev with EvPost _ _ => true | _ => false end.

(** The calls of a log that are not HTTP requests: code generator, email
    callback, save callback. *)
Definition collaborator_calls (t : list event) : list event :=
  filter (fun ev => negb (is_post ev)) t.



(** The executor once the code generator has returned [code], leaving the
    world as [w]: the call is logged and the code stored. *)
Definition after_code_generation {World} (code : string) (w : World)
    (self : LoginExecutor World) : LoginExecutor World :=
  set_one_time_code code
    (after_call w [EvGenerateCode (shared_secret self)] self).

(** The executor once the email callback has returned [code]. *)
Definition after_email_callback {World} (code : value) (w : World)
    (self : LoginExecutor World) : LoginExecutor World :=
  set_email_auth code (after_call w [EvEmailCallback] self).

(** The eleven fields of the login form, in the order they are sent. *)
Definition login_form (user : string) (encrypted_password : list byte)
    (twofactorcode : string) (emailauth rsa_timestamp : value) (now : Z)
    : list (string * value) :=
  [("password", VBytes encrypted_password);
   ("username", VStr user);
   ("twofactorcode", VStr twofactorcode);
   ("emailauth", emailauth);
   ("loginfriendlyname", VStr "");
   ("captchagid", VStr "-1");
   ("captcha_text", VStr "");
   ("emailsteamid", VStr "");
   ("rsatimestamp", rsa_timestamp);
   ("remember_login", VStr "false");
   ("donotcache", VStr (str_of_int now))].

(** The value of the last cookie named [k] in a list of cookies. *)
Fixpoint last_named {V} (k : string) (l : list (string * V)) : option V :=
  match l with
  | [] => None
  | c :: l' =>
      match last_named k l' with
      | Some v => Some v
      | None => if String.eqb (fst c) k then Some (snd c) else None
      end
  end.

(** [l'] is [l] where cookies named [k] may have got the value [v] and
    cookies [(k, v)] may have been added; the others keep place and value. *)
Inductive refreshed {V} (k : string) (v : V)
    : list (string * V) -> list (string * V) -> Prop :=
| refreshed_nil : refreshed k v [] []
| refreshed_keep c l l' : refreshed k v l l' -> refreshed k v (c :: l) (c :: l')
| refreshed_replace old l l' :
    refreshed k v l l' -> refreshed k v ((k, old) :: l) ((k, v) :: l')
| refreshed_insert l l' : refreshed k v l l' -> refreshed k v l ((k, v) :: l').

(** ** A scripted environment, for running the executor

    The server answers the successive POSTs with the responses of a fixed
    list and then stops answering; the other collaborators return fixed
    values. *)

Module Script.

Definition hex_digit (c : ascii) : option Z :=
  let k := Z.of_N (N_of_ascii c) in
  if ((48 <=? k) && (k <=? 57))%Z then Some (k - 48)%Z
  else if ((97 <=? k) && (k <=? 102))%Z then Some (k - 87)%Z
  else if ((65 <=? k) && (k <=? 70))%Z then Some (k - 55)%Z
  else None.

Fixpoint hex_digits (acc : Z) (s : string) : option Z :=
  match s with
  | EmptyString => Some acc
  | String c s' =>
      match hex_digit c with
      | Some d => hex_digits (acc * 16 + d)%Z s'
      | None => None
      end
  end.

(** Plain hexadecimal numerals, which is what the key endpoint sends. *)
Definition parse_hex (s : string) : option Z :=
  match s with
  | EmptyString => None
  | _ => hex_digits 0 s
  end.

Definition World : Type := list Response.

Definition env : Environment World :=
  {| http_post := fun _ _ jar w =>
       match w with
       | [] => (Raise (ExternalError "ConnectionError"), jar, [])
       | r :: w' => (Ok r, jar, w')
       end;
     time_ms := fun w => (1500000000000%Z, w);
     rsa_padding := fun len w => (repeat xff len, w);
     generate_one_time_code := fun _ w => (Ok "ABC12", w);
     auth_callback := fun w => (Ok (VStr "EMAIL"), w);
     save_callback := fun _ w => (Ok tt, w);
     int_of_hex := parse_hex |}.

Definition body (d : list (string * value)) : Response :=
  {| json := Ok (VDict d) |}.

(** A complete answer of the key endpoint: a 128-bit modulus. *)
Definition key_ok : Response :=
  body [("success", VBool true);
        ("publickey_mod", VStr "7f4fc5cccf87af677d5b31c0163c7013");
        ("publickey_exp", VStr "03");
        ("timestamp", VStr "288093600000")].

(** The key of [key_ok], as [_fetch_rsa_params] returns it, and the
    private exponent that belongs to it. *)
Definition rsa_params : RsaParams :=
  {| rsa_key := {| n := 169226158777973069872284206680390791187%Z; e := 3 |};
     rsa_timestamp := VStr "288093600000" |}.

Definition private_exponent : Z := 28204359796328844974212642843539186323%Z.

(** An answer of the key endpoint without the modulus. *)
Definition key_without_mod : Response :=
  body [("success", VBool false)].

(** Login answers. *)
Definition needs_twofactor : Response :=
  body [("success", VBool false); ("requires_twofactor", VBool true);
        ("emailauth_needed", VBool false); ("message", VStr "")].

Definition needs_emailauth : Response :=
  body [("success", VBool false); ("requires_twofactor", VBool false);
        ("emailauth_needed", VBool true); ("message", VStr "")].

Definition transfer_parameters : value :=
  VDict [("steamid", VStr "76561197960287930"); ("token_secure", VStr "A1B2")].

Definition transfer_urls : list value :=
  [VStr "https://steamcommunity.com/login/transfer";
   VStr "https://help.steampowered.com/login/transfer"].

Definition logged_in : Response :=
  body [("success", VBool true);
        ("transfer_parameters", transfer_parameters);
        ("transfer_urls", VList transfer_urls)].

Definition executor (callable : bool) (auth : dict (option string))
    (script : World)
    : LoginExecutor World :=
  {| username := "user"; password := [112; 119]%N;
     one_time_code := ""; email_auth := VStr "";
     saveCallback_callable := callable;
     steamAuth := auth; shared_secret := "c2VjcmV0";
     cookies := []; world := script; trace := [] |}.

Definition success_without_parameters : Response :=
  body [("success", VBool true)].

Definition wrong_password : Response :=
  body [("success", VBool false); ("requires_twofactor", VBool false);
        ("emailauth_needed", VBool false); ("message", VStr "bad pw")].

(** A successful answer that also asks for a captcha. *)
Definition logged_in_with_captcha : Response :=
  body [("success", VBool true); ("captcha_needed", VBool true);
        ("transfer_parameters", transfer_parameters);
        ("transfer_urls", VList transfer_urls)].

Definition captcha : Response := body [("captcha_needed", VBool true)].


(** The server asks for the two-factor code, then logs in. *)
Definition run_two_factor : LoginExecutor World :=
  executor true [("sessionid", Some "5e55")]
    [key_ok; needs_twofactor; key_ok; logged_in; body []; body []].

(** A second request for the two-factor code, told apart from the first
    by its message. *)
Definition needs_twofactor_again : Response :=
  body [("success", VBool false); ("requires_twofactor", VBool true);
        ("emailauth_needed", VBool false); ("message", VStr "again")].

(** The server keeps asking for the two-factor code; it would log in on
    the third request. *)
Definition run_two_factor_twice : LoginExecutor World :=
  executor false [("sessionid", Some "5e55")]
    [key_ok; needs_twofactor; key_ok; needs_twofactor_again; key_ok; logged_in].

(** The same with the email code. *)
Definition needs_emailauth_again : Response :=
  body [("success", VBool false); ("requires_twofactor", VBool false);
        ("emailauth_needed", VBool true); ("message", VStr "again")].

Definition run_emailauth_twice : LoginExecutor World :=
  executor false [("sessionid", Some "5e55")]
    [key_ok; needs_emailauth; key_ok; needs_emailauth_again; key_ok; logged_in].



(** The answer to the resubmitted request asks for a captcha. *)
Definition run_captcha_second : LoginExecutor World :=
  executor false [("sessionid", Some "5e55")]
    [key_ok; needs_twofactor; key_ok; logged_in_with_captcha; body []; body []].

Definition run_captcha_first : LoginExecutor World :=
  executor false [] [key_ok; captcha; key_ok; logged_in].

Definition run_wrong_password : LoginExecutor World :=
  executor false [] [key_ok; wrong_password].

(** Success without transfer parameters, with and without save callback. *)
Definition run_without_parameters (callable : bool) : LoginExecutor World :=
  executor callable [("sessionid", Some "5e55")] [key_ok; success_without_parameters].

(** An answer of the key endpoint whose modulus is not a numeral. *)
Definition key_malformed : Response :=
  body [("publickey_mod", VStr "zz")].

(** Two answers without modulus, then a complete one. *)
Definition run_key_third : LoginExecutor World :=
  executor false [] [key_without_mod; key_without_mod; key_ok].

Definition run_key_malformed : LoginExecutor World :=
  executor false [] [key_malformed; key_ok].

Definition run_plain : LoginExecutor World :=
  executor true [("sessionid", Some "5e55")] [key_ok; logged_in; body []; body []].

(** Success with null transfer parameters, and without transfer URLs. *)
Definition success_null_parameters : Response :=
  body [("success", VBool true); ("transfer_parameters", VNone);
        ("transfer_urls", VList transfer_urls)].

Definition success_without_urls : Response :=
  body [("success", VBool true); ("transfer_parameters", transfer_parameters)].

(** A failure that asks for an email code but omits [requires_twofactor]. *)
Definition failure_without_flags : Response :=
  body [("success", VBool false); ("emailauth_needed", VBool true);
        ("message", VStr "")].

Definition run_null_parameters : LoginExecutor World :=
  executor true [("sessionid", Some "5e55")] [key_ok; success_null_parameters].

Definition run_without_urls : LoginExecutor World :=
  executor true [("sessionid", Some "5e55")] [key_ok; success_without_urls].

Definition run_without_flags : LoginExecutor World :=
  executor false [] [key_ok; failure_without_flags].

(** A key of one byte. *)
Definition short_rsa_params : RsaParams :=
  {| rsa_key := {| n := 251%Z; e := 3 |}; rsa_timestamp := VStr "0" |}.

(** A jar with a sessionid cookie on a third domain. *)
Definition jar_with_sessionid : CookieJar.t :=
  [("help.steampowered.com",
    [("/", [("sessionid", Some "5e55"); ("lang", Some "en")])])].

(** The same, the sessionid cookie having no value. *)
Definition jar_with_valueless_sessionid : CookieJar.t :=
  [("help.steampowered.com", [("/", [("sessionid", None); ("lang", Some "en")])])].

(** The same, the sessionid cookie holding a quoted value. *)
Definition quoted_value : string :=
  String CookieJar.quote
    (String "a" (String CookieJar.backslash (String CookieJar.quote
       (String "b" (String CookieJar.quote EmptyString))))).

Definition jar_with_quoted_sessionid : CookieJar.t :=
  [("help.steampowered.com", [("/", [("sessionid", Some quoted_value)])])].

Definition run_quoted_jar : LoginExecutor World :=
  __init__ "user" [112; 119]%N "c2VjcmV0" false []
    jar_with_quoted_sessionid [key_ok; logged_in; body []; body []].

Definition run_valueless_sessionid : LoginExecutor World :=
  __init__ "user" [112; 119]%N "c2VjcmV0" false []
    jar_with_valueless_sessionid [key_ok; logged_in; body []; body []].

(** [quoted_value] is a value in double quotes with an escaped quote
    inside: the six characters quote, a, backslash, quote, b, quote.  What
    the jar keeps of it: quote, a, b, quote. *)
Definition unescaped_value : string :=
  String CookieJar.quote (String "a" (String "b" (String CookieJar.quote EmptyString))).

Definition run_quoted_sessionid : LoginExecutor World :=
  executor false [("sessionid", Some quoted_value); ("stale", None)]
    [key_ok; logged_in; body []; body []].

(** The key of [key_ok] with the exponent -3. *)
Definition inverse_rsa_params : RsaParams :=
  {| rsa_key := {| n := 169226158777973069872284206680390791187%Z; e := -3 |};
     rsa_timestamp := VStr "288093600000" |}.

(** An environment whose world is the stream of bytes the random source
    will give: the padding is made of its first nonzero bytes (of the byte
    1 when the stream runs out).  Nothing else answers. *)
Definition nonzero (b : byte) : bool := negb (Byte.eqb b x00).

Definition env_urandom : Environment (list byte) :=
  {| http_post := fun _ _ jar w => (Raise (ExternalError "ConnectionError"), jar, w);
     time_ms := fun w => (1500000000000%Z, w);
     rsa_padding := fun len w =>
       let drawn := firstn len (filter nonzero w) in
       ((drawn ++ repeat x01 (len - List.length drawn))%list, skipn len w);
     generate_one_time_code := fun _ w => (Raise (ExternalError "guard"), w);
     auth_callback := fun w => (Raise (ExternalError "callback"), w);
     save_callback := fun _ w => (Raise (ExternalError "callback"), w);
     int_of_hex := parse_hex |}.

Definition urandom_executor (random : list byte) : LoginExecutor (list byte) :=
  __init__ "user" [112; 119]%N "c2VjcmV0" false [] [] random.

Definition executor_with_jar : LoginExecutor World :=
  __init__ "user" [112; 119]%N "c2VjcmV0" false [] jar_with_sessionid [].

End Script.

(** * Properties *)

(** ** Bytes and base64 *)

Module CodecFacts.
Import Codec.
Local Open Scope Z_scope.
Local Open Scope list_scope.

Lemma Z_of_byte_range b : 0 <= Z_of_byte b < 256.
Proof.
  unfold Z_of_byte. pose proof (Byte.to_N_bounded b). lia.
Qed.

Lemma byte_of_Z_of_byte b : byte_of_Z (Z_of_byte b) = b.
Proof.
  unfold byte_of_Z. rewrite Z.mod_small by apply Z_of_byte_range.
  unfold Z_of_byte. now rewrite N2Z.id, Byte.of_to_N.
Qed.

Lemma Z_of_byte_of_Z z : 0 <= z < 256 -> Z_of_byte (byte_of_Z z) = z.
Proof.
  intros Hz. unfold byte_of_Z. rewrite Z.mod_small by assumption.
  destruct (Byte.of_N (Z.to_N z)) as [b|] eqn:E.
  - apply Byte.to_of_N in E. unfold Z_of_byte. rewrite E. lia.
  - apply Byte.of_N_None_iff in E. lia.
Qed.

Lemma Z_of_byte_inj a b : Z_of_byte a = Z_of_byte b -> a = b.
Proof.
  intros H. rewrite <- (byte_of_Z_of_byte a), <- (byte_of_Z_of_byte b).
  now rewrite H.
Qed.

(** Every index has its own character, which is not the padding. *)
Lemma b64_index_char i :
  0 <= i < 64 ->
  b64_index (b64_char i) = Some i /\ Byte.eqb (b64_char i) b64_pad = false.
Proof.
  intros Hi. rewrite <- (Z2Nat.id i) by lia.
  assert (Hn : (Z.to_nat i < 64)%nat) by lia.
  generalize dependent (Z.to_nat i). clear i Hi. intros k Hk.
  do 64 (destruct k as [|k]; [vm_compute; split; reflexivity|]).
  lia.
Qed.

(** Lists, three elements at a time. *)
Lemma list_ind3 {A} (P : list A -> Prop) :
  P [] -> (forall a, P [a]) -> (forall a b, P [a; b]) ->
  (forall a b c rest, P rest -> P (a :: b :: c :: rest)) ->
  forall l, P l.
Proof.
  intros H0 H1 H2 H3.
  fix IH 1.
  intros [|a [|b [|c rest]]];
    [exact H0 | apply H1 | apply H2 | apply H3, IH].
Qed.

Lemma b64_index_of_char i : 0 <= i < 64 -> b64_index (b64_char i) = Some i.
Proof. intros Hi. now apply b64_index_char. Qed.

Lemma b64_char_not_pad i : 0 <= i < 64 -> Byte.eqb (b64_char i) b64_pad = false.
Proof. intros Hi. now apply b64_index_char. Qed.

Ltac b64_indices :=
  repeat match goal with
         | |- context [b64_index (b64_char ?i)] =>
             rewrite (@b64_index_of_char i) by (Z.div_mod_to_equations; lia)
         | |- context [Byte.eqb (b64_char ?i) b64_pad] =>
             rewrite (@b64_char_not_pad i) by (Z.div_mod_to_equations; lia)
         end.

Ltac byte_eq :=
  match goal with
  | |- byte_of_Z _ = ?a =>
      transitivity (byte_of_Z (Z_of_byte a));
      [f_equal; Z.div_mod_to_equations; lia | apply byte_of_Z_of_byte]
  end.

Lemma b64decode_b64encode bs : b64decode (b64encode bs) = Some bs.
Proof.
  induction bs as [|a|a b|a b c rest IH] using list_ind3.
  - reflexivity.
  - pose proof (Z_of_byte_range a) as Ha.
    cbn [b64encode b64decode]. b64_indices.
    change (Byte.eqb b64_pad b64_pad) with true. cbn iota.
    repeat f_equal. byte_eq.
  - pose proof (Z_of_byte_range a) as Ha.
    pose proof (Z_of_byte_range b) as Hb.
    cbn [b64encode b64decode]. b64_indices.
    change (Byte.eqb b64_pad b64_pad) with true. cbn iota. b64_indices.
    repeat f_equal; byte_eq.
  - pose proof (Z_of_byte_range a) as Ha.
    pose proof (Z_of_byte_range b) as Hb.
    pose proof (Z_of_byte_range c) as Hc.
    cbn [b64encode b64decode]. b64_indices. rewrite IH.
    repeat f_equal; byte_eq.
Qed.

(** ** Big-endian numbers *)

Lemma bytes2int_fold bs : forall acc,
  fold_left (fun acc b => acc * 256 + Z_of_byte b) bs acc
  = acc * 256 ^ Z.of_nat (List.length bs) + bytes2int bs.
Proof.
  unfold bytes2int.
  induction bs as [|b bs IH]; intros acc.
  - simpl. lia.
  - cbn [fold_left List.length]. rewrite IH, (IH (0 * 256 + Z_of_byte b)).
    rewrite Nat2Z.inj_succ, Z.pow_succ_r by lia. ring.
Qed.

Lemma bytes2int_cons b bs :
  bytes2int (b :: bs)
  = Z_of_byte b * 256 ^ Z.of_nat (List.length bs) + bytes2int bs.
Proof.
  unfold bytes2int at 1. cbn [fold_left]. rewrite bytes2int_fold. ring.
Qed.

Lemma bytes2int_range bs :
  0 <= bytes2int bs < 256 ^ Z.of_nat (List.length bs).
Proof.
  induction bs as [|b bs IH].
  - vm_compute. split; [discriminate | reflexivity].
  - rewrite bytes2int_cons. cbn [List.length].
    rewrite Nat2Z.inj_succ, Z.pow_succ_r by lia.
    pose proof (Z_of_byte_range b). nia.
Qed.

(** Byte strings of one length are equal when their numbers are. *)
Lemma bytes2int_inj : forall a b,
  List.length a = List.length b -> bytes2int a = bytes2int b -> a = b.
Proof.
  induction a as [|x a IH]; intros [|y b] Hlen Heq; try discriminate.
  - reflexivity.
  - injection Hlen as Hlen. rewrite !bytes2int_cons, Hlen in Heq.
    pose proof (bytes2int_range a) as Ha. rewrite Hlen in Ha.
    pose proof (bytes2int_range b) as Hb.
    pose proof (Z_of_byte_range x) as Hx.
    pose proof (Z_of_byte_range y) as Hy.
    assert (Hxy : Z_of_byte x = Z_of_byte y) by nia.
    rewrite Hxy in Heq.
    f_equal; [now apply Z_of_byte_inj | apply IH; [assumption | lia]].
Qed.

Lemma int2bytes_aux_spec len : forall z acc,
  List.length (int2bytes_aux len z acc) = (len + List.length acc)%nat /\
  bytes2int (int2bytes_aux len z acc)
  = (z mod 256 ^ Z.of_nat len) * 256 ^ Z.of_nat (List.length acc)
    + bytes2int acc.
Proof.
  induction len as [|len IH]; intros z acc.
  - simpl. rewrite Z.mod_1_r. split; [reflexivity | lia].
  - cbn [int2bytes_aux]. destruct (IH (z / 256) (byte_of_Z z :: acc)) as [Hl Hv].
    split; [rewrite Hl; simpl; lia|].
    rewrite Hv, bytes2int_cons. cbn [List.length].
    rewrite !Nat2Z.inj_succ, !Z.pow_succ_r by lia.
    rewrite (Z.rem_mul_r z 256 (256 ^ Z.of_nat len)) by lia.
    unfold byte_of_Z at 1.
    assert (Hb : Z_of_byte (byte_of_Z z) = z mod 256).
    { unfold byte_of_Z.
      pose proof (Z.mod_pos_bound z 256 ltac:(lia)) as Hm.
      destruct (Byte.of_N (Z.to_N (z mod 256))) as [b|] eqn:E.
      - apply Byte.to_of_N in E. unfold Z_of_byte. rewrite E. lia.
      - apply Byte.of_N_None_iff in E. lia. }
    fold (byte_of_Z z). rewrite Hb. ring.
Qed.

Lemma int2bytes_ok z k :
  0 <= z < 256 ^ Z.of_nat k ->
  exists bs, int2bytes z k = Ok bs /\ List.length bs = k /\ bytes2int bs = z.
Proof.
  intros Hz. unfold int2bytes.
  destruct (Z.leb_spec 0 z); [|lia].
  destruct (Z.ltb_spec z (256 ^ Z.of_nat k)); [|lia]. cbn [andb].
  destruct (int2bytes_aux_spec k z []) as [Hl Hv].
  eexists. split; [reflexivity|]. split.
  - rewrite Hl. simpl. lia.
  - rewrite Hv. rewrite Z.mod_small by assumption.
    change (bytes2int []) with 0. simpl. lia.
Qed.

(** Writing out the number of a byte string gives the string back. *)
Lemma int2bytes_bytes2int bs :
  int2bytes (bytes2int bs) (List.length bs) = Ok bs.
Proof.
  destruct (int2bytes_ok (List.length bs) (bytes2int_range bs))
    as (bs' & -> & Hl & Hv).
  f_equal. now apply bytes2int_inj.
Qed.

(** A positive modulus fills its [byte_size] bytes. *)
Lemma byte_size_bounds m :
  0 < m ->
  (1 <= byte_size m)%nat /\
  256 ^ (Z.of_nat (byte_size m) - 1) <= m < 256 ^ Z.of_nat (byte_size m).
Proof.
  intros Hm. unfold byte_size.
  destruct (Z.eqb_spec m 0); [lia|].
  rewrite Z.abs_eq by lia.
  pose proof (Z.log2_nonneg m) as Hl.
  destruct (Z.log2_spec m Hm) as [Hlo Hhi].
  set (q := (Z.log2 m + 1 + 7) / 8).
  assert (Hq : 8 * q <= Z.log2 m + 8 < 8 * q + 8)
    by (unfold q; Z.div_mod_to_equations; lia).
  rewrite Z2Nat.id by lia.
  change 256 with (2 ^ 8). rewrite <- !Z.pow_mul_r by lia.
  split; [lia|]. split.
  - eapply Z.le_trans; [|exact Hlo]. apply Z.pow_le_mono_r; lia.
  - eapply Z.lt_le_trans; [exact Hhi|]. apply Z.pow_le_mono_r; lia.
Qed.

(** ** The encryption block *)

Lemma split_at_zero_padding PS message : forall count,
  Forall (fun b => b <> x00) PS ->
  split_at_zero (PS ++ x00 :: message) count
  = Some ((count + List.length PS)%nat, message).
Proof.
  induction PS as [|b PS IH]; intros count Hnz.
  - simpl. now rewrite Nat.add_0_r.
  - inversion Hnz as [|? ? Hb Hrest]; subst. cbn [app split_at_zero].
    destruct (Byte.eqb b x00) eqn:E;
      [apply Byte.byte_dec_bl in E; contradiction|].
    rewrite IH by assumption. cbn [List.length]. do 2 f_equal. lia.
Qed.

Lemma unpad_block_padded PS message :
  Forall (fun b => b <> x00) PS -> (8 <= List.length PS)%nat ->
  unpad_block ([x00; x02] ++ PS ++ [x00] ++ message) = Some message.
Proof.
  intros Hnz Hlen. cbn [app unpad_block].
  change (Byte.eqb x00 x00 && Byte.eqb x02 x02) with true. cbn iota.
  rewrite split_at_zero_padding by assumption.
  rewrite Nat.add_0_l.
  destruct (Nat.leb_spec 8 (List.length PS)); [reflexivity | lia].
Qed.

(** ** UTF-8 *)

Lemma continuation_byte y :
  128 <= y < 192 -> continuation (byte_of_Z y) = Some (y - 128).
Proof.
  intros Hy. unfold continuation. rewrite Z_of_byte_of_Z by lia.
  destruct (Z.leb_spec 128 y); [|lia].
  destruct (Z.ltb_spec y 192); [reflexivity | lia].
Qed.

Lemma utf8_decode_1 x rest :
  0 <= x < 128 ->
  utf8_decode (byte_of_Z x :: rest)
  = option_map (cons (Z.to_N x)) (utf8_decode rest).
Proof.
  intros Hx. cbn [utf8_decode]. rewrite Z_of_byte_of_Z by lia.
  destruct (Z.ltb_spec x 128); [reflexivity | lia].
Qed.

Lemma utf8_decode_2 x y rest :
  194 <= x < 224 -> 128 <= y < 192 ->
  utf8_decode (byte_of_Z x :: byte_of_Z y :: rest)
  = option_map (cons (Z.to_N ((x - 192) * 64 + (y - 128)))) (utf8_decode rest).
Proof.
  intros Hx Hy. cbn [utf8_decode]. rewrite continuation_byte by assumption.
  rewrite Z_of_byte_of_Z by lia.
  destruct (Z.ltb_spec x 128); [lia|].
  destruct (Z.ltb_spec x 194); [lia|].
  destruct (Z.ltb_spec x 224); [reflexivity | lia].
Qed.

Lemma utf8_decode_3 x y z rest :
  224 <= x < 240 -> 128 <= y < 192 -> 128 <= z < 192 ->
  utf8_decode (byte_of_Z x :: byte_of_Z y :: byte_of_Z z :: rest)
  = (let c := (x - 224) * 4096 + (y - 128) * 64 + (z - 128) in
     if (c <? 2048) || ((55296 <=? c) && (c <=? 57343)) then None
     else option_map (cons (Z.to_N c)) (utf8_decode rest)).
Proof.
  intros Hx Hy Hz. cbn [utf8_decode]. rewrite !continuation_byte by assumption.
  rewrite Z_of_byte_of_Z by lia.
  destruct (Z.ltb_spec x 128); [lia|].
  destruct (Z.ltb_spec x 194); [lia|].
  destruct (Z.ltb_spec x 224); [lia|].
  destruct (Z.ltb_spec x 240); [reflexivity | lia].
Qed.

Lemma utf8_decode_4 x y z u rest :
  240 <= x < 245 -> 128 <= y < 192 -> 128 <= z < 192 -> 128 <= u < 192 ->
  utf8_decode (byte_of_Z x :: byte_of_Z y :: byte_of_Z z :: byte_of_Z u :: rest)
  = (let c := (x - 240) * 262144 + (y - 128) * 4096 + (z - 128) * 64 + (u - 128) in
     if (c <? 65536) || (1114111 <? c) then None
     else option_map (cons (Z.to_N c)) (utf8_decode rest)).
Proof.
  intros Hx Hy Hz Hu. cbn [utf8_decode].
  rewrite !continuation_byte by assumption.
  rewrite Z_of_byte_of_Z by lia.
  destruct (Z.ltb_spec x 128); [lia|].
  destruct (Z.ltb_spec x 194); [lia|].
  destruct (Z.ltb_spec x 224); [lia|].
  destruct (Z.ltb_spec x 240); [lia|].
  destruct (Z.ltb_spec x 245); [reflexivity | lia].
Qed.

Lemma Ok_inj {A} (a b : A) : Ok a = Ok b -> a = b.
Proof. now inversion 1. Qed.

(** Decoding what [encode] produced gives the code points back: the
    bytes are the UTF-8 form of the string and of nothing else. *)
Lemma utf8_decode_encode_char c bs rest decoded :
  utf8_encode_char c = Ok bs ->
  utf8_decode rest = Some decoded ->
  utf8_decode (bs ++ rest) = Some (c :: decoded).
Proof.
  unfold utf8_encode_char. intros Henc Hrest.
  pose proof (N2Z.is_nonneg c) as Hc.
  rewrite <- (N2Z.id c). cbv zeta in Henc.
  generalize dependent (Z.of_N c). intros z Henc Hc.
  destruct (Z.ltb_spec z 128) as [H1|H1].
  { apply Ok_inj in Henc; subst bs. change ([byte_of_Z z] ++ rest) with (byte_of_Z z :: rest).
    rewrite utf8_decode_1 by lia. now rewrite Hrest. }
  destruct (Z.ltb_spec z 2048) as [H2|H2].
  { apply Ok_inj in Henc; subst bs.
    change ([byte_of_Z (192 + z / 64); byte_of_Z (128 + z mod 64)] ++ rest)
      with (byte_of_Z (192 + z / 64) :: byte_of_Z (128 + z mod 64) :: rest).
    rewrite utf8_decode_2 by (Z.div_mod_to_equations; lia).
    rewrite Hrest. cbn [option_map]. do 3 f_equal.
    Z.div_mod_to_equations; lia. }
  destruct (Z.ltb_spec z 65536) as [H3|H3].
  { destruct ((55296 <=? z) && (z <=? 57343)) eqn:Hs; [discriminate|].
    apply Ok_inj in Henc; subst bs.
    change ([byte_of_Z (224 + z / 4096); byte_of_Z (128 + (z / 64) mod 64);
             byte_of_Z (128 + z mod 64)] ++ rest)
      with (byte_of_Z (224 + z / 4096) :: byte_of_Z (128 + (z / 64) mod 64)
              :: byte_of_Z (128 + z mod 64) :: rest).
    rewrite utf8_decode_3 by (Z.div_mod_to_equations; lia).
    cbv zeta.
    replace ((224 + z / 4096 - 224) * 4096 + (128 + (z / 64) mod 64 - 128) * 64
             + (128 + z mod 64 - 128)) with z
      by (Z.div_mod_to_equations; lia).
    rewrite Hs. destruct (Z.ltb_spec z 2048); [lia|].
    cbn [orb]. now rewrite Hrest. }
  destruct (Z.ltb_spec z 1114112) as [H4|H4]; [|discriminate].
  apply Ok_inj in Henc; subst bs.
  change ([byte_of_Z (240 + z / 262144); byte_of_Z (128 + (z / 4096) mod 64);
           byte_of_Z (128 + (z / 64) mod 64); byte_of_Z (128 + z mod 64)] ++ rest)
    with (byte_of_Z (240 + z / 262144) :: byte_of_Z (128 + (z / 4096) mod 64)
            :: byte_of_Z (128 + (z / 64) mod 64)
            :: byte_of_Z (128 + z mod 64) :: rest).
  rewrite utf8_decode_4 by (Z.div_mod_to_equations; lia).
  cbv zeta.
  replace ((240 + z / 262144 - 240) * 262144
           + (128 + (z / 4096) mod 64 - 128) * 4096
           + (128 + (z / 64) mod 64 - 128) * 64 + (128 + z mod 64 - 128)) with z
    by (Z.div_mod_to_equations; lia).
  destruct (Z.ltb_spec z 65536); [lia|].
  destruct (Z.ltb_spec 1114111 z); [lia|].
  cbn [orb]. now rewrite Hrest.
Qed.

Lemma utf8_decode_encode s : forall bs,
  utf8_encode s = Ok bs -> utf8_decode bs = Some s.
Proof.
  induction s as [|c s IH]; intros bs H; cbn [utf8_encode] in H.
  - now inversion H.
  - unfold bind_result in H.
    destruct (utf8_encode_char c) as [first|ex] eqn:Hc; [|discriminate].
    destruct (utf8_encode s) as [rest|ex]; [|discriminate].
    inversion H; subst bs.
    now apply utf8_decode_encode_char; [|apply IH].
Qed.

(** ** RSA encryption *)

(** What [pow] returns is the modular power; a negative exponent needs a
    base coprime to the modulus. *)
Lemma pow_mod_spec m ex modulus c :
  pow_mod m ex modulus = Ok c -> 0 <= modulus ->
  0 < modulus /\ power_modulo m ex modulus c /\
  (ex < 0 -> Z.gcd m modulus = 1).
Proof.
  unfold pow_mod, power_modulo. intros H Hm.
  destruct (Z.eqb_spec modulus 0) as [|Hnz]; [discriminate|].
  assert (Hpos : 0 < modulus) by lia.
  split; [assumption|].
  destruct (Z.ltb_spec ex 0) as [Hneg|Hnn].
  - destruct (Z.eqb_spec (Z.gcd m modulus) 1) as [Hg|]; [|discriminate].
    inversion H; subst c. split; [|auto].
    split; [apply Z.mod_pos_bound; assumption|].
    destruct (Z.leb_spec 0 ex); [lia|].
    rewrite Z.mul_mod_idemp_l by lia.
    rewrite <- Z.pow_mul_l, Zpower_mod by assumption.
    rewrite (Z.invmod_coprime' _ _ Hg).
    rewrite <- Zpower_mod by assumption.
    now rewrite Z.pow_1_l by lia.
  - inversion H; subst c. split; [|lia].
    split; [apply Z.mod_pos_bound; assumption|].
    destruct (Z.leb_spec 0 ex); [reflexivity | lia].
Qed.

Lemma pow_mod_total m ex modulus :
  modulus <> 0 -> (0 <= ex \/ Z.gcd m modulus = 1) ->
  exists c, pow_mod m ex modulus = Ok c.
Proof.
  intros Hnz Hok. unfold pow_mod.
  destruct (Z.eqb_spec modulus 0); [contradiction|].
  destruct (Z.ltb_spec ex 0); [|now eexists].
  destruct Hok as [|Hg]; [lia|]. rewrite Hg. now eexists.
Qed.

Section Rsa.

Context {W : Type} (draw : nat -> W -> list byte * W).
Hypothesis draw_ok : padding_source_ok draw.

(** The encryption block fills the bytes of the modulus and stays below
    it. *)
Lemma encryption_block_below PS message modulus :
  0 < modulus ->
  List.length (encryption_block PS message) = byte_size modulus ->
  0 <= bytes2int (encryption_block PS message) < modulus.
Proof.
  intros Hn Hblock.
  pose proof (bytes2int_range (encryption_block PS message)) as Hrange.
  destruct (byte_size_bounds Hn) as (Hk & Hlo & Hhi).
  split; [lia|]. eapply Z.lt_le_trans; [|exact Hlo].
  unfold encryption_block in *. cbn [app] in *. rewrite bytes2int_cons.
  change (Z_of_byte x00) with 0. rewrite Z.mul_0_l, Z.add_0_l.
  match goal with |- bytes2int ?l < _ => pose proof (bytes2int_range l) as Hl end.
  cbn [List.length] in Hblock, Hl.
  replace (Z.of_nat (byte_size modulus) - 1)
    with (Z.of_nat (S (List.length (PS ++ x00 :: message)))) by lia.
  exact (proj2 Hl).
Qed.

(** What [rsa.encrypt] returns is the PKCS#1 v1.5 encryption with the
    padding it drew; the modulus is then positive, the block is below it,
    and coprime to it when the exponent is negative. *)
Lemma rsa_encrypt_spec message pub_key w ciphertext w' :
  rsa_encrypt draw message pub_key w = (Ok ciphertext, w') ->
  let k := byte_size (n pub_key) in
  let PS := fst (draw (k - List.length message - 3)%nat w) in
  pkcs1_v15_encryption pub_key message PS ciphertext /\
  0 < n pub_key /\
  (e pub_key < 0 -> Z.gcd (bytes2int (encryption_block PS message)) (n pub_key) = 1) /\
  List.length (encryption_block PS message) = k /\
  0 <= bytes2int (encryption_block PS message) < n pub_key /\
  w' = snd (draw (k - List.length message - 3)%nat w).
Proof.
  intros H k PS. unfold rsa_encrypt, pad_for_encryption in H.
  fold k in H.
  destruct (Z.ltb_spec (Z.of_nat k - 11) (Z.of_nat (List.length message)))
    as [Hbig|Hfit]; [discriminate|].
  destruct (draw_ok (k - List.length message - 3)%nat w) as [Hlen Hnz].
  fold PS in Hlen, Hnz.
  destruct (draw (k - List.length message - 3)%nat w) as [padding w1] eqn:Hdraw.
  simpl in PS. subst PS.
  change ([x00; x02] ++ padding ++ [x00] ++ message)
    with (encryption_block padding message) in H.
  set (block := encryption_block padding message) in *.
  assert (Hblock : List.length block = k).
  { unfold block, encryption_block. rewrite !length_app, Hlen. simpl. lia. }
  pose proof (bytes2int_range block) as Hrange.
  unfold encrypt_int, bind_result in H.
  destruct (Z.ltb_spec (bytes2int block) 0); [discriminate|].
  destruct (Z.ltb_spec (n pub_key) (bytes2int block)); [discriminate|].
  destruct (pow_mod (bytes2int block) (e pub_key) (n pub_key)) as [c|ex] eqn:Hpow;
    [|discriminate].
  destruct (@pow_mod_spec _ _ _ _ Hpow ltac:(lia)) as (Hn & Hc & Hg).
  destruct (byte_size_bounds Hn) as (Hk & Hlo & Hhi). fold k in Hk, Hlo, Hhi.
  destruct (@int2bytes_ok c k ltac:(unfold power_modulo in Hc; lia))
    as (bs & Hbs & Hbl & Hbv).
  rewrite Hbs in H. inversion H; subst bs w1.
  split; [|split; [assumption|]; split; [assumption|]; split; [assumption|];
           split; [now apply encryption_block_below | reflexivity]].
  unfold pkcs1_v15_encryption. fold k. fold block. rewrite Hbv.
  repeat split; try assumption; try lia; apply Hc.
Qed.

(** [rsa.encrypt] returns whenever the modulus is positive and long
    enough for the message and, should the exponent be negative, the block
    is coprime to the modulus. *)
Lemma rsa_encrypt_total message pub_key w :
  0 < n pub_key ->
  (List.length message + 11 <= byte_size (n pub_key))%nat ->
  (0 <= e pub_key \/
   Z.gcd (bytes2int (drawn_block draw message pub_key w)) (n pub_key) = 1) ->
  exists ciphertext w', rsa_encrypt draw message pub_key w = (Ok ciphertext, w').
Proof.
  intros Hn Hfit He. unfold drawn_block in He.
  unfold rsa_encrypt, pad_for_encryption.
  set (k := byte_size (n pub_key)) in *.
  destruct (Z.ltb_spec (Z.of_nat k - 11) (Z.of_nat (List.length message)))
    as [Hbig|_]; [lia|].
  destruct (draw_ok (k - List.length message - 3)%nat w) as [Hlen Hnz].
  destruct (draw (k - List.length message - 3)%nat w) as [padding w1].
  simpl in Hlen, Hnz, He.
  change ([x00; x02] ++ padding ++ [x00] ++ message)
    with (encryption_block padding message).
  set (block := encryption_block padding message) in *.
  assert (Hblock : List.length block = k).
  { unfold block, encryption_block. rewrite !length_app, Hlen. simpl. lia. }
  pose proof (@encryption_block_below padding message _ Hn Hblock) as Hbelow.
  fold block in Hbelow.
  unfold encrypt_int, bind_result.
  destruct (Z.ltb_spec (bytes2int block) 0); [lia|].
  destruct (Z.ltb_spec (n pub_key) (bytes2int block)); [lia|].
  destruct (@pow_mod_total (bytes2int block) (e pub_key) (n pub_key)
              ltac:(lia) He) as [c Hpow].
  rewrite Hpow.
  destruct (@pow_mod_spec _ _ _ _ Hpow ltac:(lia)) as (_ & Hc & _).
  destruct (byte_size_bounds Hn) as (Hk & Hlo & Hhi). fold k in Hk, Hlo, Hhi.
  destruct (@int2bytes_ok c k ltac:(unfold power_modulo in Hc; lia))
    as (bs & Hbs & _).
  rewrite Hbs. now eexists; eexists.
Qed.

End Rsa.

(** The ciphertext depends on the world only through the padding drawn. *)
Lemma rsa_encrypt_same_padding {W} (draw : nat -> W -> list byte * W)
    message pub_key w1 w2 :
  (forall len, fst (draw len w1) = fst (draw len w2)) ->
  fst (rsa_encrypt draw message pub_key w1)
  = fst (rsa_encrypt draw message pub_key w2).
Proof.
  intros Hsame. unfold rsa_encrypt, pad_for_encryption.
  destruct (Z.of_nat (byte_size (n pub_key)) - 11
            <? Z.of_nat (List.length message)); [reflexivity|].
  specialize (Hsame (byte_size (n pub_key) - List.length message - 3)%nat).
  destruct (draw _ w1) as [p1 w1'], (draw _ w2) as [p2 w2'].
  simpl in Hsame. now subst p2.
Qed.

(** Decrypting with an exponent that undoes the encryption of the block
    gives the message back. *)
Lemma rsa_decrypt_encryption pub_key message PS ciphertext d :
  pkcs1_v15_encryption pub_key message PS ciphertext ->
  List.length (encryption_block PS message) = byte_size (n pub_key) ->
  (bytes2int ciphertext ^ d) mod n pub_key
  = bytes2int (encryption_block PS message) ->
  rsa_decrypt ciphertext pub_key d = Some message.
Proof.
  intros (Hlen & Hmin & Hnz & Hcl & Hcv) Hblock Hd.
  unfold rsa_decrypt. rewrite Hd, <- Hblock, int2bytes_bytes2int.
  now apply unpad_block_padded.
Qed.

End CodecFacts.

(** ** Dictionaries and the cookie jar *)

Lemma dict_get_set_same {V} (d : dict V) k v :
  dict_get (dict_set d k v) k = Some v.
Proof.
  induction d as [|[k' v'] d IH]; simpl.
  - now rewrite String.eqb_refl.
  - destruct (String.eqb k' k) eqn:E; simpl.
    + now rewrite String.eqb_refl.
    + now rewrite E.
Qed.

Lemma dict_get_set_other {V} (d : dict V) k k' v :
  k <> k' -> dict_get (dict_set d k v) k' = dict_get d k'.
Proof.
  intros Hne. induction d as [|[k0 v0] d IH]; simpl.
  - destruct (String.eqb_spec k k'); [contradiction | reflexivity].
  - destruct (String.eqb_spec k0 k) as [->|Hk]; simpl.
    + destruct (String.eqb_spec k k'); [contradiction | reflexivity].
    + destruct (String.eqb_spec k0 k'); [reflexivity | exact IH].
Qed.

Lemma dict_set_same {V} (d : dict V) k v :
  dict_get d k = Some v -> dict_set d k v = d.
Proof.
  induction d as [|[k' v'] d IH]; simpl; [discriminate|].
  destruct (String.eqb_spec k' k) as [->|Hne].
  - now intros [= ->].
  - intros H. now rewrite IH.
Qed.

Lemma dict_get_del_same {V} (d : dict V) k : dict_get (dict_del d k) k = None.
Proof.
  induction d as [|[k' v'] d IH]; simpl; [reflexivity|].
  destruct (String.eqb_spec k' k) as [->|Hne]; simpl; [exact IH|].
  destruct (String.eqb_spec k' k); [contradiction | exact IH].
Qed.

Lemma dict_get_del_other {V} (d : dict V) k k' :
  k <> k' -> dict_get (dict_del d k) k' = dict_get d k'.
Proof.
  intros Hne. induction d as [|[k0 v0] d IH]; simpl; [reflexivity|].
  destruct (String.eqb_spec k0 k) as [->|Hk]; simpl.
  - destruct (String.eqb_spec k k'); [contradiction | exact IH].
  - destruct (String.eqb_spec k0 k'); [reflexivity | exact IH].
Qed.

Lemma dict_get_In {V} (d : dict V) k x : dict_get d k = Some x -> In (k, x) d.
Proof.
  induction d as [|[k' x'] d IH]; simpl; [discriminate|].
  destruct (String.eqb_spec k' k) as [->|_].
  - intros [= ->]. now left.
  - intros H. right. now apply IH.
Qed.

(** *** Storing a cookie *)

Lemma jar_lookup_store_same j name value domain path :
  CookieJar.lookup (CookieJar.store j name value domain path)
                   domain path name = Some value.
Proof.
  unfold CookieJar.lookup, CookieJar.store.
  now rewrite !dict_get_set_same.
Qed.

Lemma jar_lookup_store_other_domain j name value domain path domain' path' name' :
  domain <> domain' ->
  CookieJar.lookup (CookieJar.store j name value domain path)
                   domain' path' name'
  = CookieJar.lookup j domain' path' name'.
Proof.
  intros Hne. unfold CookieJar.lookup, CookieJar.store.
  now rewrite dict_get_set_other.
Qed.

Lemma jar_lookup_store_other_path j name value domain path path' name' :
  path <> path' ->
  CookieJar.lookup (CookieJar.store j name value domain path)
                   domain path' name'
  = CookieJar.lookup j domain path' name'.
Proof.
  intros Hne. unfold CookieJar.lookup, CookieJar.store.
  rewrite dict_get_set_same, dict_get_set_other by assumption.
  now destruct (dict_get j domain).
Qed.

Lemma jar_lookup_store_other_name j name value domain path name' :
  name <> name' ->
  CookieJar.lookup (CookieJar.store j name value domain path)
                   domain path name'
  = CookieJar.lookup j domain path name'.
Proof.
  intros Hne. unfold CookieJar.lookup, CookieJar.store.
  rewrite !dict_get_set_same, dict_get_set_other by assumption.
  destruct (dict_get j domain) as [by_path|]; [|reflexivity].
  now destruct (dict_get by_path path).
Qed.

(** Storing a cookie changes the cookie of that domain, path and name
    only. *)
Lemma jar_lookup_store_other j name value domain path domain' path' name' :
  domain <> domain' \/ path <> path' \/ name <> name' ->
  CookieJar.lookup (CookieJar.store j name value domain path)
                   domain' path' name'
  = CookieJar.lookup j domain' path' name'.
Proof.
  intros H.
  destruct (string_dec domain domain') as [<-|Hd];
    [|now apply jar_lookup_store_other_domain].
  destruct (string_dec path path') as [<-|Hp];
    [|now apply jar_lookup_store_other_path].
  apply jar_lookup_store_other_name. tauto.
Qed.

(** Storing the value a cookie has leaves the jar as it is. *)
Lemma jar_store_same j name value domain path :
  CookieJar.lookup j domain path name = Some value ->
  CookieJar.store j name value domain path = j.
Proof.
  unfold CookieJar.lookup, CookieJar.store.
  destruct (dict_get j domain) as [by_path|] eqn:Hd; [|discriminate].
  destruct (dict_get by_path path) as [by_name|] eqn:Hp; [|discriminate].
  intros Hn. now rewrite (dict_set_same _ _ Hn), (dict_set_same _ _ Hp),
    (dict_set_same _ _ Hd).
Qed.

(** *** Clearing cookies *)

Lemma jar_lookup_clear_same j domain path name :
  CookieJar.lookup (CookieJar.clear j domain path name) domain path name = None.
Proof.
  unfold CookieJar.clear.
  destruct (dict_get j domain) as [by_path|] eqn:Hd.
  - destruct (dict_get by_path path) as [by_name|] eqn:Hp.
    + unfold CookieJar.lookup. rewrite !dict_get_set_same.
      apply dict_get_del_same.
    + unfold CookieJar.lookup. now rewrite Hd, Hp.
  - unfold CookieJar.lookup. now rewrite Hd.
Qed.

Lemma jar_lookup_clear_other j domain path name domain' path' name' :
  (domain, path, name) <> (domain', path', name') ->
  CookieJar.lookup (CookieJar.clear j domain path name) domain' path' name'
  = CookieJar.lookup j domain' path' name'.
Proof.
  intros Hne. unfold CookieJar.clear.
  destruct (dict_get j domain) as [by_path|] eqn:Hd; [|reflexivity].
  destruct (dict_get by_path path) as [by_name|] eqn:Hp; [|reflexivity].
  unfold CookieJar.lookup.
  destruct (string_dec domain domain') as [<-|Hd'];
    [|now rewrite dict_get_set_other].
  rewrite dict_get_set_same, Hd.
  destruct (string_dec path path') as [<-|Hp'];
    [|now rewrite dict_get_set_other].
  rewrite dict_get_set_same, Hp.
  apply dict_get_del_other. intros <-. now apply Hne.
Qed.

Lemma place_eq_dec (a b : string * string * string) : {a = b} + {a <> b}.
Proof. repeat decide equality; apply string_dec. Qed.

Lemma jar_lookup_clear_each l : forall j domain path name,
  CookieJar.lookup
    (fold_left (fun jar c => let '(d, p, k) := c in CookieJar.clear jar d p k) l j)
    domain path name
  = if in_dec place_eq_dec (domain, path, name) l
    then None else CookieJar.lookup j domain path name.
Proof.
  induction l as [|[[d p] k] l IH]; intros j domain path name; [reflexivity|].
  cbn [fold_left]. rewrite IH.
  destruct (in_dec _ (domain, path, name) l) as [Hin|Hout];
    destruct (in_dec _ (domain, path, name) ((d, p, k) :: l)) as [Hin'|Hout'];
    try reflexivity.
  - destruct Hout'. now right.
  - destruct Hin' as [Heq|Hin]; [|contradiction].
    inversion Heq; subst. apply jar_lookup_clear_same.
  - apply jar_lookup_clear_other. intros Heq. apply Hout'. now left.
Qed.

(** A cookie the jar has is among its entries. *)
Lemma jar_lookup_entries j domain path name value :
  CookieJar.lookup j domain path name = Some value ->
  In (domain, path, name, value) (CookieJar.entries j).
Proof.
  unfold CookieJar.lookup, CookieJar.entries.
  destruct (dict_get j domain) as [by_path|] eqn:Hd; [|discriminate].
  destruct (dict_get by_path path) as [by_name|] eqn:Hp; [|discriminate].
  intros Hn. apply in_flat_map. exists (domain, by_path).
  split; [now apply dict_get_In|]. simpl. apply in_flat_map.
  exists (path, by_name). split; [now apply dict_get_In|]. simpl.
  apply in_map_iff. exists (name, value). split; [reflexivity|].
  now apply dict_get_In.
Qed.

(** [remove_cookie_by_name] removes the cookies of that name on the
    domains and paths asked for, and touches no other cookie. *)
Lemma jar_lookup_remove_same j name domain path d p :
  CookieJar.matches domain d = true -> CookieJar.matches path p = true ->
  CookieJar.lookup (CookieJar.remove_cookie_by_name j name domain path) d p name
  = None.
Proof.
  intros Hd Hp. unfold CookieJar.remove_cookie_by_name.
  rewrite jar_lookup_clear_each.
  destruct (in_dec _ (d, p, name) (CookieJar.clearables j name domain path))
    as [_|Hout]; [reflexivity|].
  destruct (CookieJar.lookup j d p name) as [v|] eqn:Hl; [|reflexivity].
  destruct Hout. unfold CookieJar.clearables. apply in_map_iff.
  exists (d, p, name, v). split; [reflexivity|]. apply filter_In.
  split; [now apply jar_lookup_entries|].
  now rewrite String.eqb_refl, Hd, Hp.
Qed.

Lemma jar_lookup_remove_other j name domain path d p k :
  name <> k \/ CookieJar.matches domain d = false
  \/ CookieJar.matches path p = false ->
  CookieJar.lookup (CookieJar.remove_cookie_by_name j name domain path) d p k
  = CookieJar.lookup j d p k.
Proof.
  intros Hother. unfold CookieJar.remove_cookie_by_name.
  rewrite jar_lookup_clear_each.
  destruct (in_dec _ (d, p, k) (CookieJar.clearables j name domain path))
    as [Hin|_]; [|reflexivity].
  unfold CookieJar.clearables in Hin. apply in_map_iff in Hin
    as ([[[d' p'] k'] v] & Heq & Hin).
  inversion Heq; subst d' p' k'. apply filter_In in Hin as [_ Hf].
  apply andb_prop in Hf as [Hf Hp]. apply andb_prop in Hf as [Hk Hd].
  apply String.eqb_eq in Hk.
  destruct Hother as [H|[H|H]]; [now destruct H | congruence | congruence].
Qed.

(** *** What [get_dict] gives *)

(** [get_dict] gives, for each name, the value of the last cookie of that
    name. *)
Lemma get_dict_fold {V} k (l : list (string * V)) : forall d0,
  dict_get (fold_left (fun d c => dict_set d (fst c) (snd c)) l d0) k
  = match last_named k l with
    | Some v => Some v
    | None => dict_get d0 k
    end.
Proof.
  induction l as [|[name v] l IH]; intros d0; simpl; [reflexivity|].
  rewrite IH. destruct (last_named k l); [reflexivity|].
  destruct (String.eqb_spec name k) as [->|Hne].
  - apply dict_get_set_same.
  - now apply dict_get_set_other.
Qed.

Lemma get_dict_last_named j k :
  dict_get (CookieJar.get_dict j) k = last_named k (CookieJar.items j).
Proof.
  unfold CookieJar.get_dict. rewrite get_dict_fold.
  now destruct (last_named k (CookieJar.items j)).
Qed.

Lemma last_named_None {V} k (l : list (string * V)) :
  last_named k l = None <-> forall v, ~ In (k, v) l.
Proof.
  induction l as [|[name v] l IH]; simpl.
  - split; [intros _ v [] | reflexivity].
  - destruct (last_named k l) as [x|].
    + split; [discriminate|]. intros H.
      assert (Hx : Some x = None) by (apply IH; intros v' Hin; apply (H v'); auto).
      discriminate.
    + destruct (String.eqb_spec name k) as [->|Hne].
      * split; [discriminate|]. intros H. destruct (H v). now left.
      * split; [|reflexivity]. intros _ v' [Heq|Hin].
        -- inversion Heq. contradiction.
        -- now apply (proj1 IH eq_refl v').
Qed.

Lemma last_named_app {V} k (l1 l2 : list (string * V)) :
  last_named k (l1 ++ l2)
  = match last_named k l2 with
    | Some v => Some v
    | None => last_named k l1
    end.
Proof.
  induction l1 as [|c l1 IH]; simpl.
  - now destruct (last_named k l2).
  - rewrite IH. now destruct (last_named k l2).
Qed.

(** A cookie the jar has on some domain and path is among its items. *)
Lemma jar_lookup_items j domain path name value :
  CookieJar.lookup j domain path name = Some value ->
  In (name, value) (CookieJar.items j).
Proof.
  unfold CookieJar.lookup, CookieJar.items.
  destruct (dict_get j domain) as [by_path|] eqn:Hd; [|discriminate].
  destruct (dict_get by_path path) as [by_name|] eqn:Hp; [|discriminate].
  intros Hn. apply in_flat_map. exists (domain, by_path).
  split; [now apply dict_get_In|]. simpl. apply in_flat_map. exists (path, by_name).
  split; [now apply dict_get_In | now apply dict_get_In].
Qed.

(** *** Refreshing the cookies of one name *)

Lemma refreshed_refl {V} k (v : V) l : refreshed k v l l.
Proof. induction l; constructor; assumption. Qed.

Lemma refreshed_app {V} k (v : V) l1 l1' l2 l2' :
  refreshed k v l1 l1' -> refreshed k v l2 l2' ->
  refreshed k v (l1 ++ l2) (l1' ++ l2').
Proof.
  intros H1 H2. induction H1; simpl; try (constructor; assumption).
  assumption.
Qed.

(** When the last cookie named [k] has the value [v], it still has after
    a refresh with [v]. *)
Lemma refreshed_last_named {V} k (v : V) l l' :
  refreshed k v l l' ->
  (last_named k l = None -> last_named k l' = None \/ last_named k l' = Some v) /\
  (last_named k l = Some v -> last_named k l' = Some v).
Proof.
  induction 1 as [|c l l' H [IHn IHs]|old l l' H [IHn IHs]|l l' H [IHn IHs]];
    simpl; rewrite ?String.eqb_refl.
  - auto.
  - destruct (last_named k l) as [x|] eqn:Hl.
    + split; [discriminate|]. intros [= ->]. now rewrite (IHs eq_refl).
    + destruct (IHn eq_refl) as [-> | ->];
        destruct (String.eqb (fst c) k); split; auto; discriminate.
  - destruct (last_named k l) as [x|] eqn:Hl.
    + split; [discriminate|]. intros [= ->]. now rewrite (IHs eq_refl).
    + split; [discriminate|]. intros _.
      destruct (IHn eq_refl) as [-> | ->]; reflexivity.
  - split.
    + intros Hn. right. destruct (IHn Hn) as [-> | ->]; reflexivity.
    + intros Hs. now rewrite (IHs Hs).
Qed.

Lemma dict_set_refreshed {V} k (v : V) (by_name : dict V) :
  refreshed k v by_name (dict_set by_name k v).
Proof.
  induction by_name as [|[name x] l IH]; simpl.
  - apply refreshed_insert, refreshed_nil.
  - destruct (String.eqb_spec name k) as [->|_].
    + apply refreshed_replace, refreshed_refl.
    + now apply refreshed_keep.
Qed.

(** One level of the jar: updating the entry of [key] (or a fresh one)
    refreshes the cookies below. *)
Lemma dict_level_refreshed {V C} (cookies_of : V -> list (string * C))
    (update : V -> V) (fresh : V) k v :
  (forall x, refreshed k v (cookies_of x) (cookies_of (update x))) ->
  refreshed k v [] (cookies_of (update fresh)) ->
  forall (d : dict V) key,
    refreshed k v
      (flat_map (fun entry => cookies_of (snd entry)) d)
      (flat_map (fun entry => cookies_of (snd entry))
         (dict_set d key
            (update (match dict_get d key with Some x => x | None => fresh end)))).
Proof.
  intros Hupd Hfresh d key.
  induction d as [|[key' x] d IH]; simpl.
  - rewrite app_nil_r. exact Hfresh.
  - destruct (String.eqb_spec key' key) as [->|Hne]; simpl.
    + apply refreshed_app; [apply Hupd | apply refreshed_refl].
    + apply refreshed_app; [apply refreshed_refl | exact IH].
Qed.

Lemma store_refreshed j name value domain path :
  refreshed name value (CookieJar.items j)
    (CookieJar.items (CookieJar.store j name value domain path)).
Proof.
  unfold CookieJar.items, CookieJar.store.
  apply (dict_level_refreshed
           (fun by_path : dict (dict (option string)) =>
              flat_map (fun pth => snd pth) by_path)
           (fun by_path =>
              dict_set by_path path
                (dict_set (match dict_get by_path path with
                           | Some c => c | None => [] end) name value))
           []).
  - intros by_path.
    apply (dict_level_refreshed (fun by_name : dict (option string) => by_name)
             (fun by_name => dict_set by_name name value) []).
    + intros by_name. apply dict_set_refreshed.
    + apply dict_set_refreshed.
  - simpl. rewrite ?app_nil_r. apply refreshed_insert, refreshed_nil.
Qed.

(** ** The monad *)

Section ExecutorFacts.

Context {World : Type} (env : Environment World).

Local Notation "x <- m ;; k" := (bind m (fun x => k))
  (at level 61, m at next level, right associativity).

Lemma bind_ok {A B} (m : @M World A) (k : A -> @M World B) self a self' :
  m self = (Ok a, self') -> bind m k self = k a self'.
Proof. intros H. unfold bind. now rewrite H. Qed.

Lemma bind_raise {A B} (m : @M World A) (k : A -> @M World B) self ex self' :
  m self = (Raise ex, self') -> bind m k self = (Raise ex, self').
Proof. intros H. unfold bind. now rewrite H. Qed.

Lemma bind_inv {A B} (m : @M World A) (k : A -> @M World B) self r self2 :
  bind m k self = (r, self2) ->
  (exists a self1, m self = (Ok a, self1) /\ k a self1 = (r, self2)) \/
  (exists ex, m self = (Raise ex, self2) /\ r = Raise ex).
Proof.
  unfold bind. destruct (m self) as [[a|ex] self1]; intros H.
  - left. now exists a, self1.
  - right. exists ex. now inversion H.
Qed.

(** ** The calls to the key endpoint *)

(** Closes goals on the fields a step leaves alone. *)
Ltac frame :=
  unfold same_config, same_codes in *; simpl in *;
  intuition (try lia; try congruence).

Lemma same_config_refl (a : LoginExecutor World) : same_config a a.
Proof. now repeat split. Qed.

Lemma same_config_trans (a b c : LoginExecutor World) :
  same_config a b -> same_config b c -> same_config a c.
Proof.
  unfold same_config. intros (?&?&?&?&?) (?&?&?&?&?).
  repeat split; congruence.
Qed.

Lemma same_codes_refl (a : LoginExecutor World) : same_codes a a.
Proof. now split. Qed.

Lemma same_codes_trans (a b c : LoginExecutor World) :
  same_codes a b -> same_codes b c -> same_codes a c.
Proof. unfold same_codes. intros [? ?] [? ?]. split; congruence. Qed.

Lemma session_post_spec url data self r self' :
  session_post env url data self = (r, self') ->
  trace self' = (trace self ++ [EvPost url data])%list /\
  same_config self self' /\ same_codes self self'.
Proof.
  unfold session_post.
  destruct (http_post env url data (cookies self) (world self)) as [[r0 jar] w].
  intros H. inversion H; subst. simpl. repeat split.
Qed.

Lemma request_rsa_key_spec self r self' :
  request_rsa_key env self = (r, self') ->
  trace self' = (trace self ++ [key_post (username self)])%list /\
  same_config self self' /\ same_codes self self'.
Proof.
  unfold request_rsa_key. intros H.
  apply bind_inv in H as [(resp & self1 & Hp & Hl) | (ex & Hp & ->)].
  - unfold lift in Hl. inversion Hl; subst.
    now apply session_post_spec in Hp.
  - now apply session_post_spec in Hp.
Qed.

(** The recursion of the source: the fuel of the model is never used up. *)
Lemma _fetch_rsa_params_eq k :
  _fetch_rsa_params env k
  = fetch_rsa_params_body env (_fetch_rsa_params env) k.
Proof.
  do 5 (destruct k as [|k]; [reflexivity|]). reflexivity.
Qed.


Lemma parse_key_response_lacks_KeyError d :
  hex_fields_parse env d -> lacks_required_field d ->
  exists key, parse_key_response env (VDict d) = Raise (KeyError key).
Proof.
  intros Hhex Hlacks.
  unfold parse_key_response, subscript, bind_result.
  destruct (dict_get d "publickey_mod") as [m|] eqn:Hm; [|now eexists].
  destruct (Hhex _ _ (or_introl eq_refl) Hm) as (s & z & -> & ->).
  destruct (dict_get d "publickey_exp") as [x|] eqn:Hx; [|now eexists].
  destruct (Hhex _ _ (or_intror eq_refl) Hx) as (s' & z' & -> & ->).
  destruct (dict_get d "timestamp") as [t|] eqn:Ht; [|now eexists].
  destruct Hlacks as [H|[H|H]]; congruence.
Qed.

(** Each level of the recursion makes one call; [fuel] bounds them. *)
Lemma fetch_rsa_params_rec_trace fuel : forall k self r self',
  fetch_rsa_params_rec env fuel k self = (r, self') ->
  exists m, (m <= fuel)%nat /\ (1 <= fuel -> 1 <= m)%nat /\
    trace self' = (trace self ++ repeat (key_post (username self)) m)%list /\
    same_config self self' /\ same_codes self self'.
Proof.
  induction fuel as [|fuel IH]; intros k self r self' H.
  - inversion H; subst. exists 0%nat. simpl. rewrite app_nil_r. frame.
  - simpl in H. unfold fetch_rsa_params_body in H.
    apply bind_inv in H as [(v & self1 & Hreq & Hk) | (ex & Hreq & ->)].
    + apply request_rsa_key_spec in Hreq as (Htr & Hcfg & Hcd).
      assert (Hone : self' = self1 ->
                exists m, (m <= S fuel)%nat /\ (1 <= S fuel -> 1 <= m)%nat /\
                  trace self' = (trace self ++ repeat (key_post (username self)) m)%list /\
                  same_config self self' /\ same_codes self self').
      { intros ->. exists 1%nat. frame. }
      destruct (parse_key_response env v) as [p|ex].
      * inversion Hk; subst. now apply Hone.
      * destruct ex; try (inversion Hk; subst; now apply Hone).
        destruct (k <? maximal_number_of_repetitions)%nat.
        -- apply IH in Hk as (m & Hm & _ & Htr' & Hcfg' & Hcd').
           exists (S m). rewrite Htr', Htr, <- app_assoc.
           replace (username self1) with (username self) by frame.
           frame.
        -- inversion Hk; subst. now apply Hone.
    + apply request_rsa_key_spec in Hreq as (Htr & Hcfg & Hcd).
      exists 1%nat. frame.
Qed.

Lemma _fetch_rsa_params_trace k self r self' :
  _fetch_rsa_params env k self = (r, self') ->
  exists m, (1 <= m <= 6 - k \/ m = 1)%nat /\
    trace self' = (trace self ++ repeat (key_post (username self)) m)%list /\
    same_config self self' /\ same_codes self self'.
Proof.
  intros H. apply fetch_rsa_params_rec_trace in H
    as (m & Hle & Hge & Htr & Hcfg & Hcd).
  exists m. unfold maximal_number_of_repetitions in *.
  split; [lia|]. now split.
Qed.



Lemma _set_steamauth_cookies_spec (self : LoginExecutor World) :
  exists self0, _set_steamauth_cookies self = (Ok tt, self0) /\
    trace self0 = trace self /\ world self0 = world self /\
    same_config self self0 /\ same_codes self self0.
Proof. eexists. split; [reflexivity|]. frame. Qed.

(** ** One login request *)

Lemma _encrypt_password_frame rsa_params self r self' :
  _encrypt_password env rsa_params self = (r, self') ->
  trace self' = trace self /\ cookies self' = cookies self /\
  same_config self self' /\ same_codes self self'.
Proof.
  unfold _encrypt_password.
  destruct (Codec.utf8_encode (password self)) as [message|ex].
  - destruct (Codec.rsa_encrypt _ _ _ _) as [r0 w]. intros H.
    inversion H; subst. simpl. rewrite app_nil_r. frame.
  - intros H. inversion H; subst. frame.
Qed.

Lemma _prepare_login_request_data_spec encrypted_password rsa_timestamp self r self' :
  _prepare_login_request_data env encrypted_password rsa_timestamp self = (r, self') ->
  trace self' = trace self /\ cookies self' = cookies self /\
  same_config self self' /\ same_codes self self' /\
  exists data, r = Ok (VDict data) /\ login_form_of self data /\
    dict_get data "password" = Some (VBytes encrypted_password) /\
    dict_get data "rsatimestamp" = Some rsa_timestamp /\
    dict_get data "loginfriendlyname" = Some (VStr "").
Proof.
  unfold _prepare_login_request_data.
  destruct (time_ms env (world self)) as [now w]. intros H.
  inversion H; subst. simpl. rewrite app_nil_r.
  repeat split; try reflexivity.
  eexists. split; [reflexivity|]. unfold login_form_of. now repeat split.
Qed.

(** C9 (amended). With a padding source that hands out nonzero bytes:
    whenever the encryption step returns, its output is the base64 encoding
    (and decodes back to) the RSAES-PKCS1-v1_5 encryption, under the
    fetched modulus and exponent and with the padding drawn for this call,
    of exactly the UTF-8 bytes of the password - bytes that decode, as
    UTF-8, to the password and that a private exponent undoing the
    encryption of the block recovers.  The step leaves the fields of the
    executor, its cookie jar and its log of calls as they were; it is not
    a pure function of password and key: it draws the padding from the
    random source, which it leaves advanced, and its outcome is a function
    of password, key and the padding drawn.  It returns when the password
    is encodable, the modulus is positive and at least eleven bytes longer
    than the encoded password, and the exponent is not negative (or the
    block is coprime to the modulus). *)
Theorem encrypt_password_is_base64_of_rsa
    (self : LoginExecutor World) (rsa_params : RsaParams) :
  Codec.padding_source_ok (rsa_padding env) ->
  (forall out self',
     _encrypt_password env rsa_params self = (Ok out, self') ->
     exists message PS ciphertext,
       Codec.utf8_encode (password self) = Ok message /\
       Codec.utf8_decode message = Some (password self) /\
       PS = fst (rsa_padding env
                   (Codec.byte_size (n (rsa_key rsa_params))
                    - List.length message - 3)%nat (world self)) /\
       Codec.pkcs1_v15_encryption (rsa_key rsa_params) message PS ciphertext /\
       out = Codec.b64encode ciphertext /\
       Codec.b64decode out = Some ciphertext /\
       (forall d,
          ((Codec.bytes2int ciphertext ^ d) mod n (rsa_key rsa_params))%Z
          = Codec.bytes2int (Codec.encryption_block PS message) ->
          Codec.rsa_decrypt ciphertext (rsa_key rsa_params) d = Some message) /\
       trace self' = trace self /\ cookies self' = cookies self /\
       same_config self self' /\ same_codes self self' /\
       world self'
       = snd (rsa_padding env
                (Codec.byte_size (n (rsa_key rsa_params))
                 - List.length message - 3)%nat (world self))) /\
  (forall message,
     Codec.utf8_encode (password self) = Ok message ->
     (0 < n (rsa_key rsa_params))%Z ->
     (List.length message + 11 <= Codec.byte_size (n (rsa_key rsa_params)))%nat ->
     (0 <= e (rsa_key rsa_params)
      \/ Z.gcd (Codec.bytes2int
                  (Codec.drawn_block (rsa_padding env) message
                     (rsa_key rsa_params) (world self)))
               (n (rsa_key rsa_params)) = 1)%Z ->
     exists out self', _encrypt_password env rsa_params self = (Ok out, self')) /\
  (forall other : LoginExecutor World,
     password other = password self ->
     (forall len, fst (rsa_padding env len (world other))
                  = fst (rsa_padding env len (world self))) ->
     fst (_encrypt_password env rsa_params other)
     = fst (_encrypt_password env rsa_params self)).
Proof.
  intros Hdraw. split; [|split].
  3:{ intros other Hpw Hpad. unfold _encrypt_password. rewrite Hpw.
      destruct (Codec.utf8_encode (password self)) as [message|ex];
        [|reflexivity].
      pose proof (CodecFacts.rsa_encrypt_same_padding (rsa_padding env) message
                    (rsa_key rsa_params) _ _ Hpad) as Hsame.
      destruct (Codec.rsa_encrypt _ message _ (world other)) as [r1 w1].
      destruct (Codec.rsa_encrypt _ message _ (world self)) as [r2 w2].
      simpl in *. now subst r2. }
  - intros out self' Hrun.
    destruct (_encrypt_password_frame _ _ Hrun) as (Htr & Hck & Hcfg & Hcd).
    unfold _encrypt_password in Hrun.
    destruct (Codec.utf8_encode (password self)) as [message|ex] eqn:Hutf;
      [|discriminate].
    destruct (Codec.rsa_encrypt (rsa_padding env) message (rsa_key rsa_params)
                (world self)) as [[ciphertext|ex] w] eqn:Henc;
      [|discriminate].
    simpl in Hrun. inversion Hrun; subst out self'.
    destruct (CodecFacts.rsa_encrypt_spec Hdraw _ _ _ Henc)
      as (Hspec & Hn & He & Hblock & Hbelow & Hw).
    exists message. eexists. exists ciphertext.
    split; [reflexivity|].
    split; [now apply CodecFacts.utf8_decode_encode|].
    split; [reflexivity|]. split; [exact Hspec|].
    split; [reflexivity|].
    split; [apply CodecFacts.b64decode_b64encode|].
    split.
    + intros d Hd.
      exact (@CodecFacts.rsa_decrypt_encryption _ _ _ _ d Hspec Hblock Hd).
    + repeat split; try assumption; apply Hcfg || apply Hcd || idtac.
  - intros message Hutf Hn Hfit He. unfold _encrypt_password. rewrite Hutf.
    destruct (CodecFacts.rsa_encrypt_total Hdraw message (rsa_key rsa_params)
                (world self) Hn Hfit He) as (ciphertext & w & ->).
    simpl. now eexists; eexists.
Qed.

(** A login request makes between one and six calls to the key endpoint
    and then at most one POST to the login endpoint, which carries the
    current codes; when it returns a response that POST was made. *)
Lemma _send_login_request_trace self r self' :
  _send_login_request env self = (r, self') ->
  same_config self self' /\ same_codes self self' /\
  exists m, (1 <= m <= 6)%nat /\
    ((trace self' = (trace self ++ repeat (key_post (username self)) m)%list /\
      exists ex, r = Raise ex) \/
     (exists data,
        trace self' = (trace self ++ repeat (key_post (username self)) m
                         ++ [login_post data])%list /\
        login_form_of self data)).
Proof.
  unfold _send_login_request. intros H.
  apply bind_inv in H as [(p & s1 & Hf & H) | (ex & Hf & ->)].
  2:{ apply _fetch_rsa_params_trace in Hf as (m & Hm & Htr & Hcfg & Hcd).
      split; [assumption|]. split; [assumption|].
      exists m. split; [lia|]. left. split; [assumption | now eexists]. }
  apply _fetch_rsa_params_trace in Hf as (m & Hm & Htr & Hcfg & Hcd).
  apply bind_inv in H as [(c & s2 & He & H) | (ex & He & ->)].
  2:{ apply _encrypt_password_frame in He as (Htr2 & _ & Hcfg2 & Hcd2).
      split; [eapply same_config_trans; eauto|].
      split; [eapply same_codes_trans; eauto|].
      exists m. split; [lia|]. left. split; [congruence | now eexists]. }
  apply _encrypt_password_frame in He as (Htr2 & _ & Hcfg2 & Hcd2).
  apply bind_inv in H as [(d & s3 & Hp & H) | (ex & Hp & ->)].
  2:{ apply _prepare_login_request_data_spec in Hp
        as (_ & _ & _ & _ & data & Hd & _). discriminate. }
  apply _prepare_login_request_data_spec in Hp
    as (Htr3 & _ & Hcfg3 & Hcd3 & data & Hd & Hform & _).
  inversion Hd; subst d.
  apply session_post_spec in H as (Htr4 & Hcfg4 & Hcd4).
  assert (Hcfg' : same_config self s3)
    by (eapply same_config_trans; [|eassumption]; eapply same_config_trans; eauto).
  assert (Hcd' : same_codes self s3)
    by (eapply same_codes_trans; [|eassumption]; eapply same_codes_trans; eauto).
  split; [eapply same_config_trans; eauto|].
  split; [eapply same_codes_trans; eauto|].
  exists m. split; [lia|]. right. exists data. split.
  - rewrite Htr4, Htr3, Htr2, Htr, <- app_assoc. reflexivity.
  - unfold login_form_of in *. destruct Hform as (Hu & Ht & He).
    rewrite Hu, Ht, He.
    replace (username s2) with (username self) by frame.
    replace (one_time_code s2) with (one_time_code self) by frame.
    replace (email_auth s2) with (email_auth self) by frame.
    now repeat split.
Qed.

(** ** Steam guard *)

(** Counts events in a trace given as a concatenation. *)
Ltac count_events :=
  unfold email_callbacks, login_posts;
  rewrite ?filter_app, ?length_app; simpl; lia.

Lemma email_callbacks_app t1 t2 :
  email_callbacks (t1 ++ t2) = (email_callbacks t1 + email_callbacks t2)%nat.
Proof. unfold email_callbacks. now rewrite filter_app, length_app. Qed.

Lemma email_callbacks_key_posts user m :
  email_callbacks (repeat (key_post user) m) = 0%nat.
Proof. induction m; simpl; auto. Qed.

Lemma email_callbacks_login_post data :
  email_callbacks [login_post data] = 0%nat.
Proof. reflexivity. Qed.

Lemma _send_login_request_email_callbacks self r self' :
  _send_login_request env self = (r, self') ->
  email_callbacks (trace self') = email_callbacks (trace self).
Proof.
  intros H. apply _send_login_request_trace in H
    as (_ & _ & m & _ & [(-> & _) | (data & -> & _)]);
    rewrite !email_callbacks_app, email_callbacks_key_posts;
    rewrite ?email_callbacks_login_post; lia.
Qed.

(** The two-factor branch: the code generator is called, its code is
    stored and one login request is sent, whose outcome is returned. *)
Lemma _enter_steam_guard_two_factor login_response body self :
  json login_response = Ok body ->
  field_is body "success" false ->
  field_is body "requires_twofactor" true ->
  _enter_steam_guard_if_necessary env login_response self
  = bind (call_generate_one_time_code env) (fun code =>
    bind (fun self => (Ok tt, set_one_time_code code self)) (fun _ =>
    _send_login_request env)) self.
Proof.
  intros Hj (s & Hs & Hsf) (t & Ht & Htt).
  unfold _enter_steam_guard_if_necessary.
  unfold bind at 1, lift at 1. rewrite Hj.
  unfold bind at 1, lift at 1. rewrite Hs, Hsf.
  unfold bind at 1, lift at 1. rewrite Ht, Htt. reflexivity.
Qed.

(** The email branch, taken when two-factor is not requested. *)
Lemma _enter_steam_guard_email login_response body self :
  json login_response = Ok body ->
  field_is body "success" false ->
  field_is body "requires_twofactor" false ->
  field_is body "emailauth_needed" true ->
  _enter_steam_guard_if_necessary env login_response self
  = bind (call_email_callback env) (fun code =>
    bind (fun self => (Ok tt, set_email_auth code self)) (fun _ =>
    _send_login_request env)) self.
Proof.
  intros Hj (s & Hs & Hsf) (t & Ht & Htt) (m & Hm & Hmt).
  unfold _enter_steam_guard_if_necessary.
  unfold bind at 1, lift at 1. rewrite Hj.
  unfold bind at 1, lift at 1. rewrite Hs, Hsf.
  unfold bind at 1, lift at 1. rewrite Ht, Htt.
  unfold bind at 1, lift at 1. rewrite Hm, Hmt. reflexivity.
Qed.

(** The captcha check passes on a JSON object that does not ask for a
    captcha. *)
Lemma _check_for_captcha_passes login_response body (s : LoginExecutor World) v :
  json login_response = Ok body ->
  subscript body "success" = Ok v ->
  ~ captcha_signaled body ->
  _check_for_captcha login_response s = (Ok tt, s).
Proof.
  intros Hj Hv Hcap. unfold _check_for_captcha, bind, lift. rewrite Hj.
  unfold subscript in Hv. destruct body as [| | | | | |d]; try discriminate.
  unfold get_default.
  destruct (dict_get d "captcha_needed") as [c|] eqn:Hc; [|reflexivity].
  destruct (truthy c) eqn:Hct; [|reflexivity].
  destruct Hcap. exists c. unfold get_default. now rewrite Hc.
Qed.

(** The steam-guard step runs once in a login, on the first response:
    what it returns is the final response. *)
Lemma final_login_response_first self0 login_response body s1 v :
  _send_login_request env (snd (_set_steamauth_cookies self0))
  = (Ok login_response, s1) ->
  json login_response = Ok body ->
  subscript body "success" = Ok v ->
  ~ captcha_signaled body ->
  final_login_response env self0
  = _enter_steam_guard_if_necessary env login_response s1.
Proof.
  intros Hsend Hj Hv Hcap. unfold final_login_response.
  unfold bind at 1.
  destruct (_set_steamauth_cookies self0) as [[[]|ex] s0] eqn:Hs0;
    [|discriminate].
  simpl in Hsend. rewrite (bind_ok _ _ _ Hsend).
  now rewrite (bind_ok _ _ _ (@_check_for_captcha_passes login_response body s1 v Hj Hv Hcap)).
Qed.

(** C1 (amended). When the response handed to the steam-guard step - the
    first response of a login - has success false and requires_twofactor
    true, the executor generates one code from the shared secret, stores
    it, and sends the login request again exactly once: the outcome of the
    step is the outcome of that one request, whatever the response says,
    and it is the final response of the login.  The step makes one to six
    calls to the key endpoint and then at most one login POST, which
    carries the new code. *)
Theorem two_factor_single_resubmission
    (self : LoginExecutor World) login_response body code w :
  json login_response = Ok body ->
  field_is body "success" false ->
  field_is body "requires_twofactor" true ->
  generate_one_time_code env (shared_secret self) (world self) = (Ok code, w) ->
  _enter_steam_guard_if_necessary env login_response self
  = _send_login_request env (after_code_generation code w self) /\
  (forall self0 : LoginExecutor World,
     _send_login_request env (snd (_set_steamauth_cookies self0))
     = (Ok login_response, self) ->
     ~ captcha_signaled body ->
     final_login_response env self0
     = _send_login_request env (after_code_generation code w self)) /\
  exists r self',
    _enter_steam_guard_if_necessary env login_response self = (r, self') /\
    one_time_code self' = code /\
    exists m, (1 <= m <= 6)%nat /\
      ((trace self'
        = (trace self ++ EvGenerateCode (shared_secret self)
             :: repeat (key_post (username self)) m)%list /\
        exists ex, r = Raise ex) \/
       (exists data,
          trace self'
          = (trace self ++ EvGenerateCode (shared_secret self)
               :: repeat (key_post (username self)) m ++ [login_post data])%list /\
          dict_get data "twofactorcode" = Some (VStr code))).
Proof.
  intros Hj Hs Ht Hgen.
  assert (Hstep : _enter_steam_guard_if_necessary env login_response self
                  = _send_login_request env (after_code_generation code w self)).
  { rewrite (@_enter_steam_guard_two_factor login_response body self Hj Hs Ht).
    unfold bind at 1, call_generate_one_time_code. rewrite Hgen.
    reflexivity. }
  split; [exact Hstep|]. split.
  { intros self0 Hsend Hcap. destruct Hs as (v & Hv & _).
    now rewrite (@final_login_response_first self0 login_response body self v
                   Hsend Hj Hv Hcap). }
  rewrite Hstep. unfold after_code_generation.
  set (self1 := set_one_time_code code
                  (after_call w [EvGenerateCode (shared_secret self)] self)).
  destruct (_send_login_request env self1) as [r self'] eqn:Hsend.
  exists r, self'. split; [reflexivity|].
  apply _send_login_request_trace in Hsend as (Hcfg & Hcd & m & Hm & Hshape).
  split; [destruct Hcd as [<- _]; reflexivity|].
  exists m. split; [assumption|].
  destruct Hshape as [(Htr & Hex) | (data & Htr & Hform)]; [left | right].
  - split; [|assumption]. rewrite Htr. simpl. now rewrite <- app_assoc.
  - exists data. split.
    + rewrite Htr. simpl. now rewrite <- app_assoc.
    + now destruct Hform as (_ & Hc & _).
Qed.

(** C8 (amended). When the response handed to the steam-guard step - the
    first response of a login - has success false and emailauth_needed
    true: if requires_twofactor is false, the email callback is invoked
    exactly once, and when it returns a code that code is stored and the
    login request is sent again once, carrying it; the outcome of that
    request is the outcome of the step and the final response of the
    login.  If requires_twofactor is true, the two-factor branch is taken
    and the email callback is not invoked. *)
Theorem email_auth_resubmission
    (self : LoginExecutor World) login_response body :
  json login_response = Ok body ->
  field_is body "success" false ->
  field_is body "emailauth_needed" true ->
  (field_is body "requires_twofactor" false ->
   (forall code w,
      auth_callback env (world self) = (Ok code, w) ->
      _enter_steam_guard_if_necessary env login_response self
      = _send_login_request env (after_email_callback code w self)) /\
   (forall self0 : LoginExecutor World,
      _send_login_request env (snd (_set_steamauth_cookies self0))
      = (Ok login_response, self) ->
      ~ captcha_signaled body ->
      final_login_response env self0
      = _enter_steam_guard_if_necessary env login_response self) /\
   forall r self',
     _enter_steam_guard_if_necessary env login_response self = (r, self') ->
     email_callbacks (trace self') = (email_callbacks (trace self) + 1)%nat /\
     forall code w,
       auth_callback env (world self) = (Ok code, w) ->
       email_auth self' = code /\
       exists m, (1 <= m <= 6)%nat /\
         ((trace self'
           = (trace self ++ EvEmailCallback
                :: repeat (key_post (username self)) m)%list /\
           exists ex, r = Raise ex) \/
          (exists data,
             trace self'
             = (trace self ++ EvEmailCallback
                  :: repeat (key_post (username self)) m ++ [login_post data])%list /\
             dict_get data "emailauth" = Some code))) /\
  (field_is body "requires_twofactor" true ->
   forall r self',
     _enter_steam_guard_if_necessary env login_response self = (r, self') ->
     email_callbacks (trace self') = email_callbacks (trace self) /\
     email_auth self' = email_auth self).
Proof.
  intros Hj Hs He. split.
  - intros Ht. split; [|split].
    { intros code w Hcb.
      rewrite (@_enter_steam_guard_email login_response body self Hj Hs Ht He).
      unfold bind at 1, call_email_callback. now rewrite Hcb. }
    { intros self0 Hsend Hcap. destruct Hs as (v & Hv & _).
      exact (@final_login_response_first self0 login_response body self v
               Hsend Hj Hv Hcap). }
    intros r self'.
    rewrite (@_enter_steam_guard_email login_response body self Hj Hs Ht He).
    unfold bind at 1, call_email_callback.
    destruct (auth_callback env (world self)) as [[code|ex] w] eqn:Hcb.
    + unfold bind at 1.
      set (self1 := set_email_auth code (after_call w [EvEmailCallback] self)).
      intros Hsend. split.
      * apply _send_login_request_email_callbacks in Hsend. rewrite Hsend.
        simpl. count_events.
      * intros code' w' Heq. inversion Heq; subst code' w'.
        apply _send_login_request_trace in Hsend
          as (Hcfg & Hcd & m & Hm & Hshape).
        split; [destruct Hcd as [_ <-]; reflexivity|].
        exists m. split; [assumption|].
        destruct Hshape as [(Htr & Hex) | (data & Htr & Hform)]; [left | right].
        -- split; [|assumption]. rewrite Htr. simpl. now rewrite <- app_assoc.
        -- exists data. split.
           ++ rewrite Htr. simpl. now rewrite <- app_assoc.
           ++ now destruct Hform as (_ & _ & Hc).
    + intros H. inversion H; subst. simpl. split.
      * count_events.
      * intros code w' Heq. discriminate.
  - intros Ht r self'.
    rewrite (@_enter_steam_guard_two_factor login_response body self Hj Hs Ht).
    unfold bind at 1, call_generate_one_time_code.
    destruct (generate_one_time_code env (shared_secret self) (world self))
      as [[code|ex] w].
    + unfold bind at 1. intros Hsend. split.
      * apply _send_login_request_email_callbacks in Hsend. rewrite Hsend.
        simpl. count_events.
      * apply _send_login_request_trace in Hsend as (_ & [_ <-] & _).
        reflexivity.
    + intros H. inversion H; subst. simpl. split; [|reflexivity].
      count_events.
Qed.

(** ** The whole login *)

Lemma lift_inv {A} (x : result A) (self : LoginExecutor World) r self' :
  lift x self = (r, self') -> r = x /\ self' = self.
Proof. unfold lift. intros H. now inversion H. Qed.

Lemma _check_for_captcha_state login_response (self : LoginExecutor World) r self' :
  _check_for_captcha login_response self = (r, self') -> self' = self.
Proof.
  unfold _check_for_captcha, bind, lift, raise, ret.
  destruct (json login_response) as [body|ex]; [|now inversion 1].
  destruct (get_default body "captcha_needed" (VBool false)) as [c|ex];
    [|now inversion 1].
  destruct (truthy c); now inversion 1.
Qed.

Lemma _assert_valid_credentials_state login_response
    (self : LoginExecutor World) r self' :
  _assert_valid_credentials login_response self = (r, self') -> self' = self.
Proof.
  unfold _assert_valid_credentials, bind, lift, raise, ret.
  destruct (json login_response) as [body|ex]; [|now inversion 1].
  destruct (subscript body "success") as [v|ex]; [|now inversion 1].
  destruct (truthy v); simpl; [now inversion 1|].
  destruct (subscript body "message"); now inversion 1.
Qed.

Lemma _enter_steam_guard_frame login_response self r self' :
  _enter_steam_guard_if_necessary env login_response self = (r, self') ->
  same_config self self'.
Proof.
  unfold _enter_steam_guard_if_necessary. intros H.
  apply bind_inv in H as [(body & s1 & Hl & H) | (ex & Hl & ->)];
    apply lift_inv in Hl as [_ ->]; [|apply same_config_refl].
  apply bind_inv in H as [(v & s1 & Hl & H) | (ex & Hl & ->)];
    apply lift_inv in Hl as [_ ->]; [|apply same_config_refl].
  destruct (truthy v); [inversion H; apply same_config_refl|].
  apply bind_inv in H as [(t & s1 & Hl & H) | (ex & Hl & ->)];
    apply lift_inv in Hl as [_ ->]; [|apply same_config_refl].
  destruct (truthy t).
  - apply bind_inv in H as [(code & s1 & Hg & H) | (ex & Hg & ->)];
      unfold call_generate_one_time_code in Hg;
      destruct (generate_one_time_code env _ _) as [r0 w];
      inversion Hg; subst; [|frame].
    apply bind_inv in H as [(u & s2 & Hset & H) | (ex & Hset & ->)];
      inversion Hset; subst.
    apply _send_login_request_trace in H as (Hcfg & _). frame.
  - apply bind_inv in H as [(m & s1 & Hl & H) | (ex & Hl & ->)];
      apply lift_inv in Hl as [_ ->]; [|apply same_config_refl].
    destruct (truthy m); [|inversion H; apply same_config_refl].
    apply bind_inv in H as [(code & s1 & Hg & H) | (ex & Hg & ->)];
      unfold call_email_callback in Hg;
      destruct (auth_callback env _) as [r0 w];
      inversion Hg; subst; [|frame].
    apply bind_inv in H as [(u & s2 & Hset & H) | (ex & Hset & ->)];
      inversion Hset; subst.
    apply _send_login_request_trace in H as (Hcfg & _). frame.
Qed.

Lemma final_login_response_frame self r self2 :
  final_login_response env self = (r, self2) -> same_config self self2.
Proof.
  unfold final_login_response. intros H.
  destruct (_set_steamauth_cookies_spec self) as (s0 & Hs0 & _ & _ & Hcfg0 & _).
  rewrite (bind_ok _ _ _ Hs0) in H.
  apply bind_inv in H as [(r1 & s1 & Hsend & H) | (ex & Hsend & ->)];
    apply _send_login_request_trace in Hsend as (Hcfg1 & _);
    [|eapply same_config_trans; eauto].
  apply bind_inv in H as [(u & s1' & Hc & H) | (ex & Hc & ->)];
    apply _check_for_captcha_state in Hc as ->;
    [|eapply same_config_trans; eauto].
  apply _enter_steam_guard_frame in H.
  eapply same_config_trans; [|eassumption]. eapply same_config_trans; eauto.
Qed.

Lemma bind_assoc {A B C} (m : @M World A) (k : A -> @M World B)
    (h : B -> @M World C) self :
  bind (bind m k) h self = bind m (fun a => bind (k a) h) self.
Proof.
  unfold bind. destruct (m self) as [[a|ex] self1]; reflexivity.
Qed.

Lemma login_eq self :
  login env self = bind (final_login_response env) (finish_login env) self.
Proof.
  unfold login, final_login_response, finish_login, bind.
  destruct (_set_steamauth_cookies self) as [[[]|ex] s0]; [|reflexivity].
  destruct (_send_login_request env s0) as [[r1|ex] s1]; [|reflexivity].
  destruct (_check_for_captcha r1 s1) as [[[]|ex] s2]; [|reflexivity].
  destruct (_enter_steam_guard_if_necessary env r1 s2) as [[r2|ex] s3];
    reflexivity.
Qed.

(** What the steam-guard step can do: nothing; call one of the two code
    sources, which raises; or call one of them, store its code and send
    one login request. *)
Lemma _enter_steam_guard_outcomes login_response self res self' :
  _enter_steam_guard_if_necessary env login_response self = (res, self') ->
  (self' = self /\ (res = Ok login_response \/ exists ex, res = Raise ex)) \/
  (exists call,
     (call = EvGenerateCode (shared_secret self) \/ call = EvEmailCallback) /\
     trace self' = (trace self ++ [call])%list /\
     (exists ex, res = Raise ex) /\
     same_config self self' /\ same_codes self self') \/
  (exists call s1,
     _send_login_request env s1 = (res, self') /\
     trace s1 = (trace self ++ [call])%list /\
     same_config self s1 /\
     ((call = EvGenerateCode (shared_secret self) /\
       email_auth s1 = email_auth self) \/
      (call = EvEmailCallback /\ one_time_code s1 = one_time_code self))).
Proof.
  unfold _enter_steam_guard_if_necessary. intros H.
  apply bind_inv in H as [(body & s1 & Hl & H) | (ex & Hl & ->)];
    apply lift_inv in Hl as [_ ->]; [|left; split; [reflexivity | right; now eexists]].
  apply bind_inv in H as [(v & s1 & Hl & H) | (ex & Hl & ->)];
    apply lift_inv in Hl as [_ ->]; [|left; split; [reflexivity | right; now eexists]].
  destruct (truthy v); [inversion H; left; split; [reflexivity | now left]|].
  apply bind_inv in H as [(t & s1 & Hl & H) | (ex & Hl & ->)];
    apply lift_inv in Hl as [_ ->]; [|left; split; [reflexivity | right; now eexists]].
  destruct (truthy t).
  - right.
    apply bind_inv in H as [(code & s1 & Hg & H) | (ex & Hg & ->)];
      unfold call_generate_one_time_code in Hg;
      destruct (generate_one_time_code env _ _) as [r0 w];
      inversion Hg; subst.
    + right. apply bind_inv in H as [(u & s2 & Hset & H) | (ex & Hset & Hex)];
        inversion Hset; subst.
      exists (EvGenerateCode (shared_secret self)). eexists.
      split; [exact H|]. split; [reflexivity|]. split; [frame|].
      left. split; reflexivity.
    + left. exists (EvGenerateCode (shared_secret self)).
      split; [now left|]. split; [reflexivity|].
      split; [now eexists|]. frame.
  - apply bind_inv in H as [(m & s1 & Hl & H) | (ex & Hl & ->)];
      apply lift_inv in Hl as [_ ->]; [|left; split; [reflexivity | right; now eexists]].
    destruct (truthy m); [|inversion H; left; split; [reflexivity | now left]].
    right.
    apply bind_inv in H as [(code & s1 & Hg & H) | (ex & Hg & ->)];
      unfold call_email_callback in Hg;
      destruct (auth_callback env _) as [r0 w];
      inversion Hg; subst.
    + right. apply bind_inv in H as [(u & s2 & Hset & H) | (ex & Hset & Hex)];
        inversion Hset; subst.
      exists EvEmailCallback. eexists.
      split; [exact H|]. split; [reflexivity|]. split; [frame|].
      right. split; reflexivity.
    + left. exists EvEmailCallback.
      split; [now right|]. split; [reflexivity|].
      split; [now eexists|]. frame.
Qed.

(** *** Counting the requests *)








(** ** Captcha *)

(** C2 (amended). When the first login response of an attempt has a true
    captcha_needed, the login raises CaptchaRequired at once: the login
    POST that got this response is the only one of the attempt, and no
    other request follows (no resubmission, no redirect POST).  A
    response to a resubmitted request is not checked for a captcha. *)
Theorem captcha_on_first_response
    (self : LoginExecutor World) login_response self1 body :
  _send_login_request env (snd (_set_steamauth_cookies self))
  = (Ok login_response, self1) ->
  json login_response = Ok body ->
  captcha_signaled body ->
  login env self = (Raise (CaptchaRequired "Captcha required"), self1) /\
  exists m data,
    trace self1 = (trace self ++ repeat (key_post (username self)) m
                     ++ [login_post data])%list.
Proof.
  intros Hsend Hj (c & Hc & Hct).
  destruct (_set_steamauth_cookies_spec self) as (s0 & Hs0 & Htr0 & _ & Hcfg0 & _).
  rewrite Hs0 in Hsend. simpl in Hsend. split.
  - unfold login. rewrite (bind_ok _ _ _ Hs0), (bind_ok _ _ _ Hsend).
    apply bind_raise.
    unfold _check_for_captcha, bind, lift. now rewrite Hj, Hc, Hct.
  - apply _send_login_request_trace in Hsend
      as (_ & _ & m & _ & [(_ & ex & Hex) | (data & Htr & _)]);
      [discriminate|].
    exists m, data. rewrite Htr, Htr0.
    replace (username s0) with (username self) by frame. reflexivity.
Qed.

(** ** Credentials *)

Lemma _assert_valid_credentials_ok_iff login_response (self : LoginExecutor World) :
  fst (_assert_valid_credentials login_response self) = Ok tt
  <-> reports_success login_response = true.
Proof.
  unfold _assert_valid_credentials, reports_success, bind, lift, raise, ret.
  destruct (json login_response) as [body|ex]; simpl; [|split; discriminate].
  destruct (subscript body "success") as [v|ex]; simpl; [|split; discriminate].
  destruct (truthy v); simpl; [tauto|].
  destruct (subscript body "message"); simpl; split; discriminate.
Qed.

(** C7. On the final login response (the one challenge resolution
    returns, the captcha check having passed): the credentials check
    raises an error exactly when the response does not report success;
    and when the response has success false and a message field, the login
    raises InvalidCredentials carrying that message, with nothing done
    after the final response. *)
Theorem invalid_credentials_on_final_failure
    (self : LoginExecutor World) login_response self2 :
  final_login_response env self = (Ok login_response, self2) ->
  ((exists ex, fst (_assert_valid_credentials login_response self2) = Raise ex)
   <-> reports_success login_response = false) /\
  (reports_success login_response = false ->
   exists ex, login env self = (Raise ex, self2)) /\
  (forall body message,
     json login_response = Ok body ->
     field_is body "success" false ->
     subscript body "message" = Ok message ->
     login env self = (Raise (InvalidCredentials message), self2)).
Proof.
  intros Hfinal.
  assert (Hiff : (exists ex,
                    fst (_assert_valid_credentials login_response self2) = Raise ex)
                 <-> reports_success login_response = false).
  { pose proof (_assert_valid_credentials_ok_iff login_response self2) as Hok.
    destruct (fst (_assert_valid_credentials login_response self2)) as [[]|ex].
    - split.
      + intros [ex Hex]. discriminate.
      + intros Hf. rewrite (proj1 Hok eq_refl) in Hf. discriminate.
    - split.
      + intros _. destruct (reports_success login_response); [|reflexivity].
        destruct Hok as [_ Hok]. specialize (Hok eq_refl). discriminate.
      + intros _. now exists ex. }
  split; [exact Hiff|]. split.
  - intros Hf. apply Hiff in Hf as [ex Hex].
    destruct (_assert_valid_credentials login_response self2) as [r s] eqn:Ha.
    pose proof (_assert_valid_credentials_state _ _ Ha) as ->.
    simpl in Hex. subst r. exists ex.
    rewrite login_eq, (bind_ok _ _ _ Hfinal). unfold finish_login.
    now apply bind_raise.
  - intros body message Hj (v & Hv & Hvt) Hm.
    rewrite login_eq, (bind_ok _ _ _ Hfinal). unfold finish_login.
    apply bind_raise.
    unfold _assert_valid_credentials, bind, lift, raise.
    now rewrite Hj, Hv, Hvt, Hm.
Qed.

(** ** Redirects *)

(** The loop posts to the URLs in order and stops at the first POST that
    raises. *)
Lemma post_each_trace parameters urls : forall (self : LoginExecutor World) r self',
  post_each env urls parameters self = (r, self') ->
  same_config self self' /\
  exists k, (k <= List.length urls)%nat /\
    trace self'
    = (trace self ++ map (fun url => EvPost url parameters) (firstn k urls))%list /\
    (r = Ok tt -> k = List.length urls).
Proof.
  induction urls as [|url urls IH]; intros self r self' H; simpl in H.
  - inversion H; subst. split; [apply same_config_refl|].
    exists 0%nat. simpl. rewrite app_nil_r. auto.
  - apply bind_inv in H as [(resp & s1 & Hp & H) | (ex & Hp & ->)];
      apply session_post_spec in Hp as (Htr & Hcfg & _).
    + apply IH in H as (Hcfg' & k & Hk & Htr' & Hall).
      split; [eapply same_config_trans; eauto|].
      exists (S k). simpl. split; [lia|]. split.
      * rewrite Htr', Htr, <- app_assoc. reflexivity.
      * intros Hr. now rewrite (Hall Hr).
    + split; [assumption|]. exists 1%nat. simpl. split; [lia|]. split.
      * assumption.
      * discriminate.
Qed.

Lemma set_sessionid_cookies_trace (self : LoginExecutor World) r self' :
  set_sessionid_cookies self = (r, self') -> trace self' = trace self.
Proof.
  unfold set_sessionid_cookies.
  destruct (dict_get (CookieJar.get_dict (cookies self)) "sessionid");
    now inversion 1.
Qed.

(** C5. After a final response that reports success and carries
    transfer_parameters and the list transfer_urls, what the login does
    next is: the save callback, if one is configured, and then one POST
    per entry of transfer_urls, in the order of the list, each carrying
    exactly transfer_parameters.  A POST that fails ends the login: the
    POSTs made are then a prefix of the list, none repeated.  A login that
    succeeds has posted to every entry exactly once. *)
Theorem redirects_post_each_url_once
    (self : LoginExecutor World) login_response self2 body parameters urls
    res self' :
  final_login_response env self = (Ok login_response, self2) ->
  json login_response = Ok body ->
  field_is body "success" true ->
  subscript body "transfer_parameters" = Ok parameters ->
  parameters <> VNone ->
  subscript body "transfer_urls" = Ok (VList urls) ->
  login env self = (res, self') ->
  exists k, (k <= List.length urls)%nat /\
    trace self'
    = (trace self2
         ++ (if saveCallback_callable self
             then [EvSaveCallback parameters] else [])
         ++ map (fun url => EvPost url parameters) (firstn k urls))%list /\
    (forall jar, res = Ok jar -> k = List.length urls).
Proof.
  intros Hfinal Hj (v & Hv & Hvt) Hp Hnone Hu Hlogin.
  pose proof (final_login_response_frame _ Hfinal) as Hcfg.
  rewrite login_eq, (bind_ok _ _ _ Hfinal) in Hlogin.
  unfold finish_login in Hlogin.
  assert (Hassert : _assert_valid_credentials login_response self2 = (Ok tt, self2)).
  { unfold _assert_valid_credentials, bind, lift, ret.
    now rewrite Hj, Hv, Hvt. }
  rewrite (bind_ok _ _ _ Hassert) in Hlogin.
  replace (saveCallback_callable self) with (saveCallback_callable self2) by frame.
  assert (Hget : get_default body "transfer_parameters" VNone = Ok parameters).
  { unfold subscript in Hp. unfold get_default.
    destruct body; try discriminate.
    destruct (dict_get d "transfer_parameters"); [assumption | discriminate]. }
  assert (Hredirect : forall s3 r4 s4,
             _perform_redirects env body s3 = (r4, s4) ->
             exists k, (k <= List.length urls)%nat /\
               trace s4 = (trace s3 ++ map (fun url => EvPost url parameters)
                                          (firstn k urls))%list /\
               (r4 = Ok tt -> k = List.length urls)).
  { intros s3 r4 s4. unfold _perform_redirects.
    unfold bind at 1, lift at 1. rewrite Hget.
    assert (Hloop : bind (lift (subscript body "transfer_urls")) (fun transfer_urls =>
                    bind (lift (iterate transfer_urls)) (fun urls0 =>
                    post_each env urls0 parameters)) s3
                    = post_each env urls parameters s3).
    { unfold bind at 1, lift at 1. rewrite Hu. reflexivity. }
    destruct parameters; try contradiction; rewrite Hloop; intros Hpost;
      apply post_each_trace in Hpost as (_ & k & Hk); now exists k. }
  assert (Hrest : forall s3,
             bind (lift (Ok body)) (fun response_dict =>
             bind (_perform_redirects env response_dict) (fun _ =>
             bind (set_sessionid_cookies (World:=World)) (fun _ =>
             fun self => (Ok (cookies self), self)))) s3 = (res, self') ->
             exists k, (k <= List.length urls)%nat /\
               trace self' = (trace s3 ++ map (fun url => EvPost url parameters)
                                            (firstn k urls))%list /\
               (forall jar, res = Ok jar -> k = List.length urls)).
  { intros s3 H. unfold bind at 1, lift at 1 in H.
    apply bind_inv in H as [([] & s4 & Hr & H) | (ex & Hr & ->)];
      apply Hredirect in Hr as (k & Hk & Htr & Hall).
    - exists k. split; [assumption|].
      apply bind_inv in H as [([] & s5 & Hc & H) | (ex & Hc & ->)];
        apply set_sessionid_cookies_trace in Hc.
      + inversion H; subst. split; [congruence | auto].
      + split; [congruence | auto].
    - exists k. split; [assumption|]. split; [assumption | discriminate]. }
  unfold _save_steam_auth in Hlogin. unfold bind at 1 in Hlogin.
  destruct (saveCallback_callable self2).
  - unfold bind at 1, lift at 1 in Hlogin. rewrite Hj in Hlogin.
    unfold bind at 1, lift at 1 in Hlogin. rewrite Hp in Hlogin.
    unfold call_saveCallback in Hlogin.
    destruct (save_callback env parameters (world self2)) as [[[]|ex] w].
    + apply Hrest in Hlogin as (k & Hk & Htr & Hall).
      exists k. split; [assumption|]. split; [|assumption].
      rewrite Htr. simpl. now rewrite <- app_assoc.
    + inversion Hlogin; subst. exists 0%nat. simpl.
      split; [lia|]. split; [reflexivity | discriminate].
  - unfold ret in Hlogin. rewrite Hj in Hlogin.
    apply Hrest in Hlogin as (k & Hk & Htr & Hall).
    exists k. split; [assumption|]. split; [|assumption].
    rewrite Htr. reflexivity.
Qed.

(** ** A successful response without transfer parameters *)

(** Where the login stops: in the save step when a callback is
    configured, in the redirect step otherwise; in both cases nothing is
    done after the final response. *)
Lemma finish_login_without_parameters login_response body
    (self2 : LoginExecutor World) :
  json login_response = Ok body ->
  field_is body "success" true ->
  field_absent body "transfer_parameters" ->
  finish_login env login_response self2
  = (Raise (if saveCallback_callable self2
            then KeyError "transfer_parameters" else redirect_error), self2).
Proof.
  intros Hj (v & Hv & Hvt) (d & -> & Hnone).
  unfold finish_login.
  assert (Hassert : _assert_valid_credentials login_response self2 = (Ok tt, self2)).
  { unfold _assert_valid_credentials, bind, lift, ret.
    now rewrite Hj, Hv, Hvt. }
  rewrite (bind_ok _ _ _ Hassert).
  unfold _save_steam_auth. unfold bind at 1.
  destruct (saveCallback_callable self2).
  - unfold bind, lift. rewrite Hj. simpl. now rewrite Hnone.
  - unfold ret. unfold bind at 1, lift at 1. rewrite Hj.
    apply bind_raise. unfold _perform_redirects, bind, lift. simpl.
    now rewrite Hnone.
Qed.

(** Without a save callback, a final response that reports success but
    has no transfer_parameters field makes the login raise the redirect
    error, and nothing is done after the final response: no redirect POST
    is made.  This is the path on which the guard of [_perform_redirects]
    is reached. *)
Lemma redirect_error_without_parameters
    (self : LoginExecutor World) login_response self2 body :
  final_login_response env self = (Ok login_response, self2) ->
  json login_response = Ok body ->
  field_is body "success" true ->
  field_absent body "transfer_parameters" ->
  saveCallback_callable self = false ->
  login env self = (Raise redirect_error, self2).
Proof.
  intros Hfinal Hj Hs Habs Hcb.
  pose proof (final_login_response_frame _ Hfinal) as Hcfg.
  rewrite login_eq, (bind_ok _ _ _ Hfinal).
  rewrite (finish_login_without_parameters _ self2 Hj Hs Habs).
  replace (saveCallback_callable self2) with false by frame. reflexivity.
Qed.

(** C10. When a save callback is configured and the final response
    reports success but has no transfer_parameters field, the login fails
    in the save step, with the key-lookup error on transfer_parameters:
    the callback is not invoked and the redirect step is not reached.  So,
    for such a response, the login ends with the redirect error exactly
    when no save callback is configured. *)
Theorem save_step_fails_before_redirects
    (self : LoginExecutor World) login_response self2 body :
  final_login_response env self = (Ok login_response, self2) ->
  json login_response = Ok body ->
  field_is body "success" true ->
  field_absent body "transfer_parameters" ->
  (saveCallback_callable self = true ->
   login env self = (Raise (KeyError "transfer_parameters"), self2)) /\
  (fst (login env self) = Raise redirect_error
   <-> saveCallback_callable self = false).
Proof.
  intros Hfinal Hj Hs Habs.
  pose proof (final_login_response_frame _ Hfinal) as Hcfg.
  rewrite login_eq, (bind_ok _ _ _ Hfinal).
  rewrite (finish_login_without_parameters _ self2 Hj Hs Habs).
  replace (saveCallback_callable self2) with (saveCallback_callable self) by frame.
  destruct (saveCallback_callable self); simpl.
  - split; [reflexivity|]. split; discriminate.
  - split; [discriminate|]. split; reflexivity.
Qed.

(** ** The session identifier *)

Lemma set_sessionid_cookies_spec (self : LoginExecutor World) self' :
  set_sessionid_cookies self = (Ok tt, self') ->
  exists sessionid,
    dict_get (CookieJar.get_dict (cookies self)) "sessionid" = Some sessionid /\
    self' = set_cookies (cookies self') self /\
    (forall s, sessionid = Some s ->
       CookieJar.lookup (cookies self') "steamcommunity.com" "/" "sessionid"
       = Some (Some (CookieJar.stored_value s)) /\
       CookieJar.lookup (cookies self') "store.steampowered.com" "/" "sessionid"
       = Some (Some (CookieJar.stored_value s))) /\
    (sessionid = None -> forall p,
       CookieJar.lookup (cookies self') "steamcommunity.com" p "sessionid" = None /\
       CookieJar.lookup (cookies self') "store.steampowered.com" p "sessionid"
       = None).
Proof.
  unfold set_sessionid_cookies.
  destruct (dict_get (CookieJar.get_dict (cookies self)) "sessionid")
    as [sessionid|]; [|discriminate].
  intros H. inversion H; subst. exists sessionid. simpl.
  split; [reflexivity|]. split; [reflexivity|]. split.
  - intros s ->. unfold CookieJar.set, CookieJar.set_cookie. simpl. split.
    + rewrite jar_lookup_store_other_domain by discriminate.
      apply jar_lookup_store_same.
    + apply jar_lookup_store_same.
  - intros -> p. unfold CookieJar.set. split.
    + rewrite jar_lookup_remove_other by (right; left; reflexivity).
      now apply jar_lookup_remove_same.
    + now apply jar_lookup_remove_same.
Qed.

(** A login that returns has gone through every step of [finish_login],
    the last of which binds the session identifier. *)
Lemma finish_login_ok_inv final (s2 : LoginExecutor World) jar self' :
  finish_login env final s2 = (Ok jar, self') ->
  jar = cookies self' /\
  exists s4 body before,
    _assert_valid_credentials final s2 = (Ok tt, s2) /\
    _save_steam_auth env final s2 = (Ok tt, s4) /\
    json final = Ok body /\
    _perform_redirects env body s4 = (Ok tt, before) /\
    set_sessionid_cookies before = (Ok tt, self').
Proof.
  unfold finish_login. intros H.
  apply bind_inv in H as [([] & s3 & Ha & H) | (ex & _ & Hex)]; [|discriminate].
  pose proof (_assert_valid_credentials_state _ _ Ha) as ->.
  apply bind_inv in H as [([] & s4 & Hsave & H) | (ex & _ & Hex)]; [|discriminate].
  apply bind_inv in H as [(d & s5 & Hl & H) | (ex & _ & Hex)]; [|discriminate].
  apply lift_inv in Hl as [Hj ->].
  apply bind_inv in H as [([] & s6 & Hred & H) | (ex & _ & Hex)]; [|discriminate].
  apply bind_inv in H as [([] & s7 & Hset & H) | (ex & _ & Hex)]; [|discriminate].
  inversion H; subst. split; [reflexivity|].
  exists s4, d, s6. auto.
Qed.

(** C6 (amended). When the login completes, the session identifier the
    jar gave once the redirects were done has been bound: if that cookie
    has a value, the jar of the session returned has a sessionid cookie on
    the community domain and one on the store domain (path /), both with
    the same value, which is the identifier as the jar stores it - the
    identifier itself unless it is wrapped in double quotes, in which case
    its escaped quotes are dropped.  If that cookie has no value, the
    sessionid cookies of the two domains are removed instead. *)
Theorem sessionid_bound_to_both_domains
    (self : LoginExecutor World) jar self' :
  login env self = (Ok jar, self') ->
  jar = cookies self' /\
  exists sessionid before,
    set_sessionid_cookies before = (Ok tt, self') /\
    dict_get (CookieJar.get_dict (cookies before)) "sessionid" = Some sessionid /\
    (forall s, sessionid = Some s ->
       CookieJar.lookup jar (slice_from 8 COMMUNITY_URL) "/" "sessionid"
       = Some (Some (CookieJar.stored_value s)) /\
       CookieJar.lookup jar (slice_from 8 STORE_URL) "/" "sessionid"
       = Some (Some (CookieJar.stored_value s)) /\
       (CookieJar.startswith_quote s && CookieJar.endswith_quote s = false ->
        CookieJar.stored_value s = s)) /\
    (sessionid = None -> forall p,
       CookieJar.lookup jar (slice_from 8 COMMUNITY_URL) p "sessionid" = None /\
       CookieJar.lookup jar (slice_from 8 STORE_URL) p "sessionid" = None).
Proof.
  intros Hlogin. rewrite login_eq in Hlogin.
  apply bind_inv in Hlogin as [(r & s2 & _ & H) | (ex & _ & Hex)];
    [|discriminate].
  apply finish_login_ok_inv in H
    as (Hjar & s4 & body & before & _ & _ & _ & _ & Hset).
  split; [assumption|]. subst jar.
  destruct (set_sessionid_cookies_spec _ Hset)
    as (sessionid & Hget & _ & Hsome & Hnone).
  exists sessionid, before. split; [assumption|]. split; [assumption|].
  split; [|exact Hnone].
  intros s Hs. destruct (Hsome s Hs) as [Hc Hst].
  split; [exact Hc|]. split; [exact Hst|].
  intros Hplain. unfold CookieJar.stored_value. now rewrite Hplain.
Qed.

(** ** Further properties of the key fetch *)

(** X1. After up to five answers that lack a required field, the first
    complete answer is accepted: the fetch returns the key and timestamp
    parsed from it, having called the key endpoint once per answer. *)
Theorem fetch_returns_first_complete_answer j : forall k self v s' p,
  (k + j <= 5)%nat ->
  keys_lacking env j self ->
  request_rsa_key env (after_key_answers env j self) = (Ok v, s') ->
  parse_key_response env v = Ok p ->
  _fetch_rsa_params env k self = (Ok p, s') /\
  trace s' = (trace self ++ repeat (key_post (username self)) (S j))%list.
Proof.
  induction j as [|j IH]; intros k self v s' p Hk Hlack Hreq Hparse;
    rewrite _fetch_rsa_params_eq; unfold fetch_rsa_params_body.
  - simpl in Hreq. rewrite (bind_ok _ _ _ Hreq), Hparse. split; [reflexivity|].
    now apply request_rsa_key_spec in Hreq as (Htr & _).
  - destruct Hlack as (d & self1 & Hreq1 & Hhex & Hl & Hrest).
    simpl in Hreq. rewrite Hreq1 in Hreq. simpl in Hreq.
    rewrite (bind_ok _ _ _ Hreq1).
    destruct (parse_key_response_lacks_KeyError Hhex Hl) as [key ->].
    unfold maximal_number_of_repetitions.
    destruct (Nat.ltb_spec k 5) as [Hlt|Hge]; [|lia].
    destruct (IH (k + 1)%nat self1 v s' p ltac:(lia) Hrest Hreq Hparse)
      as [Hf Htr].
    split; [assumption|].
    apply request_rsa_key_spec in Hreq1 as (Htr1 & Hcfg & _).
    rewrite Htr, Htr1, <- app_assoc.
    replace (username self1) with (username self) by frame. reflexivity.
Qed.

(** X2. Only a missing field is retried.  A request that fails (transport
    error, body that is not JSON), an answer that is not a JSON object, and
    a modulus that is not a hexadecimal numeral - even when other fields
    are missing - each end the fetch at once, at any repetition, with that
    error and after that single call. *)
Theorem fetch_does_not_retry_other_errors k (self : LoginExecutor World) :
  (forall ex s1,
     request_rsa_key env self = (Raise ex, s1) ->
     _fetch_rsa_params env k self = (Raise ex, s1)) /\
  (forall v s1,
     request_rsa_key env self = (Ok v, s1) ->
     (forall d, v <> VDict d) ->
     _fetch_rsa_params env k self = (Raise TypeError, s1)) /\
  (forall d s1 numeral,
     request_rsa_key env self = (Ok (VDict d), s1) ->
     dict_get d "publickey_mod" = Some (VStr numeral) ->
     int_of_hex env numeral = None ->
     _fetch_rsa_params env k self
     = (Raise (ValueError "invalid literal for int() with base 16"), s1)) /\
  (forall r s1,
     request_rsa_key env self = (r, s1) ->
     trace s1 = (trace self ++ [key_post (username self)])%list).
Proof.
  rewrite _fetch_rsa_params_eq. unfold fetch_rsa_params_body.
  split; [|split; [|split]].
  - intros ex s1 Hreq. now apply bind_raise.
  - intros v s1 Hreq Hv. rewrite (bind_ok _ _ _ Hreq).
    destruct v; try reflexivity. now destruct (Hv d).
  - intros d s1 numeral Hreq Hm Hhex. rewrite (bind_ok _ _ _ Hreq).
    unfold parse_key_response, subscript, bind_result.
    now rewrite Hm, Hhex.
  - intros r s1 Hreq. now apply request_rsa_key_spec in Hreq.
Qed.

(** ** The form of a login request *)

(** X3. A login request that gets a response has fetched a key, encrypted
    the password under it, read the clock, and posted last, to the login
    endpoint, a form of exactly eleven fields: the encrypted password, the
    user name, the two codes of the executor as they were, the timestamp of
    the very answer the key came from, the clock in milliseconds, and
    fixed values - [loginfriendlyname] is sent empty (the second of the two
    entries of the source wins), [captchagid] is -1 and [remember_login]
    is false. *)
Theorem login_request_form (self : LoginExecutor World) response self' :
  _send_login_request env self = (Ok response, self') ->
  exists rsa_params s1 encrypted_password s2 m,
    _fetch_rsa_params env 0 self = (Ok rsa_params, s1) /\
    _encrypt_password env rsa_params s1 = (Ok encrypted_password, s2) /\
    (1 <= m <= 6)%nat /\
    trace self'
    = (trace self ++ repeat (key_post (username self)) m
         ++ [login_post
               (login_form (username self) encrypted_password
                  (one_time_code self) (email_auth self)
                  (rsa_timestamp rsa_params)
                  (fst (time_ms env (world s2))))])%list.
Proof.
  unfold _send_login_request. intros H.
  apply bind_inv in H as [(p & s1 & Hf & H) | (ex & _ & Hex)]; [|discriminate].
  apply bind_inv in H as [(c & s2 & He & H) | (ex & _ & Hex)]; [|discriminate].
  apply bind_inv in H as [(d & s3 & Hp & H) | (ex & _ & Hex)]; [|discriminate].
  pose proof (_fetch_rsa_params_trace _ _ Hf) as (m & Hm & Htr1 & Hcfg1 & Hcd1).
  pose proof (_encrypt_password_frame _ _ He) as (Htr2 & _ & Hcfg2 & Hcd2).
  exists p, s1, c, s2, m.
  split; [assumption|]. split; [assumption|]. split; [lia|].
  apply session_post_spec in H as (Htr & _). rewrite Htr.
  unfold _prepare_login_request_data in Hp.
  destruct (time_ms env (world s2)) as [now w]. inversion Hp; subst d s3.
  simpl. rewrite app_nil_r, Htr2, Htr1, <- app_assoc.
  replace (username s2) with (username self) by frame.
  replace (one_time_code s2) with (one_time_code self) by frame.
  replace (email_auth s2) with (email_auth self) by frame.
  reflexivity.
Qed.

(** ** Cookies *)

Lemma seed_cookies_fold (auth : dict (option string)) : forall jar,
  NoDup (map fst auth) ->
  (forall k v, In (k, Some v) auth ->
     CookieJar.lookup
       (fold_left (fun jar kv => CookieJar.set jar (fst kv) (snd kv) None) auth jar)
       "" "/" k = Some (Some (CookieJar.stored_value v))) /\
  (forall k, In (k, None) auth -> forall d p,
     CookieJar.lookup
       (fold_left (fun jar kv => CookieJar.set jar (fst kv) (snd kv) None) auth jar)
       d p k = None) /\
  (forall d p k, ~ In (k, None) auth ->
     d <> "" \/ p <> "/" \/ ~ In k (map fst auth) ->
     CookieJar.lookup
       (fold_left (fun jar kv => CookieJar.set jar (fst kv) (snd kv) None) auth jar)
       d p k = CookieJar.lookup jar d p k).
Proof.
  induction auth as [|[k0 v0] auth IH]; intros jar Hnd; cbn [fold_left fst snd].
  - split; [intros k v [] | split; [intros k [] | reflexivity]].
  - inversion Hnd as [|? ? Hnotin Hnd']; subst.
    destruct (IH (CookieJar.set jar k0 v0 None) Hnd') as (IHa & IHb & IHc).
    assert (Hfresh : forall v, ~ In (k0, v) auth).
    { intros v Hin. apply Hnotin. apply in_map_iff. now exists (k0, v). }
    split; [|split].
    + intros k v [Heq|Hin]; [|now apply IHa].
      inversion Heq; subst. rewrite IHc by (auto using Hfresh).
      unfold CookieJar.set, CookieJar.set_cookie. apply jar_lookup_store_same.
    + intros k [Heq|Hin] d p; [|now apply IHb].
      inversion Heq; subst. rewrite IHc by (auto using Hfresh).
      unfold CookieJar.set. now apply jar_lookup_remove_same.
    + intros d p k Hvalue Hother.
      rewrite IHc.
      * destruct v0 as [v|]; unfold CookieJar.set, CookieJar.set_cookie.
        -- apply jar_lookup_store_other.
           destruct Hother as [H|[H|H]];
             [left; congruence | right; left; congruence |].
           right; right. intros ->. apply H. now left.
        -- apply jar_lookup_remove_other. left. intros ->.
           apply Hvalue. now left.
      * intros Hin. apply Hvalue. now right.
      * destruct Hother as [H|[H|H]]; [tauto | tauto |].
        right; right. intros Hin. apply H. now right.
Qed.

(** X4. Seeding the pre-authentication cookies never fails and sends
    nothing.  Each entry of [steamAuth] with a value becomes a cookie of
    that name on the empty domain and path [/], holding the value as the
    jar stores it (a value wrapped in double quotes loses its escaped
    quotes); an entry whose value is None unsets the cookies of that name
    on every domain and path; no other cookie of the jar is touched. *)
Theorem steamauth_cookies_seeded (self : LoginExecutor World) :
  NoDup (map fst (steamAuth self)) ->
  exists s0,
    _set_steamauth_cookies self = (Ok tt, s0) /\
    (forall k v, In (k, Some v) (steamAuth self) ->
       CookieJar.lookup (cookies s0) "" "/" k
       = Some (Some (CookieJar.stored_value v))) /\
    (forall k, In (k, None) (steamAuth self) -> forall d p,
       CookieJar.lookup (cookies s0) d p k = None) /\
    (forall d p k, ~ In (k, None) (steamAuth self) ->
       d <> "" \/ p <> "/" \/ ~ In k (map fst (steamAuth self)) ->
       CookieJar.lookup (cookies s0) d p k = CookieJar.lookup (cookies self) d p k) /\
    trace s0 = trace self /\ world s0 = world self.
Proof.
  intros Hnd. eexists. split; [reflexivity|]. simpl.
  destruct (seed_cookies_fold (steamAuth self) (cookies self) Hnd)
    as (Ha & Hb & Hc).
  repeat split; assumption.
Qed.

(** X5. Binding the session identifier needs a cookie named sessionid:
    when the jar has none, on any domain, it raises KeyError('sessionid')
    and changes nothing; it raises nothing else; and one such cookie,
    wherever it is, is enough for it to succeed. *)
Theorem set_sessionid_cookies_needs_cookie (self : LoginExecutor World) :
  ((forall v, ~ In ("sessionid", v) (CookieJar.items (cookies self))) ->
   set_sessionid_cookies self = (Raise (KeyError "sessionid"), self)) /\
  (forall ex s',
     set_sessionid_cookies self = (Raise ex, s') ->
     ex = KeyError "sessionid" /\ s' = self /\
     forall d p, CookieJar.lookup (cookies self) d p "sessionid" = None) /\
  (forall d p v,
     CookieJar.lookup (cookies self) d p "sessionid" = Some v ->
     exists s', set_sessionid_cookies self = (Ok tt, s')).
Proof.
  unfold set_sessionid_cookies. rewrite get_dict_last_named.
  destruct (last_named "sessionid" (CookieJar.items (cookies self)))
    as [sessionid|] eqn:Hlast.
  - split; [|split].
    + intros Hnone. apply last_named_None in Hnone. congruence.
    + intros ex s' H. discriminate.
    + intros d p v _. now eexists.
  - pose proof (proj1 (last_named_None _ _) Hlast) as Hnone.
    split; [|split].
    + reflexivity.
    + intros ex s' H. inversion H; subst. split; [reflexivity|].
      split; [reflexivity|]. intros d p.
      destruct (CookieJar.lookup (cookies s') d p "sessionid") as [v|] eqn:Hl;
        [|reflexivity].
      apply jar_lookup_items in Hl. destruct (Hnone v Hl).
    + intros d p v Hl. apply jar_lookup_items in Hl. destruct (Hnone v Hl).
Qed.

(** X6. Binding the session identifier touches the sessionid cookies
    of the community and store domains only.  When the identifier has a
    value, cookies on other paths are untouched too; and when the jar
    stores that value as given (any value not wrapped in double quotes),
    the step is idempotent: [get_dict()] still gives the same sessionid
    and running the step again leaves the executor as it is. *)
Theorem set_sessionid_cookies_idempotent (self : LoginExecutor World) s1 :
  set_sessionid_cookies self = (Ok tt, s1) ->
  (forall d p k,
     k <> "sessionid" \/
     (d <> "steamcommunity.com" /\ d <> "store.steampowered.com") ->
     CookieJar.lookup (cookies s1) d p k = CookieJar.lookup (cookies self) d p k) /\
  (forall sessionid,
     dict_get (CookieJar.get_dict (cookies self)) "sessionid"
     = Some (Some sessionid) ->
     (forall d p, p <> "/" ->
        CookieJar.lookup (cookies s1) d p "sessionid"
        = CookieJar.lookup (cookies self) d p "sessionid") /\
     (CookieJar.stored_value sessionid = sessionid ->
      dict_get (CookieJar.get_dict (cookies s1)) "sessionid"
      = Some (Some sessionid) /\
      set_sessionid_cookies s1 = (Ok tt, s1))).
Proof.
  intros Hrun.
  destruct (set_sessionid_cookies_spec _ Hrun) as (v & Hget & _ & Hsome & _).
  unfold set_sessionid_cookies in Hrun. rewrite Hget in Hrun.
  injection Hrun as Hs1.
  assert (Hjar : cookies s1
                 = CookieJar.set
                     (CookieJar.set (cookies self) "sessionid" v
                        (Some "steamcommunity.com"))
                     "sessionid" v (Some "store.steampowered.com"))
    by (rewrite <- Hs1; reflexivity).
  split.
  - intros d p k H. rewrite Hjar.
    destruct v as [s|]; unfold CookieJar.set, CookieJar.set_cookie.
    + rewrite !jar_lookup_store_other; [reflexivity| |];
        destruct H as [H|[H1 H2]]; (right; right; congruence) || (left; congruence).
    + rewrite !jar_lookup_remove_other; [reflexivity| |];
        destruct H as [H|[H1 H2]];
        (left; congruence) ||
        (right; left; unfold CookieJar.matches; apply String.eqb_neq; congruence).
  - intros sessionid Hvalue. rewrite Hget in Hvalue.
    injection Hvalue as ->.
    assert (Hstored : cookies s1
                      = CookieJar.store
                          (CookieJar.store (cookies self) "sessionid"
                             (Some (CookieJar.stored_value sessionid))
                             "steamcommunity.com" "/")
                          "sessionid" (Some (CookieJar.stored_value sessionid))
                          "store.steampowered.com" "/")
      by (rewrite Hjar; reflexivity).
    split.
    + intros d p Hp. rewrite Hstored.
      rewrite !jar_lookup_store_other; [reflexivity| |]; right; left; congruence.
    + intros Hplain. rewrite Hplain in Hstored.
      destruct (Hsome sessionid eq_refl) as [Hc Hs]. rewrite Hplain in Hc, Hs.
      assert (Hget1 : dict_get (CookieJar.get_dict (cookies s1)) "sessionid"
                      = Some (Some sessionid)).
      { rewrite get_dict_last_named in *. rewrite Hstored.
        eapply refreshed_last_named; [apply store_refreshed|].
        eapply refreshed_last_named; [apply store_refreshed|].
        exact Hget. }
      split; [exact Hget1|].
      unfold set_sessionid_cookies. rewrite Hget1.
      change ((Ok tt,
               set_cookies
                 (CookieJar.store
                    (CookieJar.store (cookies s1) "sessionid"
                       (Some (CookieJar.stored_value sessionid))
                       "steamcommunity.com" "/")
                    "sessionid" (Some (CookieJar.stored_value sessionid))
                    "store.steampowered.com" "/") s1)
              = (Ok tt, s1)).
      rewrite Hplain.
      rewrite (jar_store_same _ _ _ _ Hc), (jar_store_same _ _ _ _ Hs).
      rewrite <- Hs1. reflexivity.
Qed.

(** ** The course of a login *)

(** X7. Challenge resolution sends at most two login requests, each
    after one to six calls to the key endpoint.  The first carries the
    codes the executor held when [login] was called; when there is a second
    one, exactly one of the code generator and the email callback was
    called in between, only the code of that source has changed, and the
    second request carries the codes as they then are.  Nothing else is
    sent or called before the final response. *)
Theorem challenge_resolution_trace (self : LoginExecutor World) final self2 :
  final_login_response env self = (Ok final, self2) ->
  exists m1 data1,
    (1 <= m1 <= 6)%nat /\ login_form_of self data1 /\
    ((trace self2
      = (trace self ++ repeat (key_post (username self)) m1
           ++ [login_post data1])%list /\
      same_codes self self2) \/
     (exists call m2 data2,
        (1 <= m2 <= 6)%nat /\ login_form_of self2 data2 /\
        trace self2
        = (trace self ++ repeat (key_post (username self)) m1
             ++ [login_post data1] ++ [call]
             ++ repeat (key_post (username self)) m2 ++ [login_post data2])%list /\
        ((call = EvGenerateCode (shared_secret self) /\
          email_auth self2 = email_auth self) \/
         (call = EvEmailCallback /\
          one_time_code self2 = one_time_code self)))).
Proof.
  unfold final_login_response. intros H.
  destruct (_set_steamauth_cookies_spec self)
    as (s0 & Hs0 & Htr0 & _ & Hcfg0 & Hcd0).
  rewrite (bind_ok _ _ _ Hs0) in H.
  apply bind_inv in H as [(r1 & s1 & Hsend & H) | (ex & _ & Hex)]; [|discriminate].
  apply bind_inv in H as [(u & s1' & Hc & H) | (ex & _ & Hex)]; [|discriminate].
  apply _check_for_captcha_state in Hc as ->.
  apply _send_login_request_trace in Hsend
    as (Hcfg1 & Hcd1 & m1 & Hm1 & [(_ & ex & Hex) | (data1 & Htr1 & Hform1)]);
    [discriminate|].
  assert (Hu0 : username s0 = username self) by frame.
  assert (Hform : login_form_of self data1).
  { unfold login_form_of in *. destruct Hform1 as (Hu & Ht & He).
    rewrite Hu, Ht, He. repeat split; f_equal; frame. }
  exists m1, data1. split; [assumption|]. split; [assumption|].
  rewrite Hu0, Htr0 in Htr1.
  apply _enter_steam_guard_outcomes in H
    as [(-> & _) | [(call & _ & _ & (ex & Hex) & _) | (call & s2 & Hsend2 & Htr2 & Hcfg2 & Hcall)]];
    [left | discriminate | right].
  - split; [assumption|]. eapply same_codes_trans; eauto.
  - apply _send_login_request_trace in Hsend2
      as (Hcfg3 & Hcd3 & m2 & Hm2 & [(_ & ex & Hex) | (data2 & Htr3 & Hform2)]);
      [discriminate|].
    exists call, m2, data2. split; [assumption|]. split.
    + unfold login_form_of in *. destruct Hform2 as (Hu & Ht & He).
      rewrite Hu, Ht, He. repeat split; f_equal; frame.
    + split.
      * rewrite Htr3, Htr2, Htr1, <- !app_assoc.
        replace (username s2) with (username self) by frame.
        replace (shared_secret s1) with (shared_secret self) in * by frame.
        reflexivity.
      * replace (shared_secret s1) with (shared_secret self) in Hcall by frame.
        destruct Hcall as [[-> He] | [-> Ho]]; [left | right];
          (split; [reflexivity|]); frame.
Qed.

Lemma collaborator_calls_app t1 t2 :
  collaborator_calls (t1 ++ t2) = (collaborator_calls t1 ++ collaborator_calls t2)%list.
Proof. apply filter_app. Qed.

Lemma collaborator_calls_posts (l : list value) (f : value -> event) :
  (forall x, is_post (f x) = true) -> collaborator_calls (map f l) = [].
Proof.
  intros Hf. induction l as [|x l IH]; simpl; [reflexivity|].
  now rewrite Hf.
Qed.

Lemma collaborator_calls_key_posts user m :
  collaborator_calls (repeat (key_post user) m) = [].
Proof. induction m; simpl; auto. Qed.

Lemma _send_login_request_calls self r self' :
  _send_login_request env self = (r, self') ->
  collaborator_calls (trace self') = collaborator_calls (trace self).
Proof.
  intros H. apply _send_login_request_trace in H
    as (_ & _ & m & _ & [(-> & _) | (data & -> & _)]);
    rewrite !collaborator_calls_app, collaborator_calls_key_posts; simpl;
    now rewrite ?app_nil_r.
Qed.

(** The save step: skipped without a callback; otherwise it fails on the
    lookup, or invokes the callback with the transfer parameters. *)
Lemma _save_steam_auth_outcomes login_response (s : LoginExecutor World) res s' :
  _save_steam_auth env login_response s = (res, s') ->
  (saveCallback_callable s = false /\ res = Ok tt /\ s' = s) \/
  (saveCallback_callable s = true /\ s' = s /\ exists ex, res = Raise ex) \/
  (saveCallback_callable s = true /\
   exists body parameters,
     json login_response = Ok body /\
     subscript body "transfer_parameters" = Ok parameters /\
     trace s' = (trace s ++ [EvSaveCallback parameters])%list /\
     same_config s s' /\ same_codes s s' /\ cookies s' = cookies s).
Proof.
  unfold _save_steam_auth.
  destruct (saveCallback_callable s) eqn:Hcb.
  - intros H. right.
    apply bind_inv in H as [(body & s1 & Hl & H) | (ex & Hl & ->)];
      apply lift_inv in Hl as [Hj ->];
      [|left; split; [reflexivity|]; split; [reflexivity | now eexists]].
    apply bind_inv in H as [(parameters & s1 & Hl & H) | (ex & Hl & ->)];
      apply lift_inv in Hl as [Hp ->];
      [|left; split; [reflexivity|]; split; [reflexivity | now eexists]].
    right. split; [reflexivity|]. exists body, parameters.
    unfold call_saveCallback in H.
    destruct (save_callback env parameters (world s)) as [r0 w].
    inversion H; subst. simpl. repeat split; auto.
  - intros H. inversion H; subst. now left.
Qed.

(** The redirect step: it raises before any POST, or posts the transfer
    parameters to a prefix of the URLs. *)
Lemma _perform_redirects_outcomes body (s : LoginExecutor World) res s' :
  _perform_redirects env body s = (res, s') ->
  (s' = s /\ exists ex, res = Raise ex) \/
  (exists parameters transfer_urls urls k,
     get_default body "transfer_parameters" VNone = Ok parameters /\
     parameters <> VNone /\
     subscript body "transfer_urls" = Ok transfer_urls /\
     iterate transfer_urls = Ok urls /\
     (k <= List.length urls)%nat /\
     trace s'
     = (trace s ++ map (fun url => EvPost url parameters) (firstn k urls))%list /\
     (res = Ok tt -> k = List.length urls) /\
     same_config s s').
Proof.
  unfold _perform_redirects. intros H.
  apply bind_inv in H as [(parameters & s1 & Hl & H) | (ex & Hl & ->)];
    apply lift_inv in Hl as [Hp ->]; [|left; split; [reflexivity | now eexists]].
  symmetry in Hp.
  assert (Hloop : parameters <> VNone ->
            bind (lift (subscript body "transfer_urls")) (fun transfer_urls =>
            bind (lift (iterate transfer_urls)) (fun urls =>
            post_each env urls parameters)) s = (res, s') ->
            (s' = s /\ exists ex, res = Raise ex) \/
            (exists parameters0 transfer_urls urls k,
               get_default body "transfer_parameters" VNone = Ok parameters0 /\
               parameters0 <> VNone /\
               subscript body "transfer_urls" = Ok transfer_urls /\
               iterate transfer_urls = Ok urls /\
               (k <= List.length urls)%nat /\
               trace s'
               = (trace s ++ map (fun url => EvPost url parameters0)
                                (firstn k urls))%list /\
               (res = Ok tt -> k = List.length urls) /\
               same_config s s')).
  { intros Hne H'.
    apply bind_inv in H' as [(tu & s1 & Hl & H') | (ex & Hl & ->)];
      apply lift_inv in Hl as [Hu ->]; [|left; split; [reflexivity | now eexists]].
    apply bind_inv in H' as [(urls & s1 & Hl & H') | (ex & Hl & ->)];
      apply lift_inv in Hl as [Hi ->]; [|left; split; [reflexivity | now eexists]].
    apply post_each_trace in H' as (Hcfg & k & Hk & Htr & Hall).
    right. exists parameters, tu, urls, k.
    split; [assumption|]. split; [assumption|]. split; [now symmetry|].
    split; [now symmetry|]. auto. }
  destruct parameters;
    try (apply Hloop; [discriminate | exact H]).
  inversion H; subst. left. split; [reflexivity | now eexists].
Qed.

Lemma finish_login_calls login_response (s2 : LoginExecutor World) res s' :
  finish_login env login_response s2 = (res, s') ->
  exists save,
    collaborator_calls (trace s')
    = (collaborator_calls (trace s2) ++ save)%list /\
    (save = [] \/
     exists body parameters,
       save = [EvSaveCallback parameters] /\
       saveCallback_callable s2 = true /\
       reports_success login_response = true /\
       json login_response = Ok body /\
       subscript body "transfer_parameters" = Ok parameters).
Proof.
  unfold finish_login. intros H.
  assert (Hnone : forall s, s = s2 ->
             exists save,
               collaborator_calls (trace s)
               = (collaborator_calls (trace s2) ++ save)%list /\
               (save = [] \/
                exists body parameters,
                  save = [EvSaveCallback parameters] /\
                  saveCallback_callable s2 = true /\
                  reports_success login_response = true /\
                  json login_response = Ok body /\
                  subscript body "transfer_parameters" = Ok parameters)).
  { intros s ->. exists []. rewrite app_nil_r. auto. }
  apply bind_inv in H as [([] & s3 & Ha & H) | (ex & Ha & ->)];
    pose proof (_assert_valid_credentials_state _ _ Ha) as Hs3;
    [subst s3 | now apply Hnone].
  assert (Hok : reports_success login_response = true).
  { apply (_assert_valid_credentials_ok_iff login_response s2).
    now rewrite Ha. }
  assert (Hrest : forall s4,
             bind (lift (json login_response)) (fun response_dict =>
             bind (_perform_redirects env response_dict) (fun _ =>
             bind (set_sessionid_cookies (World:=World)) (fun _ =>
             fun self => (Ok (cookies self), self)))) s4 = (res, s') ->
             collaborator_calls (trace s') = collaborator_calls (trace s4)).
  { intros s4 H'.
    apply bind_inv in H' as [(d & s5 & Hl & H') | (ex & Hl & Hex)];
      apply lift_inv in Hl as [_ ->]; [|now inversion Hex].
    assert (Hred : forall r6 s6, _perform_redirects env d s4 = (r6, s6) ->
              collaborator_calls (trace s6) = collaborator_calls (trace s4)).
    { intros r6 s6 Hr.
      apply _perform_redirects_outcomes in Hr
        as [(-> & _) | (pr & tu & urls & k & _ & _ & _ & _ & _ & Htr & _)];
        [reflexivity|].
      rewrite Htr, collaborator_calls_app, collaborator_calls_posts
        by reflexivity.
      now rewrite app_nil_r. }
    apply bind_inv in H' as [([] & s6 & Hr & H') | (ex & Hr & ->)];
      [|now apply (Hred _ _ Hr)].
    rewrite <- (Hred _ _ Hr).
    apply bind_inv in H' as [([] & s7 & Hc & H') | (ex & Hc & ->)];
      apply set_sessionid_cookies_trace in Hc.
    - inversion H'; subst. now rewrite Hc.
    - now rewrite Hc. }
  apply bind_inv in H as [([] & s4 & Hsave & H) | (ex & Hsave & ->)];
    apply _save_steam_auth_outcomes in Hsave
      as [(Hcb & Hr & ->) | [(Hcb & -> & ex' & Hr) | (Hcb & body & pr & Hj & Hp & Htr & _)]];
    try discriminate.
  - rewrite (Hrest _ H). now apply Hnone.
  - rewrite (Hrest _ H), Htr, collaborator_calls_app. simpl.
    eexists. split; [reflexivity|]. right. exists body, pr. auto.
  - now apply Hnone.
  - rewrite Htr, collaborator_calls_app. simpl.
    eexists. split; [reflexivity|]. right. exists body, pr. auto.
Qed.

Lemma final_login_response_calls self res s2 :
  final_login_response env self = (res, s2) ->
  exists challenge,
    collaborator_calls (trace s2)
    = (collaborator_calls (trace self) ++ challenge)%list /\
    (challenge = [] \/ challenge = [EvGenerateCode (shared_secret self)] \/
     challenge = [EvEmailCallback]).
Proof.
  unfold final_login_response. intros H.
  destruct (_set_steamauth_cookies_spec self)
    as (s0 & Hs0 & Htr0 & _ & Hcfg0 & _).
  rewrite (bind_ok _ _ _ Hs0) in H.
  assert (Hnone : forall s : LoginExecutor World,
             collaborator_calls (trace s) = collaborator_calls (trace self) ->
             exists challenge,
               collaborator_calls (trace s)
               = (collaborator_calls (trace self) ++ challenge)%list /\
               (challenge = [] \/
                challenge = [EvGenerateCode (shared_secret self)] \/
                challenge = [EvEmailCallback])).
  { intros s Hs. exists []. rewrite app_nil_r. auto. }
  apply bind_inv in H as [(r1 & s1 & Hsend & H) | (ex & Hsend & ->)];
    pose proof (_send_login_request_calls _ Hsend) as Hcalls1;
    pose proof (proj1 (_send_login_request_trace _ Hsend)) as Hcfg1;
    rewrite Htr0 in Hcalls1; [|now apply Hnone].
  apply bind_inv in H as [(u & s1' & Hc & H) | (ex & Hc & ->)];
    apply _check_for_captcha_state in Hc as ->; [|now apply Hnone].
  assert (Hsecret : shared_secret s1 = shared_secret self) by frame.
  apply _enter_steam_guard_outcomes in H
    as [(-> & _) | [(call & Hcall & Htr & _) | (call & s3 & Hsend2 & Htr & _ & Hcall)]].
  - now apply Hnone.
  - rewrite Htr, collaborator_calls_app, Hcalls1. rewrite Hsecret in Hcall.
    exists [call]. split; [now destruct Hcall as [-> | ->]|].
    destruct Hcall as [-> | ->]; auto.
  - rewrite (_send_login_request_calls _ Hsend2), Htr,
      collaborator_calls_app, Hcalls1.
    rewrite Hsecret in Hcall.
    exists [call]. split; [now destruct Hcall as [[-> _] | [-> _]]|].
    destruct Hcall as [[-> _] | [-> _]]; auto.
Qed.

(** X8. In any login, whatever its outcome, the calls to collaborators
    other than HTTP requests are: at most one challenge call - the code
    generator or the email callback, never both - followed by at most one
    call of the save callback.  The save callback is called only when one
    is configured and the final response reports success, and it is given
    the transfer_parameters of that response. *)
Theorem login_collaborator_calls (self : LoginExecutor World) res self' :
  login env self = (res, self') ->
  exists challenge save,
    collaborator_calls (trace self')
    = (collaborator_calls (trace self) ++ challenge ++ save)%list /\
    (challenge = [] \/ challenge = [EvGenerateCode (shared_secret self)] \/
     challenge = [EvEmailCallback]) /\
    (save = [] \/
     exists final self2 body parameters,
       save = [EvSaveCallback parameters] /\
       saveCallback_callable self = true /\
       final_login_response env self = (Ok final, self2) /\
       reports_success final = true /\
       json final = Ok body /\
       subscript body "transfer_parameters" = Ok parameters).
Proof.
  rewrite login_eq. intros H.
  apply bind_inv in H as [(final & s2 & Hfinal & H) | (ex & Hfinal & ->)].
  - destruct (final_login_response_calls _ Hfinal) as (challenge & Hc & Hshape).
    pose proof (final_login_response_frame _ Hfinal) as Hcfg.
    destruct (finish_login_calls _ _ H) as (save & Hs & Hsave).
    exists challenge, save. rewrite Hs, Hc, <- app_assoc.
    split; [reflexivity|]. split; [assumption|].
    destruct Hsave as [-> | (body & pr & -> & Hcb & Hok & Hj & Hp)];
      [now left | right].
    exists final, s2, body, pr.
    replace (saveCallback_callable self) with (saveCallback_callable s2) by frame.
    repeat split; assumption.
  - destruct (final_login_response_calls _ Hfinal) as (challenge & Hc & Hshape).
    exists challenge, []. rewrite Hc, app_nil_r. auto.
Qed.

Lemma get_default_subscript body k v :
  get_default body k VNone = Ok v -> v <> VNone -> subscript body k = Ok v.
Proof.
  unfold get_default, subscript. destruct body; try discriminate.
  destruct (dict_get d k); [auto|]. intros [= <-] H. now destruct H.
Qed.

(** X9. No partial success: a login that returns the session has had a
    final response with a true [success], transfer parameters that are
    present and not null and an iterable [transfer_urls]; after that
    response it has called the save callback (if configured) and posted
    the parameters to every URL, in order, and nothing else; and the
    session returned is the one whose jar got the sessionid bound: the jar
    had a sessionid cookie once the redirects were done, the last step
    changed nothing but the jar, and when that cookie has a value the jar
    returned carries it, as the jar stores it, on the community and store
    domains. *)
Theorem successful_login_requirements (self : LoginExecutor World) jar self' :
  login env self = (Ok jar, self') ->
  exists final self2 body parameters transfer_urls urls,
    final_login_response env self = (Ok final, self2) /\
    json final = Ok body /\
    field_is body "success" true /\
    subscript body "transfer_parameters" = Ok parameters /\
    parameters <> VNone /\
    subscript body "transfer_urls" = Ok transfer_urls /\
    iterate transfer_urls = Ok urls /\
    trace self'
    = (trace self2
         ++ (if saveCallback_callable self
             then [EvSaveCallback parameters] else [])
         ++ map (fun url => EvPost url parameters) urls)%list /\
    jar = cookies self' /\
    exists before sessionid,
      set_sessionid_cookies before = (Ok tt, self') /\
      self' = set_cookies jar before /\
      dict_get (CookieJar.get_dict (cookies before)) "sessionid"
      = Some sessionid /\
      (forall s, sessionid = Some s ->
         CookieJar.lookup jar "steamcommunity.com" "/" "sessionid"
         = Some (Some (CookieJar.stored_value s)) /\
         CookieJar.lookup jar "store.steampowered.com" "/" "sessionid"
         = Some (Some (CookieJar.stored_value s))).
Proof.
  rewrite login_eq. intros H.
  apply bind_inv in H as [(final & s2 & Hfinal & H) | (ex & _ & Hex)];
    [|discriminate].
  pose proof (final_login_response_frame _ Hfinal) as Hcfg.
  unfold finish_login in H.
  apply bind_inv in H as [([] & s3 & Ha & H) | (ex & _ & Hex)]; [|discriminate].
  pose proof (_assert_valid_credentials_state _ _ Ha) as ->.
  assert (Hok : reports_success final = true).
  { apply (_assert_valid_credentials_ok_iff final s2). now rewrite Ha. }
  unfold reports_success in Hok.
  destruct (json final) as [body|] eqn:Hj; [|discriminate].
  destruct (subscript body "success") as [v|] eqn:Hv; [|discriminate].
  apply bind_inv in H as [([] & s4 & Hsave & H) | (ex & _ & Hex)]; [|discriminate].
  apply bind_inv in H as [(d & s5 & Hl & H) | (ex & _ & Hex)]; [|discriminate].
  apply lift_inv in Hl as [[= ->] ->].
  apply bind_inv in H as [([] & s6 & Hred & H) | (ex & _ & Hex)]; [|discriminate].
  apply bind_inv in H as [([] & s7 & Hbind & H) | (ex & _ & Hex)]; [|discriminate].
  inversion H; subst jar s7.
  destruct (set_sessionid_cookies_spec _ Hbind)
    as (sessionid & Hsid & Hstate & Hbound & _).
  apply set_sessionid_cookies_trace in Hbind as Htrace.
  apply _perform_redirects_outcomes in Hred
    as [(_ & ex & Hex) | (pr & tu & urls & k & Hget & Hne & Hu & Hi & Hk & Htr & Hall & _)];
    [discriminate|].
  rewrite (Hall eq_refl), firstn_all in Htr.
  exists final, s2, body, pr, tu, urls.
  split; [assumption|]. split; [assumption|].
  split; [now exists v|].
  split; [now apply get_default_subscript|]. split; [assumption|].
  split; [assumption|]. split; [assumption|].
  split; [|split; [reflexivity|]; exists s6, sessionid; auto].
  rewrite Htrace, Htr.
  replace (saveCallback_callable self) with (saveCallback_callable s2) by frame.
  apply _save_steam_auth_outcomes in Hsave
    as [(Hcb & _ & ->) | [(Hcb & _ & ex & Hex) | (Hcb & body' & pr' & Hj' & Hp' & Htr' & _)]];
    rewrite Hcb; [reflexivity | discriminate |].
  rewrite Htr', <- app_assoc. simpl.
  rewrite Hj in Hj'. inversion Hj'; subst body'.
  rewrite (get_default_subscript _ _ Hget Hne) in Hp'. now inversion Hp'.
Qed.

(** After a final response that reports success and carries transfer
    parameters, a redirect step that raises before posting ends the login
    with that error - once the save callback, if there is one, has been
    called and has returned. *)
Lemma finish_login_redirect_failure final body parameters ex
    (self2 : LoginExecutor World) :
  json final = Ok body ->
  field_is body "success" true ->
  subscript body "transfer_parameters" = Ok parameters ->
  (forall s : LoginExecutor World, _perform_redirects env body s = (Raise ex, s)) ->
  (saveCallback_callable self2 = false ->
   finish_login env final self2 = (Raise ex, self2)) /\
  (saveCallback_callable self2 = true ->
   forall w, save_callback env parameters (world self2) = (Ok tt, w) ->
   exists self',
     finish_login env final self2 = (Raise ex, self') /\
     trace self' = (trace self2 ++ [EvSaveCallback parameters])%list).
Proof.
  intros Hj (v & Hv & Hvt) Hp Hred.
  unfold finish_login.
  assert (Hassert : _assert_valid_credentials final self2 = (Ok tt, self2)).
  { unfold _assert_valid_credentials, bind, lift, ret.
    now rewrite Hj, Hv, Hvt. }
  rewrite (bind_ok _ _ _ Hassert).
  unfold _save_steam_auth.
  split; intros Hcb; unfold bind at 1; rewrite Hcb.
  - unfold ret. unfold bind at 1, lift at 1. rewrite Hj.
    now apply bind_raise.
  - intros w Hsave.
    unfold bind at 1, lift at 1. rewrite Hj.
    unfold bind at 1, lift at 1. rewrite Hp.
    unfold call_saveCallback. rewrite Hsave.
    eexists. split.
    + unfold bind at 1, lift at 1. apply bind_raise. apply Hred.
    + reflexivity.
Qed.

(** X10. Transfer parameters that are present but null count as absent
    for the redirect step only: the save callback, if configured, is
    called with None, and when it returns the login raises the redirect
    error without any redirect POST. *)
Theorem null_transfer_parameters (self : LoginExecutor World) final self2 body :
  final_login_response env self = (Ok final, self2) ->
  json final = Ok body ->
  field_is body "success" true ->
  subscript body "transfer_parameters" = Ok VNone ->
  (saveCallback_callable self = false ->
   login env self = (Raise redirect_error, self2)) /\
  (saveCallback_callable self = true ->
   forall w, save_callback env VNone (world self2) = (Ok tt, w) ->
   exists self',
     login env self = (Raise redirect_error, self') /\
     trace self' = (trace self2 ++ [EvSaveCallback VNone])%list).
Proof.
  intros Hfinal Hj Hs Hp.
  pose proof (final_login_response_frame _ Hfinal) as Hcfg.
  rewrite login_eq, (bind_ok _ _ _ Hfinal).
  replace (saveCallback_callable self) with (saveCallback_callable self2) by frame.
  apply (@finish_login_redirect_failure final body VNone redirect_error self2
           Hj Hs Hp).
  intros s. unfold _perform_redirects, bind, lift.
  unfold subscript in Hp. unfold get_default.
  destruct body; try discriminate.
  destruct (dict_get d "transfer_parameters") as [x|]; [|discriminate].
  now inversion Hp.
Qed.

(** X11. A successful response with transfer parameters but no
    [transfer_urls] makes the login raise KeyError('transfer_urls'), with
    no redirect POST - after the save callback, if configured, has been
    called with the parameters and has returned. *)
Theorem missing_transfer_urls (self : LoginExecutor World) final self2 body
    parameters :
  final_login_response env self = (Ok final, self2) ->
  json final = Ok body ->
  field_is body "success" true ->
  subscript body "transfer_parameters" = Ok parameters ->
  parameters <> VNone ->
  field_absent body "transfer_urls" ->
  (saveCallback_callable self = false ->
   login env self = (Raise (KeyError "transfer_urls"), self2)) /\
  (saveCallback_callable self = true ->
   forall w, save_callback env parameters (world self2) = (Ok tt, w) ->
   exists self',
     login env self = (Raise (KeyError "transfer_urls"), self') /\
     trace self' = (trace self2 ++ [EvSaveCallback parameters])%list).
Proof.
  intros Hfinal Hj Hs Hp Hne (d & -> & Hnone).
  pose proof (final_login_response_frame _ Hfinal) as Hcfg.
  rewrite login_eq, (bind_ok _ _ _ Hfinal).
  replace (saveCallback_callable self) with (saveCallback_callable self2) by frame.
  apply (@finish_login_redirect_failure final (VDict d) parameters
           (KeyError "transfer_urls") self2 Hj Hs Hp).
  intros s. unfold _perform_redirects, bind, lift.
  unfold subscript in Hp. unfold get_default, subscript.
  destruct (dict_get d "transfer_parameters") as [x|]; [|discriminate].
  inversion Hp; subst x. rewrite Hnone.
  now destruct parameters.
Qed.

(** X12. A first response that reports failure and asks for no captcha
    must carry the challenge flags: without [requires_twofactor] the login
    raises KeyError('requires_twofactor'), whatever [emailauth_needed]
    says; with a false [requires_twofactor] but without [emailauth_needed]
    it raises KeyError('emailauth_needed'); with both flags false it raises
    InvalidCredentials with the message, or KeyError('message') when there
    is none.  In each case nothing is sent or called after that response. *)
Theorem failing_first_response_outcomes
    (self : LoginExecutor World) login_response s1 body :
  _send_login_request env (snd (_set_steamauth_cookies self))
  = (Ok login_response, s1) ->
  json login_response = Ok body ->
  ~ captcha_signaled body ->
  field_is body "success" false ->
  (field_absent body "requires_twofactor" ->
   login env self = (Raise (KeyError "requires_twofactor"), s1)) /\
  (field_is body "requires_twofactor" false ->
   field_absent body "emailauth_needed" ->
   login env self = (Raise (KeyError "emailauth_needed"), s1)) /\
  (field_is body "requires_twofactor" false ->
   field_is body "emailauth_needed" false ->
   (forall message,
      subscript body "message" = Ok message ->
      login env self = (Raise (InvalidCredentials message), s1)) /\
   (field_absent body "message" ->
    login env self = (Raise (KeyError "message"), s1))).
Proof.
  intros Hsend Hj Hcap (v & Hv & Hvt).
  destruct (_set_steamauth_cookies_spec self) as (s0 & Hs0 & _).
  rewrite Hs0 in Hsend. simpl in Hsend.
  assert (Hcheck : _check_for_captcha login_response s1 = (Ok tt, s1)).
  { unfold _check_for_captcha, bind, lift. rewrite Hj.
    unfold subscript in Hv. destruct body as [| | | | | |d]; try discriminate.
    unfold get_default.
    destruct (dict_get d "captcha_needed") as [c|] eqn:Hc; [|reflexivity].
    destruct (truthy c) eqn:Hct; [|reflexivity].
    destruct Hcap. exists c. unfold get_default. now rewrite Hc. }
  unfold login.
  rewrite (bind_ok _ _ _ Hs0), (bind_ok _ _ _ Hsend), (bind_ok _ _ _ Hcheck).
  split; [|split].
  - intros (d & -> & Hnone). apply bind_raise.
    unfold _enter_steam_guard_if_necessary, bind, lift.
    rewrite Hj, Hv, Hvt. simpl. now rewrite Hnone.
  - intros (t & Ht & Htt) (d & -> & Hnone). apply bind_raise.
    unfold _enter_steam_guard_if_necessary, bind, lift.
    rewrite Hj, Hv, Hvt, Ht, Htt. simpl. now rewrite Hnone.
  - intros (t & Ht & Htt) (m & Hm & Hmt).
    assert (Hguard : _enter_steam_guard_if_necessary env login_response s1
                     = (Ok login_response, s1)).
    { unfold _enter_steam_guard_if_necessary, bind, lift, ret.
      now rewrite Hj, Hv, Hvt, Ht, Htt, Hm, Hmt. }
    rewrite (bind_ok _ _ _ Hguard). split.
    + intros message Hmsg. apply bind_raise.
      unfold _assert_valid_credentials, bind, lift, raise.
      now rewrite Hj, Hv, Hvt, Hmsg.
    + intros (d & -> & Hnone). apply bind_raise.
      unfold _assert_valid_credentials, bind, lift, raise.
      rewrite Hj, Hv, Hvt. simpl. now rewrite Hnone.
Qed.

(** X13. With a padding source that hands out nonzero bytes, the
    encryption step returns exactly when the password is encodable, the
    modulus is positive and at least eleven bytes longer than the encoded
    password and, should the exponent be negative, the padded block is
    coprime to the modulus ([pow] then takes the inverse).  With a shorter
    modulus it raises OverflowError before any padding is drawn. *)
Theorem encrypt_password_returns_iff
    (self : LoginExecutor World) (rsa_params : RsaParams) :
  Codec.padding_source_ok (rsa_padding env) ->
  ((exists out self', _encrypt_password env rsa_params self = (Ok out, self'))
   <->
   (exists message,
      Codec.utf8_encode (password self) = Ok message /\
      (0 < n (rsa_key rsa_params))%Z /\
      (List.length message + 11
       <= Codec.byte_size (n (rsa_key rsa_params)))%nat /\
      (e (rsa_key rsa_params) < 0 ->
       Z.gcd (Codec.bytes2int
                (Codec.drawn_block (rsa_padding env) message
                   (rsa_key rsa_params) (world self)))
             (n (rsa_key rsa_params)) = 1)%Z)) /\
  (forall message,
     Codec.utf8_encode (password self) = Ok message ->
     (Codec.byte_size (n (rsa_key rsa_params))
      < List.length message + 11)%nat ->
     exists self',
       _encrypt_password env rsa_params self = (Raise OverflowError, self') /\
       world self' = world self /\ trace self' = trace self).
Proof.
  intros Hdraw. split; [split|].
  - intros (out & self' & Hrun). unfold _encrypt_password in Hrun.
    destruct (Codec.utf8_encode (password self)) as [message|ex];
      [|discriminate].
    destruct (Codec.rsa_encrypt (rsa_padding env) message (rsa_key rsa_params)
                (world self)) as [[ciphertext|ex] w] eqn:Henc;
      [|discriminate].
    destruct (CodecFacts.rsa_encrypt_spec Hdraw _ _ _ Henc)
      as ((Hlen & Hmin & _) & Hn & He & _).
    exists message. split; [reflexivity|]. split; [assumption|].
    split; [lia | exact He].
  - intros (message & Hutf & Hn & Hfit & He). unfold _encrypt_password.
    rewrite Hutf.
    assert (He' : (0 <= e (rsa_key rsa_params)
                   \/ Z.gcd (Codec.bytes2int
                               (Codec.drawn_block (rsa_padding env) message
                                  (rsa_key rsa_params) (world self)))
                            (n (rsa_key rsa_params)) = 1)%Z).
    { destruct (Z.ltb_spec (e (rsa_key rsa_params)) 0); [right; auto | now left]. }
    destruct (CodecFacts.rsa_encrypt_total Hdraw message (rsa_key rsa_params)
                (world self) Hn Hfit He') as (ciphertext & w & ->).
    simpl. now eexists; eexists.
  - intros message Hutf Hshort. unfold _encrypt_password. rewrite Hutf.
    unfold Codec.rsa_encrypt, Codec.pad_for_encryption.
    destruct (Z.ltb_spec
                (Z.of_nat (Codec.byte_size (n (rsa_key rsa_params))) - 11)
                (Z.of_nat (List.length message))) as [_|Hfit]; [|lia].
    eexists. split; [reflexivity|]. simpl. split; [reflexivity|].
    apply app_nil_r.
Qed.

(** ** The code fields *)

Lemma post_each_codes parameters urls : forall (self : LoginExecutor World) r self',
  post_each env urls parameters self = (r, self') -> same_codes self self'.
Proof.
  induction urls as [|url urls IH]; intros self r self' H; simpl in H.
  - inversion H; subst. apply same_codes_refl.
  - apply bind_inv in H as [(resp & s1 & Hp & H) | (ex & Hp & ->)];
      apply session_post_spec in Hp as (_ & _ & Hcd); [|assumption].
    eapply same_codes_trans; [exact Hcd | eapply IH; eauto].
Qed.

(** After the final response the code fields stay as they are, and the
    log only grows. *)
Lemma finish_login_codes final (s2 : LoginExecutor World) res s' :
  finish_login env final s2 = (res, s') ->
  same_codes s2 s' /\ exists calls, trace s' = (trace s2 ++ calls)%list.
Proof.
  unfold finish_login. intros H.
  assert (Hrefl : same_codes s2 s2 /\
                  exists calls, trace s2 = (trace s2 ++ calls)%list).
  { split; [apply same_codes_refl|]. exists []. now rewrite app_nil_r. }
  apply bind_inv in H as [([] & s3 & Ha & H) | (ex & Ha & ->)];
    pose proof (_assert_valid_credentials_state _ _ Ha) as Hs3;
    subst; [|assumption].
  assert (Hsave : forall r4 s4, _save_steam_auth env final s2 = (r4, s4) ->
            same_codes s2 s4 /\ exists calls, trace s4 = (trace s2 ++ calls)%list).
  { intros r4 s4 Hs.
    apply _save_steam_auth_outcomes in Hs
      as [(_ & _ & ->) | [(_ & -> & _) | (_ & b & pr & _ & _ & Htr & _ & Hcd & _)]];
      try assumption.
    split; [assumption | eexists; eassumption]. }
  apply bind_inv in H as [([] & s4 & Hs & H) | (ex & Hs & ->)];
    [|now apply (Hsave _ _ Hs)].
  destruct (Hsave _ _ Hs) as (Hcd4 & calls4 & Htr4).
  apply bind_inv in H as [(d & s5 & Hl & H) | (ex & Hl & ->)];
    apply lift_inv in Hl as [_ ->]; [|split; [assumption | eexists; eassumption]].
  assert (Hred : forall r6 s6, _perform_redirects env d s4 = (r6, s6) ->
            same_codes s2 s6 /\ exists calls, trace s6 = (trace s2 ++ calls)%list).
  { intros r6 s6 Hr. unfold _perform_redirects in Hr.
    apply bind_inv in Hr as [(pr & s & Hl & Hr) | (ex & Hl & ->)];
      apply lift_inv in Hl as [_ ->]; [|split; [assumption | eexists; eassumption]].
    assert (Hloop :
              bind (lift (subscript d "transfer_urls")) (fun transfer_urls =>
              bind (lift (iterate transfer_urls)) (fun urls =>
              post_each env urls pr)) s4 = (r6, s6) ->
              same_codes s2 s6 /\
              exists calls, trace s6 = (trace s2 ++ calls)%list).
    { intros H'.
      apply bind_inv in H' as [(tu & s & Hl & H') | (ex & Hl & ->)];
        apply lift_inv in Hl as [_ ->]; [|split; [assumption | eexists; eassumption]].
      apply bind_inv in H' as [(urls & s & Hl & H') | (ex & Hl & ->)];
        apply lift_inv in Hl as [_ ->]; [|split; [assumption | eexists; eassumption]].
      pose proof (post_each_codes _ _ _ H') as Hcd6.
      apply post_each_trace in H' as (_ & k & _ & Htr6 & _).
      split; [eapply same_codes_trans; eauto|].
      rewrite Htr6, Htr4, <- app_assoc. now eexists. }
    destruct pr; try (now apply Hloop).
    inversion Hr; subst. split; [assumption | eexists; eassumption]. }
  apply bind_inv in H as [([] & s6 & Hr & H) | (ex & Hr & ->)];
    [|now apply (Hred _ _ Hr)].
  destruct (Hred _ _ Hr) as (Hcd6 & calls6 & Htr6).
  assert (Hbind : forall r7 s7, set_sessionid_cookies s6 = (r7, s7) ->
            same_codes s6 s7 /\ trace s7 = trace s6).
  { intros r7 s7. unfold set_sessionid_cookies.
    destruct (dict_get _ _); intros H7; inversion H7; subst;
      split; try reflexivity; apply same_codes_refl || frame. }
  apply bind_inv in H as [([] & s7 & Hb & H) | (ex & Hb & ->)];
    destruct (Hbind _ _ Hb) as (Hcd7 & Htr7).
  - inversion H; subst. split; [eapply same_codes_trans; eauto|].
    rewrite Htr7, Htr6. now eexists.
  - split; [eapply same_codes_trans; eauto|].
    rewrite Htr7, Htr6. now eexists.
Qed.

(** X14. The executor never resets its code fields: over a whole login,
    whatever its outcome, the one-time code changes only if the code
    generator was called during this login, and the email code only if the
    email callback was; a code once stored is what the next login of the
    same executor starts with. *)
Theorem codes_change_only_by_challenge (self : LoginExecutor World) res self' :
  login env self = (res, self') ->
  exists calls,
    trace self' = (trace self ++ calls)%list /\
    (one_time_code self' = one_time_code self \/
     In (EvGenerateCode (shared_secret self)) calls) /\
    (email_auth self' = email_auth self \/ In EvEmailCallback calls).
Proof.
  rewrite login_eq. intros H.
  assert (Hfinal : forall r2 s2,
             final_login_response env self = (r2, s2) ->
             exists calls,
               trace s2 = (trace self ++ calls)%list /\
               (one_time_code s2 = one_time_code self \/
                In (EvGenerateCode (shared_secret self)) calls) /\
               (email_auth s2 = email_auth self \/ In EvEmailCallback calls)).
  { intros r2 s2 Hf. unfold final_login_response in Hf.
    destruct (_set_steamauth_cookies_spec self)
      as (s0 & Hs0 & Htr0 & _ & Hcfg0 & Hcd0).
    rewrite (bind_ok _ _ _ Hs0) in Hf.
    assert (Hsend : forall s r s', _send_login_request env s = (r, s') ->
               same_codes s s' /\ same_config s s' /\
               exists calls, trace s' = (trace s ++ calls)%list).
    { intros s r s' Hs.
      apply _send_login_request_trace in Hs
        as (Hcfg & Hcd & m & _ & [(Htr & _) | (data & Htr & _)]);
        (split; [assumption|]; split; [assumption|]; eexists; eassumption). }
    apply bind_inv in Hf as [(r1 & s1 & Hs1 & Hf) | (ex & Hs1 & ->)];
      destruct (Hsend _ _ _ Hs1) as (Hcd1 & Hcfg1 & calls1 & Htr1);
      rewrite Htr0 in Htr1.
    2:{ exists calls1. split; [assumption|]. split; left; frame. }
    apply bind_inv in Hf as [(u & s1' & Hc & Hf) | (ex & Hc & ->)];
      apply _check_for_captcha_state in Hc as ->.
    2:{ exists calls1. split; [assumption|]. split; left; frame. }
    assert (Hsecret : shared_secret s1 = shared_secret self) by frame.
    apply _enter_steam_guard_outcomes in Hf
      as [(-> & _) | [(call & Hcall & Htr & _ & _ & Hcd) | (call & s3 & Hs3 & Htr & _ & Hcall)]].
    - exists calls1. split; [assumption|]. split; left; frame.
    - exists (calls1 ++ [call])%list. rewrite Htr, Htr1, <- app_assoc.
      split; [reflexivity|]. split; left; frame.
    - destruct (Hsend _ _ _ Hs3) as (Hcd3 & _ & calls3 & Htr3).
      exists (calls1 ++ [call] ++ calls3)%list.
      rewrite Htr3, Htr, Htr1, <- !app_assoc.
      split; [reflexivity|]. rewrite Hsecret in Hcall.
      destruct Hcall as [[-> He] | [-> Ho]].
      + split; [right; apply in_or_app; right; now left | left; frame].
      + split; [left; frame | right; apply in_or_app; right; now left]. }
  apply bind_inv in H as [(final & s2 & Hf & H) | (ex & Hf & ->)].
  - destruct (Hfinal _ _ Hf) as (calls & Htr & Ho & He).
    destruct (finish_login_codes _ _ H) as ((Hco & Hce) & calls' & Htr').
    exists (calls ++ calls')%list. rewrite Htr', Htr, <- app_assoc.
    split; [reflexivity|]. split.
    + destruct Ho as [Ho|Ho]; [left; congruence | right; apply in_or_app; now left].
    + destruct He as [He|He]; [left; congruence | right; apply in_or_app; now left].
  - apply (Hfinal _ _ Hf).
Qed.

(** X15. A freshly constructed executor starts with an empty log and
    empty codes: its first login request follows one to six calls to the
    key endpoint and nothing else, and carries the user name and empty
    [twofactorcode] and [emailauth] fields. *)
Theorem fresh_executor_first_request user pw secret callable auth jar
    (w : World) login_response s1 :
  _send_login_request env
    (snd (_set_steamauth_cookies (__init__ user pw secret callable auth jar w)))
  = (Ok login_response, s1) ->
  exists m data,
    (1 <= m <= 6)%nat /\
    trace s1 = (repeat (key_post user) m ++ [login_post data])%list /\
    dict_get data "username" = Some (VStr user) /\
    dict_get data "twofactorcode" = Some (VStr "") /\
    dict_get data "emailauth" = Some (VStr "").
Proof.
  intros H. apply _send_login_request_trace in H
    as (_ & _ & m & Hm & [(_ & ex & Hex) | (data & Htr & Hform)]);
    [discriminate|].
  exists m, data. split; [assumption|]. split; [exact Htr|]. exact Hform.
Qed.

End ExecutorFacts.

(** ** Runs against the scripted server *)



Lemma two_factor_single_resubmission_witness :
  exists self',
    _enter_steam_guard_if_necessary Script.env Script.needs_twofactor
      (Script.executor false [] [Script.key_ok; Script.logged_in])
    = (Ok Script.logged_in, self') /\
    one_time_code self' = "ABC12" /\ login_posts (trace self') = 1%nat.
Proof.
  destruct (@two_factor_single_resubmission _ Script.env
              (Script.executor false [] [Script.key_ok; Script.logged_in])
              Script.needs_twofactor _ "ABC12" [Script.key_ok; Script.logged_in]
              eq_refl
              (ex_intro _ (VBool false) (conj eq_refl eq_refl))
              (ex_intro _ (VBool true) (conj eq_refl eq_refl))
              eq_refl) as (Hstep & _ & _).
  rewrite Hstep. eexists.
  split; [vm_compute; reflexivity|].
  split; vm_compute; reflexivity.
Defined.

(** The server still asks for the two-factor code in its answer to the
    resubmitted request: the executor does not resubmit again - it has
    sent two login requests, and the script still holds the answers of a
    third round - and the login fails on that second answer. *)
Lemma two_factor_not_repeated_counterexample :
  exists self2 self',
    final_login_response Script.env Script.run_two_factor_twice
    = (Ok Script.needs_twofactor_again, self2) /\
    (exists body, json Script.needs_twofactor_again = Ok body /\
       field_is body "success" false /\
       field_is body "requires_twofactor" true) /\
    login_posts (trace self2) = 2%nat /\
    world self2 = [Script.key_ok; Script.logged_in] /\
    login Script.env Script.run_two_factor_twice
    = (Raise (InvalidCredentials (VStr "again")), self') /\
    trace self' = trace self2.
Proof.
  do 2 eexists. split; [vm_compute; reflexivity|].
  split.
  - eexists. split; [reflexivity|]. split; eexists; split; reflexivity.
  - split; [vm_compute; reflexivity|].
    split; [vm_compute; reflexivity|].
    split; vm_compute; reflexivity.
Qed.

Lemma captcha_on_first_response_witness :
  login Script.env Script.run_captcha_first
  = (Raise (CaptchaRequired "Captcha required"),
     snd (_send_login_request Script.env
            (snd (_set_steamauth_cookies Script.run_captcha_first)))) /\
  exists m data,
    trace (snd (_send_login_request Script.env
                  (snd (_set_steamauth_cookies Script.run_captcha_first))))
    = ([] ++ repeat (key_post "user") m ++ [login_post data])%list.
Proof.
  eapply (@captcha_on_first_response _ Script.env Script.run_captcha_first
            Script.captcha).
  - vm_compute. reflexivity.
  - reflexivity.
  - eexists. split; reflexivity.
Defined.

(** The answer to the resubmitted request asks for a captcha (and reports
    success): no CaptchaRequired is raised, the redirect POSTs are made
    and the login completes. *)
Lemma captcha_on_resubmitted_response_counterexample :
  exists self2 jar self',
    final_login_response Script.env Script.run_captcha_second
    = (Ok Script.logged_in_with_captcha, self2) /\
    (exists body, json Script.logged_in_with_captcha = Ok body /\
       captcha_signaled body) /\
    login_posts (trace self2) = 2%nat /\
    login Script.env Script.run_captcha_second = (Ok jar, self') /\
    trace self'
    = (trace self2
         ++ map (fun url => EvPost url Script.transfer_parameters)
                Script.transfer_urls)%list.
Proof.
  do 3 eexists. split; [vm_compute; reflexivity|].
  split.
  - eexists. split; [reflexivity|]. eexists. split; reflexivity.
  - split; [vm_compute; reflexivity|].
    split; vm_compute; reflexivity.
Qed.

(** C4 (defect of the code). With a save callback configured, a final
    response that reports success but has no transfer_parameters field
    makes the login fail with a key-lookup error raised by the save step,
    not with the redirect error: the unguarded lookup of
    [_save_steam_auth] comes before the guard of [_perform_redirects].
    No redirect POST is made. *)
Lemma save_callback_preempts_redirect_error :
  exists self2,
    final_login_response Script.env (Script.run_without_parameters true)
    = (Ok Script.success_without_parameters, self2) /\
    (exists body, json Script.success_without_parameters = Ok body /\
       field_is body "success" true /\
       field_absent body "transfer_parameters") /\
    login Script.env (Script.run_without_parameters true)
    = (Raise (KeyError "transfer_parameters"), self2) /\
    fst (login Script.env (Script.run_without_parameters true))
    <> Raise redirect_error /\
    fst (login Script.env (Script.run_without_parameters false))
    = Raise redirect_error.
Proof.
  eexists. split; [vm_compute; reflexivity|].
  split.
  - eexists. split; [reflexivity|]. split.
    + eexists. split; reflexivity.
    + eexists. split; reflexivity.
  - split; [vm_compute; reflexivity|].
    split; [vm_compute; discriminate | vm_compute; reflexivity].
Qed.

Lemma save_step_fails_before_redirects_witness :
  (saveCallback_callable (Script.run_without_parameters true) = true ->
   login Script.env (Script.run_without_parameters true)
   = (Raise (KeyError "transfer_parameters"),
      snd (final_login_response Script.env (Script.run_without_parameters true)))) /\
  (fst (login Script.env (Script.run_without_parameters true)) = Raise redirect_error
   <-> saveCallback_callable (Script.run_without_parameters true) = false).
Proof.
  eapply (@save_step_fails_before_redirects _ Script.env
            (Script.run_without_parameters true)
            Script.success_without_parameters).
  - vm_compute. reflexivity.
  - reflexivity.
  - eexists. split; reflexivity.
  - eexists. split; reflexivity.
Defined.

Lemma redirects_post_each_url_once_witness :
  exists k, (k <= 2)%nat /\
    trace (snd (login Script.env Script.run_two_factor))
    = (trace (snd (final_login_response Script.env Script.run_two_factor))
         ++ [EvSaveCallback Script.transfer_parameters]
         ++ map (fun url => EvPost url Script.transfer_parameters)
                (firstn k Script.transfer_urls))%list /\
    (forall jar,
       fst (login Script.env Script.run_two_factor) = Ok jar -> k = 2%nat).
Proof.
  eapply (@redirects_post_each_url_once _ Script.env Script.run_two_factor
            Script.logged_in
            (snd (final_login_response Script.env Script.run_two_factor))
            (VDict [("success", VBool true);
                    ("transfer_parameters", Script.transfer_parameters);
                    ("transfer_urls", VList Script.transfer_urls)])
            Script.transfer_parameters Script.transfer_urls
            (fst (login Script.env Script.run_two_factor))
            (snd (login Script.env Script.run_two_factor))).
  - vm_compute. reflexivity.
  - reflexivity.
  - eexists. split; reflexivity.
  - reflexivity.
  - discriminate.
  - reflexivity.
  - now destruct (login Script.env Script.run_two_factor).
Defined.

Lemma sessionid_bound_to_both_domains_witness :
  exists jar self',
    login Script.env Script.run_two_factor = (Ok jar, self') /\
    jar = cookies self' /\
    CookieJar.lookup jar "steamcommunity.com" "/" "sessionid"
    = Some (Some "5e55") /\
    CookieJar.lookup jar "store.steampowered.com" "/" "sessionid"
    = Some (Some "5e55").
Proof.
  destruct (login Script.env Script.run_two_factor) as [r self'] eqn:Hrun.
  assert (Hok : exists jar, r = Ok jar).
  { vm_compute in Hrun. inversion Hrun. now eexists. }
  destruct Hok as [jar ->].
  destruct (sessionid_bound_to_both_domains Script.env Script.run_two_factor Hrun)
    as (Hjar & sessionid & before & _ & _ & Hsome & Hnone).
  exists jar, self'. split; [reflexivity|]. split; [assumption|].
  assert (Hval : CookieJar.lookup jar "steamcommunity.com" "/" "sessionid"
                 = Some (Some "5e55")).
  { vm_compute in Hrun. inversion Hrun. reflexivity. }
  split; [assumption|].
  destruct sessionid as [s|].
  - destruct (Hsome s eq_refl) as (Hc & Hs & _).
    change (slice_from 8 COMMUNITY_URL) with "steamcommunity.com" in Hc.
    change (slice_from 8 STORE_URL) with "store.steampowered.com" in Hs.
    congruence.
  - destruct (Hnone eq_refl "/") as [Hc _].
    change (slice_from 8 COMMUNITY_URL) with "steamcommunity.com" in Hc.
    congruence.
Defined.

(** A sessionid cookie without a value binds nothing: the login completes
    and neither domain carries a session identifier.  And a session
    identifier in double quotes is bound without its escaped quotes: the
    two domains carry a value that is not the identifier the jar holds. *)
Lemma sessionid_not_bound_counterexample :
  (exists jar self',
     login Script.env Script.run_valueless_sessionid = (Ok jar, self') /\
     dict_get (CookieJar.get_dict jar) "sessionid" = Some None /\
     CookieJar.lookup jar "steamcommunity.com" "/" "sessionid" = None /\
     CookieJar.lookup jar "store.steampowered.com" "/" "sessionid" = None) /\
  (exists jar self',
     login Script.env Script.run_quoted_jar = (Ok jar, self') /\
     CookieJar.lookup jar "help.steampowered.com" "/" "sessionid"
     = Some (Some Script.quoted_value) /\
     CookieJar.lookup jar "steamcommunity.com" "/" "sessionid"
     = Some (Some Script.unescaped_value) /\
     CookieJar.lookup jar "store.steampowered.com" "/" "sessionid"
     = Some (Some Script.unescaped_value) /\
     Script.unescaped_value <> Script.quoted_value).
Proof.
  split.
  - do 2 eexists. split; [vm_compute; reflexivity|].
    split; [vm_compute; reflexivity|].
    split; vm_compute; reflexivity.
  - do 2 eexists. split; [vm_compute; reflexivity|].
    split; [vm_compute; reflexivity|].
    split; [vm_compute; reflexivity|].
    split; [vm_compute; reflexivity | vm_compute; discriminate].
Qed.

Lemma invalid_credentials_on_final_failure_witness :
  login Script.env Script.run_wrong_password
  = (Raise (InvalidCredentials (VStr "bad pw")),
     snd (final_login_response Script.env Script.run_wrong_password)).
Proof.
  eapply (proj2 (proj2 (@invalid_credentials_on_final_failure _ Script.env
            Script.run_wrong_password Script.wrong_password
            (snd (final_login_response Script.env Script.run_wrong_password))
            _))).
  - reflexivity.
  - eexists. split; reflexivity.
  - reflexivity.
  Unshelve. vm_compute. reflexivity.
Defined.

Lemma email_auth_resubmission_witness :
  exists self',
    _enter_steam_guard_if_necessary Script.env Script.needs_emailauth
      (Script.executor false [] [Script.key_ok; Script.logged_in])
    = (Ok Script.logged_in, self') /\
    email_callbacks (trace self') = 1%nat /\
    email_auth self' = VStr "EMAIL" /\ login_posts (trace self') = 1%nat.
Proof.
  destruct (@email_auth_resubmission _ Script.env
              (Script.executor false [] [Script.key_ok; Script.logged_in])
              Script.needs_emailauth _ eq_refl
              (ex_intro _ (VBool false) (conj eq_refl eq_refl))
              (ex_intro _ (VBool true) (conj eq_refl eq_refl)))
    as [Hemail _].
  destruct (Hemail (ex_intro _ (VBool false) (conj eq_refl eq_refl)))
    as (Hstep & _ & Hcalls).
  destruct (Hcalls _ _ (surjective_pairing _)) as [Hcount Hcode].
  destruct (Hcode (VStr "EMAIL") [Script.key_ok; Script.logged_in] eq_refl)
    as [Hauth _].
  exists (snd (_enter_steam_guard_if_necessary Script.env Script.needs_emailauth
                 (Script.executor false [] [Script.key_ok; Script.logged_in]))).
  split.
  - rewrite (Hstep (VStr "EMAIL") [Script.key_ok; Script.logged_in] eq_refl).
    vm_compute. reflexivity.
  - split; [exact Hcount|]. split; [exact Hauth|]. vm_compute. reflexivity.
Defined.

(** The server asks for the email code again in its answer to the
    resubmitted request: the callback is not invoked for that response and
    no request follows - two such responses, one call of the callback -
    and the login fails on the second answer. *)
Lemma email_auth_not_repeated_counterexample :
  exists self2 self',
    final_login_response Script.env Script.run_emailauth_twice
    = (Ok Script.needs_emailauth_again, self2) /\
    (exists body, json Script.needs_emailauth_again = Ok body /\
       field_is body "success" false /\
       field_is body "emailauth_needed" true /\
       field_is body "requires_twofactor" false) /\
    login_posts (trace self2) = 2%nat /\
    email_callbacks (trace self2) = 1%nat /\
    world self2 = [Script.key_ok; Script.logged_in] /\
    login Script.env Script.run_emailauth_twice
    = (Raise (InvalidCredentials (VStr "again")), self') /\
    email_callbacks (trace self') = 1%nat /\
    trace self' = trace self2.
Proof.
  do 2 eexists. split; [vm_compute; reflexivity|].
  split.
  - eexists. split; [reflexivity|].
    split; [eexists; split; reflexivity|].
    split; eexists; split; reflexivity.
  - split; [vm_compute; reflexivity|].
    split; [vm_compute; reflexivity|].
    split; [vm_compute; reflexivity|].
    split; [vm_compute; reflexivity|].
    split; vm_compute; reflexivity.
Qed.

Lemma script_padding_ok : Codec.padding_source_ok (rsa_padding Script.env).
Proof.
  intros len w. simpl. split; [apply repeat_length|].
  induction len as [|len IH]; simpl; constructor; [discriminate | exact IH].
Qed.

Lemma urandom_padding_ok : Codec.padding_source_ok (rsa_padding Script.env_urandom).
Proof.
  intros len w. simpl.
  assert (Hdrawn : (List.length (firstn len (filter Script.nonzero w)) <= len)%nat)
    by apply firstn_le_length.
  split.
  - rewrite length_app, repeat_length. lia.
  - apply Forall_app. split.
    + assert (Hfirst : forall (k : nat) (l : list byte) b,
                In b (firstn k l) -> In b l).
      { induction k as [|k IH]; intros [|x l] b H; simpl in *; try tauto.
        destruct H as [H|H]; [now left | right; now apply IH]. }
      apply Forall_forall. intros b Hin. apply Hfirst in Hin.
      apply filter_In in Hin as [_ Hb]. unfold Script.nonzero in Hb.
      intros ->. discriminate.
    + apply Forall_forall. intros b Hin. apply repeat_spec in Hin.
      subst. discriminate.
Qed.

(** The password pw under a 127-bit key with exponent 3. *)
Lemma encrypt_password_is_base64_of_rsa_witness :
  exists ciphertext,
    fst (_encrypt_password Script.env Script.rsa_params
           (Script.executor false [] []))
    = Ok (Codec.b64encode ciphertext) /\
    string_of_list_byte (Codec.b64encode ciphertext)
    = "RguLtU4cQOiA+hXFPmsiKQ==" /\
    Codec.b64decode (Codec.b64encode ciphertext) = Some ciphertext /\
    Codec.rsa_decrypt ciphertext (rsa_key Script.rsa_params)
      Script.private_exponent
    = Some (list_byte_of_string "pw") /\
    Codec.utf8_decode (list_byte_of_string "pw") = Some [112; 119]%N.
Proof.
  destruct (encrypt_password_is_base64_of_rsa Script.env
              (Script.executor false [] []) Script.rsa_params
              script_padding_ok) as [Hspec _].
  destruct (_encrypt_password Script.env Script.rsa_params
              (Script.executor false [] [])) as [r self'] eqn:Hrun.
  assert (Hr : r = Ok (list_byte_of_string "RguLtU4cQOiA+hXFPmsiKQ==")).
  { vm_compute in Hrun. inversion Hrun. reflexivity. }
  subst r.
  destruct (Hspec _ _ eq_refl)
    as (message & PS & ciphertext & Hutf & Hback & HPS & _ & Hout & Hdec & Hd & _).
  exists ciphertext. rewrite <- Hout.
  split; [reflexivity|]. split; [reflexivity|]. split; [exact Hdec|].
  vm_compute in Hutf. inversion Hutf; subst message.
  split; [|exact Hback].
  vm_compute in Hdec. inversion Hdec; subst ciphertext.
  apply Hd. subst PS.
  rewrite <- Zpow_mod_correct by discriminate.
  vm_compute. reflexivity.
Defined.

(** The same password and the same key, two states of the random source:
    the outputs differ, and the step leaves the random source advanced. *)
Lemma encrypt_password_not_pure_counterexample :
  password (Script.urandom_executor (repeat xff 11))
  = password (Script.urandom_executor (repeat xfe 11)) /\
  fst (_encrypt_password Script.env_urandom Script.rsa_params
         (Script.urandom_executor (repeat xff 11)))
  = Ok (list_byte_of_string "RguLtU4cQOiA+hXFPmsiKQ==") /\
  fst (_encrypt_password Script.env_urandom Script.rsa_params
         (Script.urandom_executor (repeat xfe 11)))
  = Ok (list_byte_of_string "SegQT3RLayRcn/2rG4gi1g==") /\
  world (snd (_encrypt_password Script.env_urandom Script.rsa_params
                (Script.urandom_executor (repeat xff 11))))
  <> world (Script.urandom_executor (repeat xff 11)).
Proof.
  split; [reflexivity|].
  split; [vm_compute; reflexivity|].
  split; [vm_compute; reflexivity|].
  vm_compute. discriminate.
Qed.

(** Code points of one, two, three and four bytes: a, e acute, the euro
    sign and an emoji. *)
Example utf8_encode_sample :
  Codec.utf8_encode [97; 233; 8364; 128512]%N
  = Ok [x61; xc3; xa9; xe2; x82; xac; xf0; x9f; x98; x80].
Proof. vm_compute. reflexivity. Qed.

(** With the exponent -3 the step returns the power of the inverse. *)
Example encrypt_with_negative_exponent :
  fst (_encrypt_password Script.env Script.inverse_rsa_params
         (Script.executor false [] []))
  = Ok (list_byte_of_string "DcQzQwm4A6MRBtPkvb+HHA==").
Proof. vm_compute. reflexivity. Qed.

(** The scripted key endpoint gives the key used above. *)
Example fetch_scripted_key :
  fst (_fetch_rsa_params Script.env 0 (Script.executor false [] [Script.key_ok]))
  = Ok Script.rsa_params.
Proof. vm_compute. reflexivity. Qed.

(** ** Further runs against the scripted server *)

Lemma fetch_returns_first_complete_answer_witness :
  _fetch_rsa_params Script.env 0 Script.run_key_third
  = (Ok Script.rsa_params,
     snd (request_rsa_key Script.env
            (after_key_answers Script.env 2 Script.run_key_third))) /\
  trace (snd (request_rsa_key Script.env
                (after_key_answers Script.env 2 Script.run_key_third)))
  = ([] ++ repeat (key_post "user") 3)%list.
Proof.
  eapply (@fetch_returns_first_complete_answer _ Script.env 2 0
            Script.run_key_third).
  - lia.
  - simpl.
    repeat (eexists; eexists; split; [reflexivity|];
            split; [intros k v [-> | ->] H; discriminate|];
            split; [left; reflexivity|]).
    exact I.
  - vm_compute. reflexivity.
  - vm_compute. reflexivity.
Defined.

Lemma fetch_does_not_retry_other_errors_witness :
  _fetch_rsa_params Script.env 0 Script.run_key_malformed
  = (Raise (ValueError "invalid literal for int() with base 16"),
     snd (request_rsa_key Script.env Script.run_key_malformed)) /\
  world (snd (request_rsa_key Script.env Script.run_key_malformed))
  = [Script.key_ok].
Proof.
  split; [|reflexivity].
  eapply (proj1 (proj2 (proj2 (@fetch_does_not_retry_other_errors _ Script.env
                                 0 Script.run_key_malformed)))).
  - vm_compute. reflexivity.
  - reflexivity.
  - reflexivity.
Defined.

Lemma login_request_form_witness :
  exists rsa_params s1 encrypted_password s2 m,
    _fetch_rsa_params Script.env 0 Script.run_plain = (Ok rsa_params, s1) /\
    _encrypt_password Script.env rsa_params s1 = (Ok encrypted_password, s2) /\
    (1 <= m <= 6)%nat /\
    trace (snd (_send_login_request Script.env Script.run_plain))
    = ([] ++ repeat (key_post "user") m
         ++ [login_post
               (login_form "user" encrypted_password "" (VStr "")
                  (rsa_timestamp rsa_params)
                  (fst (time_ms Script.env (world s2))))])%list.
Proof.
  eapply (@login_request_form _ Script.env Script.run_plain Script.logged_in).
  vm_compute. reflexivity.
Defined.

Lemma steamauth_cookies_seeded_witness :
  exists s0,
    _set_steamauth_cookies Script.run_quoted_sessionid = (Ok tt, s0) /\
    CookieJar.lookup (cookies s0) "" "/" "sessionid"
    = Some (Some Script.unescaped_value) /\
    CookieJar.lookup (cookies s0) "" "/" "stale" = None.
Proof.
  destruct (@steamauth_cookies_seeded _ Script.run_quoted_sessionid)
    as (s0 & Hrun & Hin & Hunset & _).
  - simpl. constructor.
    + intros [H|[]]. discriminate.
    + constructor; [intros [] | constructor].
  - exists s0. split; [exact Hrun|]. split.
    + apply (Hin "sessionid" Script.quoted_value). now left.
    + apply Hunset. right. now left.
Defined.

Lemma set_sessionid_cookies_needs_cookie_witness :
  set_sessionid_cookies (Script.executor false [] [])
  = (Raise (KeyError "sessionid"), Script.executor false [] []) /\
  exists s', set_sessionid_cookies Script.executor_with_jar = (Ok tt, s').
Proof.
  split.
  - apply (proj1 (@set_sessionid_cookies_needs_cookie _ (Script.executor false [] []))).
    intros v [].
  - apply (proj2 (proj2 (@set_sessionid_cookies_needs_cookie _
                           Script.executor_with_jar))
             "help.steampowered.com" "/" (Some "5e55")).
    reflexivity.
Defined.

Lemma set_sessionid_cookies_idempotent_witness :
  set_sessionid_cookies (snd (set_sessionid_cookies Script.executor_with_jar))
  = (Ok tt, snd (set_sessionid_cookies Script.executor_with_jar)) /\
  CookieJar.lookup
    (cookies (snd (set_sessionid_cookies Script.executor_with_jar)))
    "help.steampowered.com" "/" "lang" = Some (Some "en").
Proof.
  destruct (@set_sessionid_cookies_idempotent _ Script.executor_with_jar
              (snd (set_sessionid_cookies Script.executor_with_jar)) eq_refl)
    as (Hother & Hvalue).
  destruct (Hvalue "5e55" eq_refl) as (_ & Hplain).
  destruct (Hplain eq_refl) as (_ & Hagain).
  split; [exact Hagain|].
  rewrite Hother; [reflexivity|]. left. discriminate.
Defined.

(** A session identifier in double quotes: the first run binds it without
    its escaped quotes, and [get_dict()] keeps giving the identifier of the
    third domain. *)
Example set_sessionid_cookies_quoted :
  exists s1,
    set_sessionid_cookies Script.run_quoted_jar = (Ok tt, s1) /\
    dict_get (CookieJar.get_dict (cookies Script.run_quoted_jar)) "sessionid"
    = Some (Some Script.quoted_value) /\
    CookieJar.lookup (cookies s1) "steamcommunity.com" "/" "sessionid"
    = Some (Some Script.unescaped_value).
Proof.
  eexists. split; [vm_compute; reflexivity|].
  split; vm_compute; reflexivity.
Qed.

Lemma challenge_resolution_trace_witness :
  exists m1 data1 m2 data2,
    trace (snd (final_login_response Script.env Script.run_two_factor))
    = ([] ++ repeat (key_post "user") m1 ++ [login_post data1]
         ++ [EvGenerateCode "c2VjcmV0"]
         ++ repeat (key_post "user") m2 ++ [login_post data2])%list /\
    dict_get data1 "twofactorcode" = Some (VStr "") /\
    dict_get data2 "twofactorcode" = Some (VStr "ABC12").
Proof.
  destruct (@challenge_resolution_trace _ Script.env Script.run_two_factor
              Script.logged_in
              (snd (final_login_response Script.env Script.run_two_factor)))
    as (m1 & data1 & _ & (_ & Hcode1 & _) & Hshape).
  - vm_compute. reflexivity.
  - destruct Hshape as [(Htr & _) | (call & m2 & data2 & _ & (_ & Hcode2 & _) & Htr & Hcall)].
    + exfalso. apply (f_equal collaborator_calls) in Htr.
      rewrite !collaborator_calls_app, collaborator_calls_key_posts in Htr.
      vm_compute in Htr. discriminate.
    + exists m1, data1, m2, data2. split; [|split; [exact Hcode1 | exact Hcode2]].
      rewrite Htr. destruct Hcall as [[-> _] | [-> _]]; [reflexivity|].
      exfalso. apply (f_equal collaborator_calls) in Htr.
      rewrite !collaborator_calls_app, !collaborator_calls_key_posts in Htr.
      vm_compute in Htr. discriminate.
Defined.

Lemma login_collaborator_calls_witness :
  exists challenge save,
    collaborator_calls (trace (snd (login Script.env Script.run_two_factor)))
    = ([] ++ challenge ++ save)%list /\
    (challenge = [] \/ challenge = [EvGenerateCode "c2VjcmV0"] \/
     challenge = [EvEmailCallback]) /\
    (save = [] \/
     exists final self2 body parameters,
       save = [EvSaveCallback parameters] /\
       saveCallback_callable Script.run_two_factor = true /\
       final_login_response Script.env Script.run_two_factor = (Ok final, self2) /\
       reports_success final = true /\
       json final = Ok body /\
       subscript body "transfer_parameters" = Ok parameters).
Proof.
  apply (@login_collaborator_calls _ Script.env Script.run_two_factor
           (fst (login Script.env Script.run_two_factor))
           (snd (login Script.env Script.run_two_factor))).
  apply surjective_pairing.
Defined.

Lemma successful_login_requirements_witness :
  exists final self2 body parameters transfer_urls urls,
    final_login_response Script.env Script.run_plain = (Ok final, self2) /\
    json final = Ok body /\
    field_is body "success" true /\
    subscript body "transfer_parameters" = Ok parameters /\
    parameters <> VNone /\
    subscript body "transfer_urls" = Ok transfer_urls /\
    iterate transfer_urls = Ok urls /\
    trace (snd (login Script.env Script.run_plain))
    = (trace self2
         ++ (if saveCallback_callable Script.run_plain
             then [EvSaveCallback parameters] else [])
         ++ map (fun url => EvPost url parameters) urls)%list /\
    CookieJar.lookup (cookies (snd (login Script.env Script.run_plain)))
      "steamcommunity.com" "/" "sessionid" = Some (Some "5e55") /\
    exists before sessionid,
      set_sessionid_cookies before
      = (Ok tt, snd (login Script.env Script.run_plain)) /\
      dict_get (CookieJar.get_dict (cookies before)) "sessionid"
      = Some sessionid.
Proof.
  destruct (@successful_login_requirements _ Script.env Script.run_plain
              (cookies (snd (login Script.env Script.run_plain)))
              (snd (login Script.env Script.run_plain)))
    as (final & self2 & body & parameters & transfer_urls & urls
        & H1 & H2 & H3 & H4 & H5 & H6 & H7 & H8 & _ & before & sessionid
        & Hset & _ & Hget & _).
  - vm_compute. reflexivity.
  - exists final, self2, body, parameters, transfer_urls, urls.
    split; [exact H1|]. split; [exact H2|]. split; [exact H3|].
    split; [exact H4|]. split; [exact H5|]. split; [exact H6|].
    split; [exact H7|]. split; [exact H8|].
    split; [vm_compute; reflexivity|].
    exists before, sessionid. split; [exact Hset | exact Hget].
Defined.

Lemma null_transfer_parameters_witness :
  exists self',
    login Script.env Script.run_null_parameters = (Raise redirect_error, self') /\
    trace self'
    = (trace (snd (final_login_response Script.env Script.run_null_parameters))
         ++ [EvSaveCallback VNone])%list.
Proof.
  eapply (proj2 (@null_transfer_parameters _ Script.env
                   Script.run_null_parameters Script.success_null_parameters
                   (snd (final_login_response Script.env Script.run_null_parameters))
                   _ _ eq_refl
                   (ex_intro _ (VBool true) (conj eq_refl eq_refl)) eq_refl)
            eq_refl).
  reflexivity.
  Unshelve. vm_compute. reflexivity.
Defined.

Lemma missing_transfer_urls_witness :
  exists self',
    login Script.env Script.run_without_urls
    = (Raise (KeyError "transfer_urls"), self') /\
    trace self'
    = (trace (snd (final_login_response Script.env Script.run_without_urls))
         ++ [EvSaveCallback Script.transfer_parameters])%list.
Proof.
  eapply (proj2 (@missing_transfer_urls _ Script.env
                   Script.run_without_urls Script.success_without_urls
                   (snd (final_login_response Script.env Script.run_without_urls))
                   _ Script.transfer_parameters _ eq_refl
                   (ex_intro _ (VBool true) (conj eq_refl eq_refl)) eq_refl
                   _ _)
            eq_refl).
  reflexivity.
  Unshelve.
  - vm_compute. reflexivity.
  - discriminate.
  - eexists. split; reflexivity.
Defined.

Lemma failing_first_response_outcomes_witness :
  login Script.env Script.run_without_flags
  = (Raise (KeyError "requires_twofactor"),
     snd (_send_login_request Script.env
            (snd (_set_steamauth_cookies Script.run_without_flags)))).
Proof.
  eapply (proj1 (@failing_first_response_outcomes _ Script.env
                   Script.run_without_flags Script.failure_without_flags
                   (snd (_send_login_request Script.env
                           (snd (_set_steamauth_cookies Script.run_without_flags))))
                   _ _ eq_refl _ _)).
  eexists. split; reflexivity.
  Unshelve.
  - vm_compute. reflexivity.
  - intros (c & Hc & Ht). vm_compute in Hc. inversion Hc; subst. discriminate.
  - eexists. split; reflexivity.
Defined.

Lemma encrypt_password_returns_iff_witness :
  (exists out self',
     _encrypt_password Script.env Script.rsa_params (Script.executor false [] [])
     = (Ok out, self')) /\
  (exists out self',
     _encrypt_password Script.env Script.inverse_rsa_params
       (Script.executor false [] [])
     = (Ok out, self')) /\
  (exists self',
     _encrypt_password Script.env Script.short_rsa_params
       (Script.executor false [] [])
     = (Raise OverflowError, self') /\
     world self' = [] /\ trace self' = []).
Proof.
  split; [|split].
  - apply (proj1 (@encrypt_password_returns_iff _ Script.env
                    (Script.executor false [] []) Script.rsa_params
                    script_padding_ok)).
    exists (list_byte_of_string "pw").
    split; [reflexivity|]. split; [reflexivity|].
    split; [vm_compute; lia|]. intros Hneg. discriminate.
  - apply (proj1 (@encrypt_password_returns_iff _ Script.env
                    (Script.executor false [] []) Script.inverse_rsa_params
                    script_padding_ok)).
    exists (list_byte_of_string "pw").
    split; [reflexivity|]. split; [reflexivity|].
    split; [vm_compute; lia|]. intros _. vm_compute. reflexivity.
  - apply (proj2 (@encrypt_password_returns_iff _ Script.env
                    (Script.executor false [] []) Script.short_rsa_params
                    script_padding_ok) (list_byte_of_string "pw")).
    + reflexivity.
    + vm_compute. lia.
Defined.

Lemma codes_change_only_by_challenge_witness :
  exists calls,
    trace (snd (login Script.env Script.run_two_factor)) = ([] ++ calls)%list /\
    (one_time_code (snd (login Script.env Script.run_two_factor)) = ""
     \/ In (EvGenerateCode "c2VjcmV0") calls) /\
    (email_auth (snd (login Script.env Script.run_two_factor)) = VStr ""
     \/ In EvEmailCallback calls).
Proof.
  apply (@codes_change_only_by_challenge _ Script.env Script.run_two_factor
           (fst (login Script.env Script.run_two_factor))
           (snd (login Script.env Script.run_two_factor))).
  apply surjective_pairing.
Defined.

Lemma fresh_executor_first_request_witness :
  exists m data,
    (1 <= m <= 6)%nat /\
    trace (snd (_send_login_request Script.env
                  (snd (_set_steamauth_cookies
                          (__init__ "user" [112; 119]%N "c2VjcmV0" false []
                             [] [Script.key_ok; Script.logged_in])))))
    = (repeat (key_post "user") m ++ [login_post data])%list /\
    dict_get data "username" = Some (VStr "user") /\
    dict_get data "twofactorcode" = Some (VStr "") /\
    dict_get data "emailauth" = Some (VStr "").
Proof.
  eapply (@fresh_executor_first_request _ Script.env "user" [112; 119]%N
            "c2VjcmV0" false [] [] [Script.key_ok; Script.logged_in]
            Script.logged_in).
  vm_compute. reflexivity.
Defined.
